(** * EMFI Station: a shallow embedding of the stage controller, the position
      planner, the attack worker and the orchestration layer.

    The development follows the Python sources module by module:
    [utils.py], [marlin_serial.py], [marlin.py], [attack_importer.py],
    [attack_worker.py], [websocket_state.py], [websocket_helper.py] and
    [websocket_server.py].

    Modelling conventions.
    - Python [int] is [Z]; Python [float] is an IEEE 754 binary64 number
      ([float], with the standard library's specification of its operations:
      rounding to nearest even, signed zeros, infinities and NaN).
    - The builtin [float()] on the values of a decoded message is a
      parameter of the orchestration layer ([Builtin.Float]): what is proved
      there holds whatever [float()] answers.
    - [join()] on a thread has no timeout.  Whether a started task comes to
      an end is a fact about the station and its board: where it does not,
      [join] does not return, which the outcome [OutOfFuel] stands for.
    - [bytes] and [str] are [string]; a line feed is the character "010".
    - Code that talks to the serial port runs in a state-and-exception monad
      [M]; a [while True] loop takes a fuel argument and answers [OutOfFuel]
      when the fuel is used up.
    - The asynchronous [KeyboardInterrupt] handler of the wait loop is not
      modelled. *)

From Stdlib Require Import ZArith QArith Bool String Ascii List Lia DecimalString.
From Stdlib Require Import SpecFloat.
Import ListNotations.

Local Open Scope string_scope.
Local Open Scope Z_scope.

(** ** Exceptions and outcomes *)

Inductive exn : Type :=
| IOError | ValueError | TypeError | IndexError | KeyError
| AssertionError | AttributeError | RuntimeError | ZeroDivisionError
| OverflowError | Exception.

Inductive outcome (A : Type) : Type :=
| Ok (a : A)
| Raise (e : exn)
| OutOfFuel.

Arguments Ok {A} a.
Arguments Raise {A} e.
Arguments OutOfFuel {A}.

(** Pure code that may raise. *)
Definition obind {A B} (m : outcome A) (k : A -> outcome B) : outcome B :=
  match m with
  | Ok a => k a
  | Raise e => Raise e
  | OutOfFuel => OutOfFuel
  end.

(** State-and-exception monad: the state survives a raised exception, as the
    fields of a Python object do. *)
Definition M (S A : Type) : Type := S -> outcome A * S.

Definition ret {S A} (a : A) : M S A := fun s => (Ok a, s).
Definition raise {S A} (e : exn) : M S A := fun s => (Raise e, s).
Definition out_of_fuel {S A} : M S A := fun s => (OutOfFuel, s).
Definition bind {S A B} (m : M S A) (k : A -> M S B) : M S B :=
  fun s => match m s with
           | (Ok a, s') => k a s'
           | (Raise e, s') => (Raise e, s')
           | (OutOfFuel, s') => (OutOfFuel, s')
           end.
Definition get {S} : M S S := fun s => (Ok s, s).
Definition modify {S} (f : S -> S) : M S unit := fun s => (Ok tt, f s).
Definition lift_pure {S A} (o : outcome A) : M S A := fun s => (o, s).

(** [try: m except e: h] *)
Definition try_except {S A} (m : M S A) (e : exn) (h : M S A) : M S A :=
  fun s => match m s with
           | (Raise e', s') =>
               if match e, e' with
                  | IOError, IOError | ValueError, ValueError
                  | TypeError, TypeError | IndexError, IndexError
                  | KeyError, KeyError | AssertionError, AssertionError
                  | AttributeError, AttributeError
                  | RuntimeError, RuntimeError
                  | ZeroDivisionError, ZeroDivisionError
                  | OverflowError, OverflowError | Exception, _ => true
                  | _, _ => false
                  end
               then h s' else (Raise e', s')
           | r => r
           end.

(** [m] never changes the part [f] of the state, whatever its outcome. *)
Definition preserves {S X B} (f : S -> X) (m : M S B) : Prop :=
  forall s, f (snd (m s)) = f s.

Declare Scope monad_scope.
Delimit Scope monad_scope with monad.
Notation "x <- m ;; k" := (bind m (fun x => k))
  (at level 61, m at next level, right associativity) : monad_scope.
Notation "m ;; k" := (bind m (fun _ => k))
  (at level 61, right associativity) : monad_scope.
Notation "x <~ m ;; k" := (obind m (fun x => k))
  (at level 61, m at next level, right associativity) : monad_scope.

(** ** Python floats: IEEE 754 binary64 *)

Definition float : Type := spec_float.

Module Float.

Definition prec : Z := 53.
Definition emax : Z := 1024.

Definition zero : float := S754_zero false.
Definition nan : float := S754_nan.
Definition inf : float := S754_infinity false.

Definition add (a b : float) : float := SFadd prec emax a b.
Definition mul (a b : float) : float := SFmul prec emax a b.

(** [a > b], [a <= b] and [a == b]: false as soon as one side is NaN. *)
Definition gtb (a b : float) : bool := SFltb b a.
Definition leb (a b : float) : bool := SFleb a b.
Definition eqb (a b : float) : bool := SFeqb a b.

Definition is_nan (a : float) : bool :=
  match a with S754_nan => true | _ => false end.

(** [float(n)] for an int: the nearest float, ties to even. *)
Definition of_Z (n : Z) : float := binary_normalize prec emax n 0 false.

(** The float nearest to [n / d], ties to even; [neg] is its sign. *)
Definition of_ratio (neg : bool) (n d : positive) : float :=
  let '(q, e, l) := SFdiv_core_binary prec emax (Z.pos n) 0 (Z.pos d) 0 in
  binary_round_aux prec emax neg q e l.

(** The value of a finite float. *)
Definition to_Q (a : float) : Q :=
  match a with
  | S754_finite s m e =>
      let v := if 0 <=? e then inject_Z (Z.pos m * 2 ^ e)
               else Z.pos m # Z.to_pos (2 ^ (- e)) in
      if s then Qopp v else v
  | _ => 0%Q
  end.

Definition sign (a : float) : bool :=
  match a with
  | S754_zero s | S754_infinity s | S754_finite s _ _ => s
  | S754_nan => false
  end.

(** [bool(a)]: false for both zeros only. *)
Definition truth (a : float) : bool := negb (eqb a zero).

(** [int(a)]: truncation towards zero. *)
Definition int_ (a : float) : outcome Z :=
  match a with
  | S754_nan => Raise ValueError
  | S754_infinity _ => Raise OverflowError
  | _ => let q := to_Q a in Ok (Z.quot (Qnum q) (Z.pos (Qden q)))
  end.

(** The float nearest to a rational. *)
Definition of_Q (q : Q) : float :=
  match Qnum q with
  | Z0 => zero
  | Z.pos n => of_ratio false n (Qden q)
  | Z.neg n => of_ratio true n (Qden q)
  end.

End Float.


(** [a / b] on ints: the float nearest to the quotient. *)
Definition true_div (a b : Z) : outcome float :=
  if b =? 0 then Raise ZeroDivisionError
  else
    let neg := xorb (a <? 0) (b <? 0) in
    match Z.abs a with
    | Z.pos n =>
        match Float.of_ratio neg n (Z.to_pos (Z.abs b)) with
        | S754_infinity _ => Raise OverflowError
        | r => Ok r
        end
    | _ => Ok (S754_zero neg)
    end.

(** ** Python strings *)

Module PyStr.

Definition LF : string := String "010"%char "".

Fixpoint contains (c : ascii) (s : string) : bool :=
  match s with
  | EmptyString => false
  | String d s' => if Ascii.eqb c d then true else contains c s'
  end.

(** [s.split(sep)] for a one-character separator: the pieces between the
    separators, always at least one piece. *)
Fixpoint split_aux (sep : ascii) (s : string) (cur : string) : list string :=
  match s with
  | EmptyString => [cur]
  | String c s' =>
      if Ascii.eqb c sep then cur :: split_aux sep s' ""
      else split_aux sep s' (cur ++ String c "")
  end.
Definition split (sep : ascii) (s : string) : list string := split_aux sep s "".

(** [s.split(sep, 1)]: cut at the first separator only. *)
Fixpoint split1_aux (sep : ascii) (s : string) (cur : string) : list string :=
  match s with
  | EmptyString => [cur]
  | String c s' =>
      if Ascii.eqb c sep then [cur; s']
      else split1_aux sep s' (cur ++ String c "")
  end.
Definition split1 (sep : ascii) (s : string) : list string := split1_aux sep s "".

(** [l[i]], raising [IndexError] out of range (non-negative [i] only). *)
Definition index {A} (l : list A) (i : nat) : outcome A :=
  match nth_error l i with
  | Some a => Ok a
  | None => Raise IndexError
  end.

(** [str(n)] for an int. *)
Definition str_int (n : Z) : string := NilZero.string_of_int (Z.to_int n).

(** [str(t)] for a tuple of ints. *)
Definition str_tuple (t : list Z) : string :=
  match t with
  | [n] => "(" ++ str_int n ++ ",)"
  | _ => "(" ++ String.concat ", " (map str_int t) ++ ")"
  end.

Definition hex_digit (n : nat) : ascii :=
  nth n (list_ascii_of_string "0123456789abcdef") "0"%char.

(** One byte as [repr] of a bytes object prints it, inside the quote [q]. *)
Definition repr_byte (q : ascii) (c : ascii) : string :=
  let n := nat_of_ascii c in
  if Ascii.eqb c "\"%char then "\\"
  else if Ascii.eqb c q then String "\"%char (String q "")
  else if Nat.eqb n 9 then "\t"
  else if Nat.eqb n 10 then "\n"
  else if Nat.eqb n 13 then "\r"
  else if (Nat.ltb n 32 || Nat.leb 127 n)%bool
       then "\x" ++ String (hex_digit (n / 16)) (String (hex_digit (n mod 16)) "")
  else String c "".

Fixpoint repr_body (q : ascii) (s : string) : string :=
  match s with
  | EmptyString => ""
  | String c s' => repr_byte q c ++ repr_body q s'
  end.

(** [str(b)] for a bytes object [b]: its [repr], with the [b] prefix and
    quotes.  Double quotes are chosen when the bytes hold a single quote and
    no double quote. *)
Definition str_bytes (b : string) : string :=
  let q := if (contains "'"%char b && negb (contains "034"%char b))%bool
           then "034"%char else "'"%char in
  "b" ++ String q (repr_body q b ++ String q "").

(** Characters that [float()] strips from both ends: the ASCII blanks. *)
Definition is_space (c : ascii) : bool :=
  let n := nat_of_ascii c in
  (Nat.eqb n 32 || (Nat.leb 9 n && Nat.leb n 13))%bool.

Fixpoint lstrip (s : string) : string :=
  match s with
  | String c s' => if is_space c then lstrip s' else s
  | EmptyString => EmptyString
  end.

Fixpoint rev_string (s : string) (acc : string) : string :=
  match s with
  | EmptyString => acc
  | String c s' => rev_string s' (String c acc)
  end.

Definition strip (s : string) : string :=
  rev_string (lstrip (rev_string (lstrip s) EmptyString)) EmptyString.

Definition digit_of (c : ascii) : option Z :=
  let n := nat_of_ascii c in
  if (Nat.leb 48 n && Nat.leb n 57)%bool then Some (Z.of_nat (n - 48)) else None.

Definition is_digit (c : ascii) : bool :=
  match digit_of c with Some _ => true | None => false end.

(** Reads a run of decimal digits: (value, number of digits, rest). *)
Fixpoint digits (s : string) (acc : Z) (len : nat) : Z * nat * string :=
  match s with
  | String c s' =>
      match digit_of c with
      | Some d => digits s' (10 * acc + d) (S len)
      | None => (acc, len, s)
      end
  | EmptyString => (acc, len, s)
  end.

Definition sign_of (s : string) : bool * string :=
  match s with
  | String "-"%char s' => (true, s')
  | String "+"%char s' => (false, s')
  | _ => (false, s)
  end.

(** Underscores in a numeric literal: each one stands between two digits.
    [prev] is the character before [s]; the result is [s] without its
    underscores, or [None] where one is misplaced. *)
Fixpoint drop_underscores (prev : option ascii) (s : string) : option string :=
  match s with
  | EmptyString =>
      match prev with
      | Some "_"%char => None
      | _ => Some EmptyString
      end
  | String c s' =>
      let after_digit := match prev with Some p => is_digit p | None => false end in
      let after_underscore :=
        match prev with Some p => Ascii.eqb p "_" | None => false end in
      if Ascii.eqb c "_" then
        if after_digit then drop_underscores (Some c) s' else None
      else if (after_underscore && negb (is_digit c))%bool then None
      else option_map (String c) (drop_underscores (Some c) s')
  end.

Definition lower (c : ascii) : ascii :=
  let n := nat_of_ascii c in
  if (Nat.leb 65 n && Nat.leb n 90)%bool then ascii_of_nat (n + 32) else c.

Fixpoint lower_string (s : string) : string :=
  match s with
  | EmptyString => EmptyString
  | String c s' => String (lower c) (lower_string s')
  end.

(** The float nearest to [n * 10 ^ e10], for [n] with at most [len] digits. *)
Definition of_decimal (neg : bool) (n : Z) (len : nat) (e10 : Z) : float :=
  match n with
  | Z.pos p =>
      if e10 + Z.of_nat len <? -400 then S754_zero neg
      else if 400 <? e10 then S754_infinity neg
      else if 0 <=? e10
      then binary_normalize Float.prec Float.emax
             (if neg then - (n * 10 ^ e10) else n * 10 ^ e10) 0 neg
      else Float.of_ratio neg p (Z.to_pos (10 ^ (- e10)))
  | _ => S754_zero neg
  end.

(** [float(s)] for a string of ASCII characters: underscores between digits
    are dropped, blanks at both ends are stripped, and what is left is
    [sign] [inf | infinity | nan], in any case, or the decimal notation
    [sign] digits [. digits] [e [sign] digits] with at least one digit before
    the exponent.  [None] is [ValueError]. *)
Definition float_of_str (s : string) : option float :=
  match drop_underscores None s with
  | None => None
  | Some s0 =>
      let '(neg, s1) := sign_of (strip s0) in
      let word := lower_string s1 in
      if (String.eqb word "inf" || String.eqb word "infinity")%bool
      then Some (S754_infinity neg)
      else if String.eqb word "nan" then Some S754_nan
      else
        let '(ip, ilen, s2) := digits s1 0 0%nat in
        let '(fp, flen, s3) :=
          match s2 with
          | String "."%char r => digits r 0 0%nat
          | _ => (0, 0%nat, s2)
          end in
        if Nat.eqb (ilen + flen) 0 then None else
        let n := ip * 10 ^ Z.of_nat flen + fp in
        match s3 with
        | EmptyString => Some (of_decimal neg n (ilen + flen) (- Z.of_nat flen))
        | String c r =>
            if (Ascii.eqb c "e" || Ascii.eqb c "E")%bool then
              let '(eneg, r1) := sign_of r in
              let '(ev, elen, r2) := digits r1 0 0%nat in
              match elen, r2 with
              | S _, EmptyString =>
                  Some (of_decimal neg n (ilen + flen)
                          ((if eneg then - ev else ev) - Z.of_nat flen))
              | _, _ => None
              end
            else None
        end
  end.

Definition float_ (s : string) : outcome float :=
  match float_of_str s with
  | Some q => Ok q
  | None => Raise ValueError
  end.

(** Round half to even of a rational to an integer. *)
Definition round_half_even (q : Q) : Z :=
  let n := Qnum q in
  let d := Z.pos (Qden q) in
  let f := n / d in
  let r2 := 2 * (n mod d) in
  if r2 <? d then f
  else if d <? r2 then f + 1
  else if Z.even f then f else f + 1.

(** Zero padding on the left up to [width] characters. *)
Fixpoint pad_left (fuel width : nat) (s : string) : string :=
  match fuel with
  | O => s
  | S fuel' =>
      if Nat.ltb (String.length s) width
      then pad_left fuel' width (String "0"%char s) else s
  end.

(** ['{:f}'.format(a)]: six decimals of the value of [a], rounded half to
    even. *)
Definition format_f (a : float) : string :=
  match a with
  | S754_nan => "nan"
  | S754_infinity s => if s then "-inf" else "inf"
  | _ =>
      let n := round_half_even (Float.to_Q a * inject_Z 1000000) in
      let m := Z.abs n in
      let body :=
        str_int (m / 1000000) ++ "." ++ pad_left 6 6 (str_int (m mod 1000000)) in
      if Float.sign a then "-" ++ body else body
  end.

End PyStr.

(** ** utils.py: the position planner

    The planner is embedded on Python ints, the numbers of the sweeps stated in
    the specification: [str] of an int has no decimal point and [round] of an
    int to zero or more digits is the int itself. *)

Module Utils.

Import PyStr.
Local Open Scope list_scope.

Definition position : Type := Z * Z * Z.

(** An argument of [get_decimals_len]: a number or a position. *)
Inductive pyval : Type :=
| VInt (n : Z)
| VTuple (t : list Z).

Definition str (v : pyval) : string :=
  match v with
  | VInt n => str_int n
  | VTuple t => str_tuple t
  end.

Definition tuple_of (p : position) : pyval :=
  let '(x, y, z) := p in VTuple [x; y; z].

(** [len(str(x).split('.')[1])] *)
Definition decimals (v : pyval) : outcome nat :=
  (d <~ index (split "."%char (str v)) 1 ;; Ok (String.length d))%monad.

Definition get_decimals_len (numbers : list pyval) : nat :=
  fold_left
    (fun fp x =>
       match decimals x with
       | Ok decs => if Nat.ltb fp decs then decs else fp
       | _ => fp                                   (* except IndexError: pass *)
       end)
    numbers 0%nat.

(** [round(x, fp)] for an int [x] and [fp >= 0]. *)
Definition round (x : Z) (fp : nat) : Z := x.

(** [while start < stop: lst.append(round(start, fp)); start += step] *)
Fixpoint while_up (fuel fp : nat) (start stop step : Z) (lst : list Z)
  : outcome (list Z) :=
  match fuel with
  | O => OutOfFuel
  | S fuel' =>
      if start <? stop
      then while_up fuel' fp (start + step) stop step (lst ++ [round start fp])
      else Ok lst
  end.

(** [while start > stop: lst.append(round(start, fp)); start -= step] *)
Fixpoint while_down (fuel fp : nat) (start stop step : Z) (lst : list Z)
  : outcome (list Z) :=
  match fuel with
  | O => OutOfFuel
  | S fuel' =>
      if start >? stop
      then while_down fuel' fp (start - step) stop step (lst ++ [round start fp])
      else Ok lst
  end.

Definition range_rounded (fuel : nat) (start stop step : Z) : outcome (list Z) :=
  let fp := get_decimals_len [VInt start; VInt stop; VInt step] in
  (lst <~ (if start <? stop
           then while_up fuel fp start stop step []
           else while_down fuel fp start stop step []) ;;
   Ok (lst ++ [round stop fp]))%monad.

(** The innermost loop: one run over [y_pos]. *)
Definition sweep_y (x z : Z) (y_pos : list Z) (positions : list position)
  : list position :=
  fold_left (fun acc y => acc ++ [(x, y, z)]) y_pos positions.

(** One layer: for each [x] a run over [y_pos], which is reversed in place
    after each run. *)
Definition sweep_x (z : Z) (x_pos : list Z) (st : list position * list Z)
  : list position * list Z :=
  fold_left
    (fun '(positions, y_pos) x => (sweep_y x z y_pos positions, rev y_pos))
    x_pos st.

(** All layers: [x_pos] is reversed in place after each layer. *)
Definition sweep_z (z_pos x_pos y_pos : list Z) : list position :=
  let '(positions, _, _) :=
    fold_left
      (fun '(positions, x_pos, y_pos) z =>
         let '(positions', y_pos') := sweep_x z x_pos (positions, y_pos) in
         (positions', rev x_pos, y_pos'))
      z_pos ([], x_pos, y_pos) in
  positions.

(** The closing validation: [assert pl <= fp] on every coordinate that prints
    with a decimal point. *)
Definition validate (fp : nat) (positions : list position) : outcome unit :=
  if forallb
       (fun '(x, y, z) =>
          forallb (fun i => match decimals (VInt i) with
                            | Ok pl => Nat.leb pl fp
                            | _ => true
                            end) [x; y; z])
       positions
  then Ok tt else Raise AssertionError.

Definition compute_positions (fuel : nat) (start stop : position) (step : Z)
  : outcome (list position) :=
  let fp := get_decimals_len [tuple_of start; tuple_of stop; VInt step] in
  let '(x0, y0, z0) := start in
  let '(x1, y1, z1) := stop in
  (x_pos <~ range_rounded fuel x0 x1 step ;;
   y_pos <~ range_rounded fuel y0 y1 step ;;
   z_pos <~ range_rounded fuel z0 z1 step ;;
   let positions := sweep_z z_pos x_pos y_pos in
   _ <~ validate fp positions ;;
   Ok positions)%monad.

End Utils.

(** ** marlin_serial.py: the serial link to the controller board

    The board is a stream [rx]: [rx i] is what the [i]-th [readline] returns,
    the empty string when the 0.25 s read timeout expires with no data.  Debug
    logging of the link is left out. *)

Module MarlinSerial.

Record t : Type := mk {
  sim : bool;               (* simulated link *)
  rx : nat -> string;       (* lines delivered by the board *)
  reads : nat;              (* readline calls made on the port *)
  sent : list string;       (* lines written to the port, oldest first *)
  clears : nat;             (* input buffer resets *)
  slept : nat;              (* half seconds slept by simulated reads *)
  closed : bool
}.

Definition clear : M t unit :=
  modify (fun s =>
    if sim s then s
    else mk (sim s) (rx s) (reads s) (sent s) (S (clears s)) (slept s) (closed s)).

Definition read : M t string :=
  fun s =>
    if sim s
    then (Ok ("ok" ++ PyStr.LF),
          mk (sim s) (rx s) (reads s) (sent s) (clears s) (S (slept s)) (closed s))
    else (Ok (rx s (reads s)),
          mk (sim s) (rx s) (S (reads s)) (sent s) (clears s) (slept s) (closed s)).

Definition close : M t unit :=
  modify (fun s =>
    if sim s then s
    else mk (sim s) (rx s) (reads s) (sent s) (clears s) (slept s) true).

Definition cmd (c : string) : M t unit :=
  modify (fun s =>
    if sim s then s
    else mk (sim s) (rx s) (reads s) (sent s ++ [(c ++ PyStr.LF)%string])%list
            (clears s) (slept s) (closed s)).

(** A board that delivers the lines of [l] and then stays silent. *)
Definition board (l : list string) : nat -> string :=
  fun i => nth i l EmptyString.

Definition open (simulate : bool) (lines : nat -> string) : t :=
  mk simulate lines 0 [] (if simulate then 0 else 1)%nat 0 false.

End MarlinSerial.

(** ** marlin.py: the stage controller *)

Module Marlin.

Import PyStr.
Local Open Scope monad_scope.

Definition BUSY_MSG : string := "echo:busy: processing" ++ LF.
Definition OK_MSG : string := "ok" ++ LF.

(** What the controller writes to the application log. *)
Inductive log_record : Type :=
| LogEmergency                        (* critical: Emergency stop initiated. *)
| LogKill                             (* critical: Killing Marlin. Reboot necessary. *)
| LogNoPosition                       (* critical: Could not retrieve position. *)
| LogUnsafeMove (x y z : option float) (* critical: Moving to this position (x, y, z) is not safe. Aborting. *)
| LogUnsafeRelative                   (* critical: Moving to this position is not safe. Aborting. *)
| LogMoving (x y z : option float)    (* info: Moving to X=.., Y=.., Z=... *)
| LogHoming (axes : string)           (* info: Homing axles: .. *)
| LogSafeHeight (z : float).          (* info: Set safe z height to: .. *)

(** The jog thread ([continuous_movement]) is not part of this embedding. *)
Record t : Type := mk {
  ser : MarlinSerial.t;
  safe_height : float;
  log : list log_record;
  slept : nat                         (* quarter seconds slept while polling *)
}.

Definition init (simulate : bool) (lines : nat -> string) : t :=
  mk (MarlinSerial.open simulate lines) (Float.of_Z 100) [] 0.

Definition on_ser {A} (m : M MarlinSerial.t A) : M t A :=
  fun s => let (r, s') := m (ser s) in (r, mk s' (safe_height s) (log s) (slept s)).

Definition logger (r : log_record) : M t unit :=
  modify (fun s => mk (ser s) (safe_height s) (log s ++ [r])%list (slept s)).

(** [time.sleep(0.25)] *)
Definition sleep_quarter : M t unit :=
  modify (fun s => mk (ser s) (safe_height s) (log s) (S (slept s))).

Definition close : M t unit := on_ser MarlinSerial.close.

Definition default_max_tries : Z := 10.

(** The body of [while True] in [__wait_cmd_completed]. *)
Fixpoint wait_loop (fuel : nat) (max_tries counter : Z) (msg : string)
  : M t string :=
  match fuel with
  | O => out_of_fuel
  | S fuel' =>
      res <- on_ser MarlinSerial.read ;;
      let msg := if String.eqb res EmptyString then msg else msg ++ res in
      let counter := if String.eqb res BUSY_MSG then 0 else counter in
      if String.eqb res OK_MSG then ret msg
      else
        sleep_quarter ;;
        let counter := counter + 1 in
        if counter >? max_tries then raise IOError
        else wait_loop fuel' max_tries counter msg
  end.

Definition wait_cmd_completed (fuel : nat) (max_tries : Z) : M t string :=
  msg <- wait_loop fuel max_tries 0 EmptyString ;;
  last <- on_ser MarlinSerial.read ;;
  ret (msg ++ last).

Definition wait_move_completed (fuel : nat) : M t unit :=
  on_ser MarlinSerial.clear ;;
  on_ser (MarlinSerial.cmd "M400") ;;
  _ <- wait_cmd_completed fuel default_max_tries ;;
  ret tt.

Definition emergency (fuel : nat) : M t unit :=
  on_ser (MarlinSerial.cmd "M410") ;;
  logger LogEmergency ;;
  _ <- wait_cmd_completed fuel default_max_tries ;;
  ret tt.

Definition kill (fuel : nat) : M t unit :=
  on_ser (MarlinSerial.cmd "M112") ;;
  logger LogKill ;;
  _ <- wait_cmd_completed fuel default_max_tries ;;
  ret tt.

(** [float(s[i].split(' ', 1)[0])] *)
Definition field (s : list string) (i : nat) : outcome float :=
  f <~ index s i ;;
  h <~ index (split1 " "%char f) 0 ;;
  float_ h.

(** The [try] block of [get_position]. *)
Definition parse_position (pos_str : string)
  : outcome (float * float * float) :=
  let s := split ":"%char pos_str in
  x <~ field s 1 ;;
  y <~ field s 2 ;;
  z <~ field s 3 ;;
  Ok (x, y, z).

Definition get_position (fuel : nat) : M t (float * float * float) :=
  on_ser (MarlinSerial.cmd "M114") ;;
  reply <- on_ser MarlinSerial.read ;;
  let pos_str := str_bytes reply in
  _ <- wait_cmd_completed fuel default_max_tries ;;
  try_except
    (lift_pure (parse_position pos_str))
    IndexError
    (logger LogNoPosition ;; ret (Float.of_Z 0, Float.of_Z 0, Float.of_Z 0)).

Definition set_acceleration (fuel : nat) (acceleration : Z) : M t unit :=
  on_ser (MarlinSerial.cmd ("M204 T" ++ str_int acceleration)) ;;
  _ <- wait_cmd_completed fuel default_max_tries ;;
  ret tt.

Definition is_safe_height (s : t) (z : float) : bool :=
  if Float.gtb z (safe_height s) then false else true.

Definition axis (letter : string) (v : option float) : string :=
  match v with
  | Some q => letter ++ format_f q
  | None => EmptyString
  end.

Definition move (fuel : nat) (x y z : option float) (feed_rate : float)
  : M t unit :=
  s <- get ;;
  if match z with
     | Some zv => negb (is_safe_height s zv)
     | None => false
     end
  then logger (LogUnsafeMove x y z)
  else
    let cmd := "G0 F" ++ format_f (Float.mul feed_rate (Float.of_Z 60)) in
    let cmd := cmd ++ axis "X" x in
    let cmd := cmd ++ axis "Y" y in
    let cmd := cmd ++ axis "Z" z in
    on_ser (MarlinSerial.cmd cmd) ;;
    logger (LogMoving x y z) ;;
    _ <- wait_cmd_completed fuel default_max_tries ;;
    wait_move_completed fuel.

Definition relative_mode (fuel : nat) (enable : bool) : M t unit :=
  if enable then
    on_ser (MarlinSerial.cmd "G91") ;;
    _ <- wait_cmd_completed fuel default_max_tries ;;
    ret tt
  else
    on_ser (MarlinSerial.cmd "G90") ;;
    _ <- wait_cmd_completed fuel default_max_tries ;;
    ret tt.

(** [pos[2] + z] raises [TypeError] when [z] is [None]. *)
Definition add_height (pz : float) (z : option float) : outcome float :=
  match z with
  | Some zv => Ok (Float.add pz zv)
  | None => Raise TypeError
  end.

Definition relative_move (fuel : nat) (x y z : option float)
  (feed_rate : float) : M t unit :=
  pos <- get_position fuel ;;
  target <- lift_pure (add_height (snd pos) z) ;;
  s <- get ;;
  (if negb (is_safe_height s target) then logger LogUnsafeRelative else ret tt) ;;
  relative_mode fuel true ;;
  move fuel x y z feed_rate ;;
  relative_mode fuel false.

Definition home (fuel : nat) (x y z : bool) : M t unit :=
  if (Bool.eqb x y && Bool.eqb y z && negb x)%bool then ret tt
  else
    let cmd := "G28" in
    let cmd := if x then cmd ++ " X" else cmd in
    let cmd := if y then cmd ++ " Y" else cmd in
    let cmd := if z then cmd ++ " Z" else cmd in
    on_ser MarlinSerial.clear ;;
    on_ser (MarlinSerial.cmd cmd) ;;
    logger (LogHoming (substring 4 (String.length cmd - 4) cmd)) ;;
    _ <- wait_cmd_completed fuel default_max_tries ;;
    ret tt.

Definition set_safe_height (z : float) : M t unit :=
  logger (LogSafeHeight z) ;;
  modify (fun s => mk (ser s) z (log s) (slept s)).

Definition set_fan_speed (fuel : nat) (speed slot : Z) : M t unit :=
  on_ser (MarlinSerial.cmd ("M106 P" ++ str_int slot ++ " S" ++ str_int speed)) ;;
  _ <- wait_cmd_completed fuel default_max_tries ;;
  ret tt.

(** [v is not None] *)
Definition given {B} (v : option B) : bool :=
  match v with Some _ => true | None => false end.

(** [if q:] for a number: true unless it is zero. *)
Definition nonzero (q : float) : bool := Float.truth q.

(** The command line that [continuous_move] builds. *)
Definition jog_cmd (x y z : float) (feed_rate step : Z) : string :=
  let cmd := "G0 F" ++ str_int (feed_rate * 60) ++ " " in
  let cmd := if nonzero x
             then cmd ++ "X" ++ format_f (Float.mul (Float.of_Z step) x) else cmd in
  let cmd := if nonzero y
             then cmd ++ "Y" ++ format_f (Float.mul (Float.of_Z step) y) else cmd in
  let cmd := if nonzero z
             then cmd ++ "Z" ++ format_f (Float.mul (Float.of_Z step) z) else cmd in
  cmd.

(** [continuous_move]: one jog step; the wait is the move barrier alone. *)
Definition continuous_move (fuel : nat) (x y z : float) (feed_rate step : Z)
  : M t unit :=
  on_ser (MarlinSerial.cmd (jog_cmd x y z feed_rate step)) ;;
  wait_move_completed fuel.

Definition save_pos (fuel : nat) (slot : Z) : M t unit :=
  on_ser (MarlinSerial.cmd ("G60 S" ++ str_int slot)) ;;
  _ <- wait_cmd_completed fuel default_max_tries ;;
  ret tt.

(** [return_to_pos]: the axis flags are tested with [is not None]. *)
Definition return_to_pos (fuel : nat) (x y z : option bool) (slot : Z)
  : M t unit :=
  let cmd := "G61 " in
  let cmd := if given x then cmd ++ "X" else cmd in
  let cmd := if given y then cmd ++ "Y" else cmd in
  let cmd := if given z then cmd ++ "Z" else cmd in
  let cmd := cmd ++ " S" ++ str_int slot in
  on_ser (MarlinSerial.cmd cmd) ;;
  _ <- wait_cmd_completed fuel default_max_tries ;;
  ret tt.

(** What an operation can do to the port of a simulated link: nothing.  The
    view is the port state when the link is simulated and a constant when it
    is not. *)
Definition port_if_simulated (s : t)
  : bool * option (nat * list string * nat * bool) :=
  (MarlinSerial.sim (ser s),
   if MarlinSerial.sim (ser s)
   then Some (MarlinSerial.reads (ser s), MarlinSerial.sent (ser s),
              MarlinSerial.clears (ser s), MarlinSerial.closed (ser s))
   else None).

(** The lines written to the port. *)
Definition written (s : t) : list string := MarlinSerial.sent (ser s).

(** The board is silent from read number [n] on. *)
Definition quiet_from (n : nat) (s : t) : Prop :=
  MarlinSerial.sim (ser s) = false /\
  forall i, (n <= i)%nat -> MarlinSerial.rx (ser s) i = EmptyString.





(** The board stays silent from the next read on: no busy marker, no
    acknowledgement. *)
Definition silent_from (s : t) : Prop :=
  MarlinSerial.sim (ser s) = false /\
  forall i, (MarlinSerial.reads (ser s) <= i)%nat ->
            MarlinSerial.rx (ser s) i <> BUSY_MSG /\
            MarlinSerial.rx (ser s) i <> OK_MSG.

End Marlin.

(** ** attack.py: the capability contract of an attack

    The members of the base class, together with [repetitions] and [shutdown],
    which the worker reads from every implementation.  [A] is the state of the
    attack object; its methods are taken to return. *)

Module Attack.

Class Impl (A : Type) : Type := {
  start_pos : A -> Utils.position;
  end_pos : A -> Utils.position;
  step_size : A -> Z;
  max_target_temp : A -> float;
  cooling : A -> float;
  repetitions : A -> Z;
  init : A -> A;
  shout : A -> A;
  was_successful : A -> bool * A;
  reset_target : A -> A;
  critical_check : A -> bool * A;
  shutdown : A -> A
}.

End Attack.

(** A value decoded from JSON. *)
#[warnings="-register-all"]
Inductive json : Type :=
| JNull
| JBool (b : bool)
| JNum (q : Q)
| JStr (s : string)
| JArr (l : list json)
| JObj (d : list (string * json)).

(** ** The builtin [float] on a decoded value

    [float_ v] is what [float(v)] gives for a value [v] of a decoded
    message: a float, or the exception it raises.  It is a parameter: the
    orchestration layer is embedded for every behaviour of the builtin. *)

Module Builtin.

Class Float : Type := {
  float_ : json -> outcome float
}.

End Builtin.

(** ** attack_importer.py: the registry of attack classes *)

Module AttackImporter.

(** A loaded class: its [name()] and what calling it with no argument gives. *)
Record attack_class (A : Type) : Type := mk_class {
  name : string;
  new : outcome A
}.
Arguments mk_class {A} name new.
Arguments name {A} _.
Arguments new {A} _.

Record t (A : Type) : Type := mk {
  attack_cls : list (attack_class A)
}.
Arguments mk {A} attack_cls.
Arguments attack_cls {A} _.

Definition get_attack_names {A} (imp : t A) : list string :=
  map name (attack_cls imp).

(** [a.name() == name] for a [name] taken from a decoded message. *)
Definition name_is {A} (wanted : json) (a : attack_class A) : bool :=
  match wanted with
  | JStr s => String.eqb (name a) s
  | _ => false
  end.

Definition get_attack_by_name {A} (imp : t A) (wanted : json)
  : option (attack_class A) :=
  find (name_is wanted) (attack_cls imp).

Fixpoint check_names_from {A} (names : list string) (l : list (attack_class A))
  : outcome unit :=
  match l with
  | [] => Ok tt
  | a :: l' =>
      if existsb (String.eqb (name a)) names then Raise Exception
      else check_names_from (names ++ [name a])%list l'
  end.

Definition check_names {A} (imp : t A) : outcome unit :=
  check_names_from [] (attack_cls imp).

End AttackImporter.

(** ** attack_logger.py *)

Module AttackLogger.

Record file : Type := mk_file {
  lines : list string;
  is_closed : bool
}.

Record t : Type := mk {
  attack_name : option json;
  current : option file;              (* [self.file] *)
  dir : option string
}.

Definition log (message : string) (l : t) : outcome unit * t :=
  match current l with
  | Some f =>
      if is_closed f then (Raise ValueError, l)
      else (Ok tt,
            mk (attack_name l)
               (Some (mk_file (lines f ++ [(message ++ PyStr.LF)%string])%list false))
               (dir l))
  | None => (Ok tt, l)
  end.

Definition set_name (name : json) (l : t) : t :=
  mk (Some name) (current l) (dir l).

Definition close_current (l : t) : t :=
  match current l with
  | Some f => mk (attack_name l) (Some (mk_file (lines f) true)) (dir l)
  | None => l
  end.

Definition create_file (l : t) : t :=
  let l := close_current l in
  match dir l with
  | Some _ => mk (attack_name l) (Some (mk_file [] false)) (dir l)
  | None => l
  end.

Definition close (l : t) : t := close_current l.

End AttackLogger.

(** ** attack_worker.py: the attack executor

    [run] executes on the worker and on the stage controller it shares with
    the orchestration layer.  Two things reach a run from outside: the
    temperature the thermal camera last measured and a [stop] issued by the
    orchestration thread.  They are given by an environment, indexed by the
    number of repetitions begun so far.  Every call the run makes to a
    collaborator is recorded, in order, in [trace]. *)

Module Worker.

Import PyStr.
Local Open Scope monad_scope.

Inductive event : Type :=
| ECreateFile                               (* a_log.create_file() *)
| EFileLog (message : string)               (* a_log.log(message) *)
| ECloseFile                                (* a_log.close() *)
| ESetFanSpeed (speed : Z)                  (* marlin.set_fan_speed(speed) *)
| EHome (x y z : bool)                      (* marlin.home(x, y, z) *)
| EMove (x y z : option float) (feed_rate : float)
                                            (* marlin.move(x, y, z, feed_rate) *)
| EInit                                     (* attack.init() *)
| EResetTarget                              (* attack.reset_target() *)
| EShout                                    (* attack.shout() *)
| EWasSuccessful (b : bool)                 (* attack.was_successful() gave b *)
| ECriticalCheck (b : bool)                 (* attack.critical_check() gave b *)
| EShutdown                                 (* attack.shutdown() *)
| EGetTemperature (temp : float)            (* thermal_cam.get_last_temperature() *)
| ESleep (seconds : Z)                      (* time.sleep(seconds) *)
| ECritical (message : string)              (* log.critical(message) *)
| ETooHot (temp : float).                   (* log.critical: Target temperature too high *)

Record env : Type := mk_env {
  thermal : nat -> float;             (* last temperature at a repetition *)
  stop_requested : nat -> bool        (* stop() has arrived by a repetition *)
}.

Record t (A : Type) : Type := mk {
  importer : AttackImporter.t A;
  attack : option A;
  running : bool;
  progress : float;
  position : Utils.position;
  a_log : AttackLogger.t;
  begun : nat;                        (* repetitions begun *)
  trace : list event
}.
Arguments mk {A}.
Arguments importer {A} _.
Arguments attack {A} _.
Arguments running {A} _.
Arguments progress {A} _.
Arguments position {A} _.
Arguments a_log {A} _.
Arguments begun {A} _.
Arguments trace {A} _.

(** The worker together with the stage controller it drives. *)
Record world (A : Type) : Type := mk_world {
  worker : t A;
  stage : Marlin.t
}.
Arguments mk_world {A}.
Arguments worker {A} _.
Arguments stage {A} _.

(** How a loop body ends: the loop goes on, or the function returns. *)
Inductive flow : Type := Next | Return.

Section WithAttack.

Context {A : Type} `{Attack.Impl A}.

Definition new (imp : AttackImporter.t A) (log_dir : option string) : t A :=
  mk imp None false (Float.of_Z 0) (0, 0, 0) (AttackLogger.mk None None log_dir) 0 [].

Definition set_attack (a : option A) (s : t A) : t A :=
  mk (importer s) a (running s) (progress s) (position s) (a_log s) (begun s) (trace s).
Definition set_running (b : bool) (s : t A) : t A :=
  mk (importer s) (attack s) b (progress s) (position s) (a_log s) (begun s) (trace s).
Definition set_progress (q : float) (s : t A) : t A :=
  mk (importer s) (attack s) (running s) q (position s) (a_log s) (begun s) (trace s).
Definition set_position (p : Utils.position) (s : t A) : t A :=
  mk (importer s) (attack s) (running s) (progress s) p (a_log s) (begun s) (trace s).
Definition set_a_log (l : AttackLogger.t) (s : t A) : t A :=
  mk (importer s) (attack s) (running s) (progress s) (position s) l (begun s) (trace s).
Definition set_begun (n : nat) (s : t A) : t A :=
  mk (importer s) (attack s) (running s) (progress s) (position s) (a_log s) n (trace s).
Definition add_event (e : event) (s : t A) : t A :=
  mk (importer s) (attack s) (running s) (progress s) (position s) (a_log s) (begun s)
     (trace s ++ [e])%list.

(** [cls()] where [cls] may be [None]: calling [None] raises [TypeError]. *)
Definition call_class (cls : option (AttackImporter.attack_class A)) : outcome A :=
  match cls with
  | Some c => AttackImporter.new c
  | None => Raise TypeError
  end.

Definition load_attack (name : json) : M (t A) bool :=
  s <- get ;;
  let cls := AttackImporter.get_attack_by_name (importer s) name in
  modify (fun s => set_a_log (AttackLogger.set_name name (a_log s)) s) ;;
  try_except
    (a <- lift_pure (call_class cls) ;;
     modify (set_attack (Some a)) ;;
     ret true)
    TypeError
    (ret false).

Definition get_progress (s : t A) : float := progress s.
Definition get_position (s : t A) : Utils.position := position s.

Definition stop : M (t A) unit := modify (set_running false).

(** *** [run] and its helpers, on the worker and the stage *)

Definition on_worker {B} (m : M (t A) B) : M (world A) B :=
  fun s => let (r, w') := m (worker s) in (r, mk_world w' (stage s)).
Definition on_stage {B} (m : M Marlin.t B) : M (world A) B :=
  fun s => let (r, m') := m (stage s) in (r, mk_world (worker s) m').

Definition emit (e : event) : M (world A) unit := on_worker (modify (add_event e)).

(** [self.attack], an [AttributeError] on its members while it is [None]. *)
Definition the_attack : M (world A) A :=
  s <- get ;;
  match attack (worker s) with
  | Some a => ret a
  | None => raise AttributeError
  end.

Definition put_attack (a : A) : M (world A) unit :=
  on_worker (modify (set_attack (Some a))).

Definition file_log (message : string) : M (world A) unit :=
  emit (EFileLog message) ;;
  on_worker (fun s => let (r, l) := AttackLogger.log message (a_log s) in
                      (r, set_a_log l s)).

Definition to_float (p : Utils.position) : float * float * float :=
  let '(x, y, z) := p in (Float.of_Z x, Float.of_Z y, Float.of_Z z).

Definition stage_move (fuel : nat) (x y z : option float) (feed_rate : float)
  : M (world A) unit :=
  emit (EMove x y z feed_rate) ;;
  on_stage (Marlin.move fuel x y z feed_rate).

Definition stage_home (fuel : nat) (x y z : bool) : M (world A) unit :=
  emit (EHome x y z) ;;
  on_stage (Marlin.home fuel x y z).

Definition move_to_start (fuel : nat) : M (world A) unit :=
  stage_home fuel false false true ;;
  stage_home fuel true true false ;;
  a <- the_attack ;;
  stage_move fuel (Some (Float.of_Z (fst (fst (Attack.start_pos a))))) None None
    (Float.of_Z 5) ;;
  a <- the_attack ;;
  stage_move fuel None (Some (Float.of_Z (snd (fst (Attack.start_pos a))))) None
    (Float.of_Z 5) ;;
  a <- the_attack ;;
  stage_move fuel None None (Some (Float.of_Z (snd (Attack.start_pos a))))
    (Float.of_Z 5).

Definition check_temp (e : env) : M (world A) bool :=
  s <- get ;;
  let temp := thermal e (begun (worker s)) in
  emit (EGetTemperature temp) ;;
  a <- the_attack ;;
  if Float.gtb temp (Attack.max_target_temp a)
  then emit (ETooHot temp) ;; ret false
  else ret true.

(** Reading [self.running]: a pending [stop] has cleared it. *)
Definition is_running (e : env) : M (world A) bool :=
  on_worker
    (s <- get ;;
     (if stop_requested e (begun s) then modify (set_running false) else ret tt) ;;
     modify (fun s => set_begun (S (begun s)) s) ;;
     ret (running s && negb (stop_requested e (begun s)))%bool).

(** [for j in range(n)], from [j] on, at position number [i] of [len]. *)
Fixpoint repetitions_loop (fuel : nat) (e : env) (n : nat) (i j len : Z)
  (pos : Utils.position) : M (world A) flow :=
  match n with
  | O => ret Next
  | S n' =>
      a <- the_attack ;;
      p <- lift_pure (true_div (i + j) (len * Attack.repetitions a)) ;;
      on_worker (modify (set_progress p)) ;;
      alive <- is_running e ;;
      if negb alive then ret Return else
      a <- the_attack ;;
      put_attack (Attack.reset_target a) ;; emit EResetTarget ;;
      a <- the_attack ;;
      put_attack (Attack.shout a) ;; emit EShout ;;
      a <- the_attack ;;
      let (hit, a') := Attack.was_successful a in
      put_attack a' ;; emit (EWasSuccessful hit) ;;
      (if hit
       then emit (ECritical ("Successful at " ++ Utils.str (Utils.tuple_of pos))) ;;
            file_log ("Successful at " ++ Utils.str (Utils.tuple_of pos))
       else file_log ("Unsuccessful at " ++ Utils.str (Utils.tuple_of pos))) ;;
      a <- the_attack ;;
      let (sound, a') := Attack.critical_check a in
      put_attack a' ;; emit (ECriticalCheck sound) ;;
      if negb sound
      then emit (ECritical "Critical attack check failed.") ;; ret Return
      else
        cool <- check_temp e ;;
        (if negb cool then emit (ESleep 20) else ret tt) ;;
        repetitions_loop fuel e n' i (j + 1) len pos
  end.

(** [for i, pos in enumerate(positions)], from index [i] on. *)
Fixpoint positions_loop (fuel : nat) (e : env) (rest : list Utils.position)
  (i len : Z) : M (world A) flow :=
  match rest with
  | [] => ret Next
  | pos :: rest' =>
      let '(x, y, z) := to_float pos in
      stage_move fuel (Some x) (Some y) (Some z) (Float.of_Z 100) ;;
      on_worker (modify (set_position pos)) ;;
      a <- the_attack ;;
      r <- repetitions_loop fuel e (Z.to_nat (Attack.repetitions a)) i 0 len pos ;;
      match r with
      | Return => ret Return
      | Next => positions_loop fuel e rest' (i + 1) len
      end
  end.

Definition run (fuel : nat) (e : env) : M (world A) unit :=
  on_worker (modify (set_progress (Float.of_Z 0))) ;;
  on_worker (modify (set_running true)) ;;
  emit ECreateFile ;;
  on_worker (modify (fun s => set_a_log (AttackLogger.create_file (a_log s)) s)) ;;
  file_log "Starting attack..." ;;
  a <- the_attack ;;
  speed <- lift_pure
             (v <~ Float.int_ (Float.mul (Attack.cooling a) (Float.of_Z 255)) ;;
              Ok (Z.min v 255)) ;;
  emit (ESetFanSpeed speed) ;;
  on_stage (Marlin.set_fan_speed fuel speed 2) ;;
  a <- the_attack ;;
  positions <- lift_pure (Utils.compute_positions fuel (Attack.start_pos a)
                            (Attack.end_pos a) (Attack.step_size a)) ;;
  a <- the_attack ;;
  put_attack (Attack.init a) ;; emit EInit ;;
  move_to_start fuel ;;
  r <- positions_loop fuel e positions 0 (Z.of_nat (List.length positions)) ;;
  match r with
  | Return => ret tt
  | Next =>
      a <- the_attack ;;
      put_attack (Attack.shutdown a) ;; emit EShutdown ;;
      file_log "Stopping attack..." ;;
      emit ECloseFile ;;
      on_worker (modify (fun s => set_a_log (AttackLogger.close (a_log s)) s))
  end.

(** *** Predicates on the calls a computation adds to the trace *)

(** An event other than a failed critical check, the shutdown hook and the
    closing of the log. *)
Definition quiet_event (ev : event) : Prop :=
  ev <> ECriticalCheck false /\ ev <> EShutdown /\ ev <> ECloseFile.

Definition quiet (l : list event) : Prop := Forall quiet_event l.

(** How the abort path ends: the failed check and its log line. *)
Definition abort_tail : list event :=
  [ECriticalCheck false; ECritical "Critical attack check failed."].

Definition aborted (l : list event) : Prop :=
  exists l', quiet l' /\ l = (l' ++ abort_tail)%list.

(** [m] appends to the trace a list of events that, with the outcome of [m],
    satisfies [P]. *)
Definition emits {B} (m : M (world A) B) (P : outcome B -> list event -> Prop)
  : Prop :=
  forall s, exists l,
    trace (worker (snd (m s))) = (trace (worker s) ++ l)%list
    /\ P (fst (m s)) l.

Definition step_post {B} : outcome B -> list event -> Prop :=
  fun _ l => quiet l.

Definition loop_post : outcome flow -> list event -> Prop :=
  fun r l => match r with
             | Ok Return => quiet l \/ aborted l
             | _ => quiet l
             end.

(** No failed critical check among the events. *)
Definition unchecked_post {B} : outcome B -> list event -> Prop :=
  fun _ l => ~ In (ECriticalCheck false) l.

Definition run_post : outcome unit -> list event -> Prop :=
  fun r l => ~ In (ECriticalCheck false) l \/ (aborted l /\ r = Ok tt).

(** [P] tolerates quiet events in front and holds of a failure after quiet
    events. *)
Definition absorbs {B} (P : outcome B -> list event -> Prop) : Prop :=
  (forall r l1 l2, quiet l1 -> P r l2 -> P r (l1 ++ l2)%list)
  /\ (forall ex l, quiet l -> P (Raise ex) l)
  /\ (forall l, quiet l -> P OutOfFuel l).

End WithAttack.

End Worker.

(** ** websocket_state.py *)

Module State.

Inductive mode_t : Type := MANUAL_MODE | JOYSTICK_MODE | ATTACK_MODE.

Record t : Type := mk {
  mode : mode_t;
  position : float * float * float;
  temperature : float;
  progress : float;
  attacks : list string;
  safe_z : json
}.

Definition new (attacks : list string) : t :=
  mk MANUAL_MODE (Float.of_Z 0, Float.of_Z 0, Float.of_Z 0) (Float.of_Z 0)
     (Float.of_Z 0) attacks (JNum 100).

Definition joystick_enabled (s : t) : bool :=
  match mode s with JOYSTICK_MODE => true | _ => false end.

Definition attack_enabled (s : t) : bool :=
  match mode s with ATTACK_MODE => true | _ => false end.

Definition set_mode (m : mode_t) (s : t) : t :=
  mk m (position s) (temperature s) (progress s) (attacks s) (safe_z s).
Definition set_position (p : float * float * float) (s : t) : t :=
  mk (mode s) p (temperature s) (progress s) (attacks s) (safe_z s).
Definition set_temperature (q : float) (s : t) : t :=
  mk (mode s) (position s) q (progress s) (attacks s) (safe_z s).
Definition set_progress (q : float) (s : t) : t :=
  mk (mode s) (position s) (temperature s) q (attacks s) (safe_z s).
Definition set_safe_z (z : json) (s : t) : t :=
  mk (mode s) (position s) (temperature s) (progress s) (attacks s) z.

End State.

(** ** threading.Thread, as the orchestration layer uses it *)

Module Thread.

(** What a background task runs. *)
Inductive target : Type :=
| RelativeMove (x y z feed_rate : float) (* marlin.relative_move *)
| Home (x y z : bool)                   (* marlin.home *)
| Move (x y z feed_rate : float)        (* marlin.move *)
| JoystickLoop                          (* joystick.loop *)
| AttackRun.                            (* attack_runner.run *)

Inductive t : Type :=
| Unstarted                             (* threading.Thread(), never started *)
| Alive (tg : target)
| Finished (tg : target).

Definition is_alive (th : t) : bool :=
  match th with Alive _ => true | _ => false end.

(** [join()] raises on a thread that was never started and waits, with no
    timeout, for a live thread to end.  [ends tg] says whether the live task
    [tg] comes to an end; where it does not, [join] does not return. *)
Definition join (ends : target -> bool) (th : t) : outcome t :=
  match th with
  | Unstarted => Raise RuntimeError
  | Alive tg => if ends tg then Ok (Finished tg) else OutOfFuel
  | Finished tg => Ok (Finished tg)
  end.

End Thread.

(** ** joystick.py, as far as the orchestration layer touches it *)

Module Joystick.

Record t : Type := mk {
  feed_rate : float;
  step_dist : float;
  running : bool
}.

(** The attribute [loop] of a joystick object.  The class defines [__loop],
    [start], [stop] and [close]; inside the class [__loop] is stored under the
    mangled name [_Joystick__loop], so looking up [loop] from outside raises
    [AttributeError]. *)
Definition loop (j : t) : outcome Thread.target := Raise AttributeError.

End Joystick.

(** ** websocket_helper.py: the orchestration layer

    A background task is started, not executed: it runs concurrently on the
    shared stage controller.  [started] lists every task handed to a thread. *)

Module Helper.

Local Open Scope monad_scope.

Record t (A : Type) : Type := mk {
  importer : AttackImporter.t A;
  marlin : Marlin.t;
  last_temperature : float;           (* thermal_camera.get_last_temperature() *)
  attack_runner : Worker.t A;
  joystick : option Joystick.t;
  joystick_plugged : bool;            (* Joystick(..) finds its device *)
  task_ends : Thread.target -> bool;  (* a started task comes to an end *)
  task : Thread.t;
  started : list Thread.target;
  state : State.t;
  log : list string                   (* log.critical *)
}.
Arguments mk {A}.
Arguments importer {A} _.
Arguments marlin {A} _.
Arguments last_temperature {A} _.
Arguments attack_runner {A} _.
Arguments joystick {A} _.
Arguments joystick_plugged {A} _.
Arguments task_ends {A} _.
Arguments task {A} _.
Arguments started {A} _.
Arguments state {A} _.
Arguments log {A} _.

Section WithAttack.

Context {A : Type} `{Attack.Impl A} `{Builtin.Float}.

Definition new (imp : AttackImporter.t A) (simulate : bool) (lines : nat -> string)
  (log_dir : option string) (plugged : bool) (ends : Thread.target -> bool)
  : t A :=
  mk imp (Marlin.init simulate lines) (Float.of_Z 0) (Worker.new imp log_dir) None
     plugged ends Thread.Unstarted []
     (State.new (AttackImporter.get_attack_names imp)) [].

Definition set_marlin (m : Marlin.t) (h : t A) : t A :=
  mk (importer h) m (last_temperature h) (attack_runner h) (joystick h)
     (joystick_plugged h) (task_ends h) (task h) (started h) (state h) (log h).
Definition set_attack_runner (w : Worker.t A) (h : t A) : t A :=
  mk (importer h) (marlin h) (last_temperature h) w (joystick h)
     (joystick_plugged h) (task_ends h) (task h) (started h) (state h) (log h).
Definition set_joystick (j : option Joystick.t) (h : t A) : t A :=
  mk (importer h) (marlin h) (last_temperature h) (attack_runner h) j
     (joystick_plugged h) (task_ends h) (task h) (started h) (state h) (log h).
Definition set_task (th : Thread.t) (h : t A) : t A :=
  mk (importer h) (marlin h) (last_temperature h) (attack_runner h) (joystick h)
     (joystick_plugged h) (task_ends h) th (started h) (state h) (log h).
Definition set_state (s : State.t) (h : t A) : t A :=
  mk (importer h) (marlin h) (last_temperature h) (attack_runner h) (joystick h)
     (joystick_plugged h) (task_ends h) (task h) (started h) s (log h).
Definition critical (message : string) (h : t A) : t A :=
  mk (importer h) (marlin h) (last_temperature h) (attack_runner h) (joystick h)
     (joystick_plugged h) (task_ends h) (task h) (started h) (state h) (log h ++ [message])%list.

Definition on_marlin {B} (m : M Marlin.t B) : M (t A) B :=
  fun h => let (r, m') := m (marlin h) in (r, set_marlin m' h).
Definition on_runner {B} (m : M (Worker.t A) B) : M (t A) B :=
  fun h => let (r, w') := m (attack_runner h) in (r, set_attack_runner w' h).
Definition set_mode (m : State.mode_t) : M (t A) unit :=
  modify (fun h => set_state (State.set_mode m (state h)) h).

(** [self.task = threading.Thread(target=..); self.task.start()] *)
Definition start_task (tg : Thread.target) : M (t A) unit :=
  modify (fun h =>
    mk (importer h) (marlin h) (last_temperature h) (attack_runner h) (joystick h)
       (joystick_plugged h) (task_ends h) (Thread.Alive tg) (started h ++ [tg])%list
       (state h) (log h)).

(** [self.task.join()] *)
Definition join_task : M (t A) unit :=
  h <- get ;;
  th <- lift_pure (Thread.join (task_ends h) (task h)) ;;
  modify (set_task th).

Definition step (speed x y z : float) : M (t A) bool :=
  h <- get ;;
  if negb (State.attack_enabled (state h) && State.joystick_enabled (state h))
  then start_task (Thread.RelativeMove x y z speed) ;; ret true
  else ret false.

Definition home (x y z : bool) : M (t A) bool :=
  h <- get ;;
  if negb (State.attack_enabled (state h) && State.joystick_enabled (state h))
  then start_task (Thread.Home x y z) ;; ret true
  else ret false.

Definition move (speed x y z : float) : M (t A) bool :=
  h <- get ;;
  if negb (State.attack_enabled (state h) && State.joystick_enabled (state h))
  then start_task (Thread.Move x y z speed) ;; ret true
  else ret false.

Definition is_running (h : t A) : bool := Thread.is_alive (task h).

Definition enable_joystick (speed step : float) : M (t A) bool :=
  h <- get ;;
  if (State.attack_enabled (state h) || State.joystick_enabled (state h))%bool
  then ret false
  else
    present <-
      match joystick h with
      | None =>
          if joystick_plugged h
          then modify (set_joystick (Some (Joystick.mk speed step false))) ;; ret true
          else modify (critical "Joystick is unavailable.") ;; ret false
      | Some _ => ret true
      end ;;
    if negb present then ret false
    else
      modify (fun h =>
        match joystick h with
        | Some j => set_joystick
                      (Some (Joystick.mk (Joystick.feed_rate j) (Joystick.step_dist j) true)) h
        | None => h
        end) ;;
      h <- get ;;
      tg <- lift_pure match joystick h with
                      | Some j => Joystick.loop j
                      | None => Raise AttributeError
                      end ;;
      start_task tg ;;
      set_mode State.JOYSTICK_MODE ;;
      ret true.

Definition disable_joystick : M (t A) bool :=
  h <- get ;;
  match joystick h with
  | Some j =>
      modify (set_joystick
                (Some (Joystick.mk (Joystick.feed_rate j) (Joystick.step_dist j) false))) ;;
      join_task
  | None => ret tt
  end ;;
  set_mode State.MANUAL_MODE ;;
  ret true.

Definition update (fuel : nat) : M (t A) unit :=
  modify (fun h => set_state (State.set_temperature (last_temperature h) (state h)) h) ;;
  h <- get ;;
  if State.attack_enabled (state h) then
    modify (fun h =>
      set_state (State.set_progress (Worker.get_progress (attack_runner h)) (state h)) h) ;;
    modify (fun h =>
      set_state (State.set_position
                   (Worker.to_float (Worker.get_position (attack_runner h))) (state h)) h) ;;
    h <- get ;;
    if negb (is_running h) then set_mode State.MANUAL_MODE else ret tt
  else if negb (is_running h) then
    pos <- on_marlin (Marlin.get_position fuel) ;;
    modify (fun h => set_state (State.set_position pos (state h)) h)
  else ret tt.

(** [get_state_json], with the state record in place of its JSON text. *)
Definition get_state_json (fuel : nat) : M (t A) State.t :=
  update fuel ;;
  h <- get ;;
  ret (state h).

Definition start_attack (name : json) : M (t A) bool :=
  h <- get ;;
  if (State.attack_enabled (state h) || State.joystick_enabled (state h))%bool
  then ret false
  else
    loaded <- on_runner (Worker.load_attack name) ;;
    if negb loaded then ret false
    else
      start_task Thread.AttackRun ;;
      set_mode State.ATTACK_MODE ;;
      ret true.

Definition stop_attack : M (t A) bool :=
  h <- get ;;
  if State.attack_enabled (state h) then
    on_runner Worker.stop ;;
    join_task ;;
    set_mode State.MANUAL_MODE ;;
    ret true
  else ret false.

Definition set_safe_z (z : json) : M (t A) bool :=
  height <- lift_pure (Builtin.float_ z) ;;
  on_marlin (Marlin.set_safe_height height) ;;
  modify (fun h => set_state (State.set_safe_z z (state h)) h) ;;
  ret true.

(** What a [safeZ] request sets: the controller's safe height and the
    snapshot's [safe_z]. *)
Definition safe_pair (h : t A) : float * json :=
  (Marlin.safe_height (marlin h), State.safe_z (state h)).

Definition shutdown : M (t A) unit :=
  h <- get ;;
  if is_running h then
    match State.mode (state h) with
    | State.JOYSTICK_MODE => _ <- disable_joystick ;; ret tt
    | State.ATTACK_MODE => _ <- stop_attack ;; ret tt
    | State.MANUAL_MODE => join_task
    end
  else ret tt.

End WithAttack.

End Helper.

(** ** websocket_server.py: the command handler *)

Module Server.

Local Open Scope monad_scope.

(** What the server sends: an error to the client that issued the command, or
    the state to every client. *)
Inductive packet : Type :=
| ErrorTo (message : string)
| StateBroadcast (s : State.t).

Record t (A : Type) : Type := mk {
  helper : Helper.t A;
  outbox : list packet
}.
Arguments mk {A}.
Arguments helper {A} _.
Arguments outbox {A} _.

(** [msg[key]] *)
Fixpoint item (key : string) (msg : list (string * json)) : outcome json :=
  match msg with
  | [] => Raise KeyError
  | (k, v) :: msg' => if String.eqb k key then Ok v else item key msg'
  end.

(** [v == s] for a string literal [s]. *)
Definition is_str (v : json) (s : string) : bool :=
  match v with
  | JStr s' => String.eqb s' s
  | _ => false
  end.

(** [bool(v)] *)
Definition bool_ (v : json) : bool :=
  match v with
  | JNull => false
  | JBool b => b
  | JNum q => negb (Qnum q =? 0)
  | JStr s => negb (String.eqb s EmptyString)
  | JArr l => match l with [] => false | _ => true end
  | JObj d => match d with [] => false | _ => true end
  end.

Section WithAttack.

Context {A : Type} `{Attack.Impl A} `{Builtin.Float}.

Definition on_helper {B} (m : M (Helper.t A) B) : M (t A) B :=
  fun s => let (r, h') := m (helper s) in (r, mk h' (outbox s)).

Definition send (p : packet) : M (t A) unit :=
  modify (fun s => mk (helper s) (outbox s ++ [p])%list).

Definition send_state_update (fuel : nat) : M (t A) unit :=
  st <- on_helper (Helper.get_state_json fuel) ;;
  send (StateBroadcast st).

Definition send_error (message : string) : M (t A) unit :=
  send (ErrorTo message).

Definition float_item (key : string) (msg : list (string * json))
  : M (t A) float :=
  lift_pure (v <~ item key msg ;; Builtin.float_ v).

Definition bool_item (key : string) (msg : list (string * json)) : M (t A) bool :=
  lift_pure (v <~ item key msg ;; Ok (bool_ v)).

(** The [if cmd == ..: .. elif ..] chain; [success] stays [False] for an
    unknown command. *)
Definition run_command (cmd : json) (msg : list (string * json)) : M (t A) bool :=
  if is_str cmd "enableJoystick" then
    speed <- float_item "speed" msg ;;
    step <- float_item "step" msg ;;
    on_helper (Helper.enable_joystick speed step)
  else if is_str cmd "disableJoystick" then
    on_helper Helper.disable_joystick
  else if is_str cmd "step" then
    speed <- float_item "speed" msg ;;
    x <- float_item "x" msg ;;
    y <- float_item "y" msg ;;
    z <- float_item "z" msg ;;
    on_helper (Helper.step speed x y z)
  else if is_str cmd "home" then
    x <- bool_item "x" msg ;;
    y <- bool_item "y" msg ;;
    z <- bool_item "z" msg ;;
    on_helper (Helper.home x y z)
  else if is_str cmd "move" then
    speed <- float_item "speed" msg ;;
    x <- float_item "x" msg ;;
    y <- float_item "y" msg ;;
    z <- float_item "z" msg ;;
    on_helper (Helper.move speed x y z)
  else if is_str cmd "startAttack" then
    name <- lift_pure (item "name" msg) ;;
    on_helper (Helper.start_attack name)
  else if is_str cmd "stopAttack" then
    on_helper Helper.stop_attack
  else if is_str cmd "safeZ" then
    z <- lift_pure (item "z" msg) ;;
    on_helper (Helper.set_safe_z z)
  else ret false.

Definition message_handler (fuel : nat) (msg : list (string * json)) : M (t A) unit :=
  ty <- lift_pure (item "type" msg) ;;
  if is_str ty "command" then
    cmd <- lift_pure (item "cmd" msg) ;;
    s <- get ;;
    if (Helper.is_running (helper s)
        && negb (is_str cmd "disableJoystick")
        && negb (is_str cmd "stopAttack"))%bool
    then send_error "Please wait until the previous action terminates."
    else
      try_except
        (success <- run_command cmd msg ;;
         if negb success
         then send_error "An error occurred. Please check the logs."
         else ret tt)
        ValueError
        (send_error "Please provide valid values.") ;;
      send_state_update fuel
  else ret tt.

End WithAttack.

End Server.

(** ** Sample inputs used by the closed examples *)

Module Demo.

(** An attack object that counts its shots; its critical check holds for the
    first [sound_shots] shots only. *)
Record attack : Type := mk {
  shots : nat;
  sound_shots : nat
}.

#[global] Instance impl : Attack.Impl attack := {|
  Attack.start_pos := fun _ => (0, 0, 0);
  Attack.end_pos := fun _ => (1, 0, 0);
  Attack.step_size := fun _ => 1;
  Attack.max_target_temp := fun _ => Float.of_Z 40;
  Attack.cooling := fun _ => Float.of_Z 0;
  Attack.repetitions := fun _ => 2;
  Attack.init := fun a => a;
  Attack.shout := fun a => mk (S (shots a)) (sound_shots a);
  Attack.was_successful := fun a => (false, a);
  Attack.reset_target := fun a => a;
  Attack.critical_check := fun a => (Nat.leb (shots a) (sound_shots a), a);
  Attack.shutdown := fun a => a
|}.

(** [float()] on the values of the examples: a number within the range of
    floats, a boolean, a string of ASCII characters; on anything else it
    raises [TypeError]. *)
Definition builtin : Builtin.Float := {|
  Builtin.float_ := fun v =>
    match v with
    | JNum q => Ok (Float.of_Q q)
    | JBool b => Ok (Float.of_Z (if b then 1 else 0))
    | JStr s => PyStr.float_ s
    | JNull | JArr _ | JObj _ => Raise TypeError
    end
|}.

(** A registry with one class, [Demo], whose constructor takes no argument. *)
Definition registry : AttackImporter.t attack :=
  AttackImporter.mk [AttackImporter.mk_class "Demo" (Ok (mk 0 1))].

(** A board that acknowledges every read at once. *)
Definition prompt : nat -> string := fun _ => Marlin.OK_MSG.

(** A board that never answers. *)
Definition silent : nat -> string := MarlinSerial.board [].

(** A board at height 95 that reports its position and then acknowledges. *)
Definition at_95 : nat -> string :=
  fun i => match i with
           | O => ("X:0.00 Y:0.00 Z:95.00 E:0.00 Count X:0 Y:0 Z:7600" ++ PyStr.LF)%string
           | _ => Marlin.OK_MSG
           end.

(** A board that is still busy when the position is asked for. *)
Definition still_busy : nat -> string :=
  MarlinSerial.board [Marlin.BUSY_MSG; Marlin.OK_MSG].

(** A station whose tasks all come to an end. *)
Definition station : Helper.t attack :=
  Helper.new registry false prompt (Some "logs") true (fun _ => true).

(** The station once an attack task was started. *)
Definition attacking : Helper.t attack :=
  snd (Helper.start_attack (JStr "Demo") station).

(** A station whose tasks never come to an end, once an attack task was
    started. *)
Definition stuck : Helper.t attack :=
  snd (Helper.start_attack (JStr "Demo")
         (Helper.new registry false prompt (Some "logs") true (fun _ => false))).

(** The worker and the stage as the attack task finds them. *)
Definition world : Worker.world attack :=
  Worker.mk_world (Helper.attack_runner attacking) (Helper.marlin attacking).

(** A cool target and no stop request. *)
Definition calm : Worker.env :=
  Worker.mk_env (fun _ => Float.of_Z 30) (fun _ => false).

(** What the run of [world] does before the second critical check fails. *)
Definition before_failed_check : list Worker.event :=
  [ Worker.ECreateFile; Worker.EFileLog "Starting attack...";
    Worker.ESetFanSpeed 0; Worker.EInit;
    Worker.EHome false false true; Worker.EHome true true false;
    Worker.EMove (Some (Float.of_Z 0)) None None (Float.of_Z 5);
    Worker.EMove None (Some (Float.of_Z 0)) None (Float.of_Z 5);
    Worker.EMove None None (Some (Float.of_Z 0)) (Float.of_Z 5);
    Worker.EMove (Some (Float.of_Z 0)) (Some (Float.of_Z 0)) (Some (Float.of_Z 0))
      (Float.of_Z 100);
    Worker.EResetTarget; Worker.EShout; Worker.EWasSuccessful false;
    Worker.EFileLog "Unsuccessful at (0, 0, 0)";
    Worker.ECriticalCheck true; Worker.EGetTemperature (Float.of_Z 30);
    Worker.EResetTarget; Worker.EShout; Worker.EWasSuccessful false;
    Worker.EFileLog "Unsuccessful at (0, 0, 0)" ].

(** The sweep of the specification's worked example. *)
Definition serpentine_3x3 : list Utils.position :=
  [(0, 0, 0); (0, 1, 0); (0, 2, 0);
   (1, 2, 0); (1, 1, 0); (1, 0, 0);
   (2, 0, 0); (2, 1, 0); (2, 2, 0)].

Definition command (cmd : string) (fields : list (string * json))
  : list (string * json) :=
  ("type", JStr "command") :: ("cmd", JStr cmd) :: fields.

End Demo.

(** ** Notions used to state properties of the planner *)

(** Two lists with the same elements and the same length. *)
Definition alike (a b : list Z) : Prop :=
  List.length a = List.length b /\ forall v, In v a <-> In v b.

(** ** marlin.py: the jog thread, [ContinuousMove] *)

Module ContinuousMove.

Local Open Scope monad_scope.

(** The thread made in [__init__]. *)
Inductive thread_t : Type := Unstarted | Alive | Finished.

Record t : Type := mk {
  active : float * float * float;
  feed_rate : Z;
  running : bool;
  thread : thread_t
}.

Definition new (feed_rate : Z) : t :=
  mk (Float.zero, Float.zero, Float.zero) feed_rate false Unstarted.

(** [set(self.active) == {0, 0, 0}]: every entry equals zero. *)
Definition all_zero (a : float * float * float) : bool :=
  let '(x, y, z) := a in
  (Float.eqb x Float.zero && Float.eqb y Float.zero && Float.eqb z Float.zero)%bool.

(** [thread.join()]: raises on a thread that was never started and waits,
    with no timeout, for a live thread to end.  [ends] says whether the live
    jog thread comes to an end once [running] is false; where it does not
    (its wait on the board goes on for ever), [join] does not return. *)
Definition join (ends : bool) (th : thread_t) : outcome thread_t :=
  match th with
  | Unstarted => Raise RuntimeError
  | Alive => if ends then Ok Finished else OutOfFuel
  | Finished => Ok Finished
  end.

Definition stop (ends : bool) : M t unit :=
  modify (fun c => mk (active c) (feed_rate c) false (thread c)) ;;
  c <- get ;;
  th <- lift_pure (join ends (thread c)) ;;
  modify (fun c => mk (active c) (feed_rate c) (running c) th).

Definition set_axis (old : float) (v : option float) : float :=
  match v with Some q => q | None => old end.

Definition update (ends : bool) (x y z : option float) : M t bool :=
  modify (fun c =>
    let '(ax, ay, az) := active c in
    mk (set_axis ax x, set_axis ay y, set_axis az z)
       (feed_rate c) (running c) (thread c)) ;;
  c <- get ;;
  if all_zero (active c) then stop ends ;; ret false else ret true.

(** [thread.start()] raises on a thread that was started before. *)
Definition start : M t unit :=
  modify (fun c => mk (active c) (feed_rate c) true (thread c)) ;;
  c <- get ;;
  match thread c with
  | Unstarted => modify (fun c => mk (active c) (feed_rate c) (running c) Alive)
  | _ => raise RuntimeError
  end.

(** [__run], for the values of [active] the loop found on its passes. *)
Fixpoint passes_loop (fuel : nat) (feed : Z)
  (passes : list (float * float * float))
  : M Marlin.t unit :=
  match passes with
  | [] => ret tt
  | (x, y, z) :: rest =>
      Marlin.continuous_move fuel x y z feed 1 ;;
      passes_loop fuel feed rest
  end.

Definition run (fuel : nat) (feed : Z) (passes : list (float * float * float))
  : M Marlin.t unit :=
  Marlin.relative_mode fuel true ;;
  passes_loop fuel feed passes ;;
  Marlin.relative_mode fuel false.

End ContinuousMove.

(** ** marlin.py: [continuous_update], on the controller's jog slot *)

Module Jog.

Local Open Scope monad_scope.

Record t : Type := mk {
  marlin : Marlin.t;
  thread_ends : bool;                 (* a stopped jog thread comes to an end *)
  continuous_movement : option ContinuousMove.t
}.

Definition on_movement {B} (m : M ContinuousMove.t B) : M t B :=
  fun s =>
    match continuous_movement s with
    | Some c => let (r, c') := m c in (r, mk (marlin s) (thread_ends s) (Some c'))
    | None => (Raise AttributeError, s)
    end.

Definition continuous_update (x y z : option float) : M t unit :=
  s <- get ;;
  match continuous_movement s with
  | None =>
      modify (fun s => mk (marlin s) (thread_ends s) (Some (ContinuousMove.new 1))) ;;
      _ <- on_movement (ContinuousMove.update (thread_ends s) x y z) ;;
      on_movement ContinuousMove.start
  | Some _ =>
      moving <- on_movement (ContinuousMove.update (thread_ends s) x y z) ;;
      if negb moving then modify (fun s => mk (marlin s) (thread_ends s) None)
      else ret tt
  end.

(** A jog slot in working order: empty, or a started movement with an axis
    in motion. *)
Definition in_order (s : t) : Prop :=
  match continuous_movement s with
  | None => True
  | Some c =>
      ContinuousMove.running c = true
      /\ ContinuousMove.thread c = ContinuousMove.Alive
      /\ ContinuousMove.all_zero (ContinuousMove.active c) = false
  end.

End Jog.

(** ** joystick.py: the axes of the stick

    [__eval_axles] debounces the three axes of the stick and starts or halts
    the continuous movement of the stage through [continuous_update]. *)

Module Stick.

Local Open Scope monad_scope.

(** An index into [AXLES] and [last_event]. *)
Inductive axis : Type :=
| AxisX                               (* 0 *)
| AxisY                               (* 1 *)
| AxisZ.                              (* 2 *)

Record t : Type := mk {
  last_event : Z * Z * Z;
  stepping : bool;
  jog : Jog.t                         (* [self.marlin] *)
}.

Definition item (l : Z * Z * Z) (a : axis) : Z :=
  let '(x, y, z) := l in
  match a with AxisX => x | AxisY => y | AxisZ => z end.

Definition set_item (l : Z * Z * Z) (a : axis) (v : Z) : Z * Z * Z :=
  let '(x, y, z) := l in
  match a with AxisX => (v, y, z) | AxisY => (x, v, z) | AxisZ => (x, y, v) end.

Definition set_last_event (a : axis) (v : Z) : M t unit :=
  modify (fun s => mk (set_item (last_event s) a v) (stepping s) (jog s)).

Definition set_stepping (b : bool) : M t unit :=
  modify (fun s => mk (last_event s) b (jog s)).

Definition on_jog {B} (m : M Jog.t B) : M t B :=
  fun s => let (r, j) := m (jog s) in (r, mk (last_event s) (stepping s) j).

(** [d = [None, None, None]; d[axis] = v; continuous_update( *d )] *)
Definition continuous_update_axis (a : axis) (v : Z) : M t unit :=
  match a with
  | AxisX => on_jog (Jog.continuous_update (Some (Float.of_Z v)) None None)
  | AxisY => on_jog (Jog.continuous_update None (Some (Float.of_Z v)) None)
  | AxisZ => on_jog (Jog.continuous_update None None (Some (Float.of_Z v)))
  end.

(** [__move] *)
Definition move (a : axis) (direction : Z) : M t unit :=
  set_stepping false ;;
  continuous_update_axis a direction.

(** [__halt] *)
Definition halt (a : axis) : M t unit :=
  set_stepping true ;;
  continuous_update_axis a 0.

(** The body of the loop over the axes in [__eval_axles]. *)
Definition eval_axis (value : Z) (a : axis) : M t unit :=
  s <- get ;;
  (if (215 <? value) && (item (last_event s) a =? 0)
   then move a 1 ;; set_last_event a 1 else ret tt) ;;
  s <- get ;;
  (if (value <? 175) && (item (last_event s) a =? 1)
   then halt a ;; set_last_event a 0 else ret tt) ;;
  s <- get ;;
  (if (value <? 40) && (item (last_event s) a =? 0)
   then move a (-1) ;; set_last_event a (-1) else ret tt) ;;
  s <- get ;;
  (if (80 <? value) && (item (last_event s) a =? -1)
   then halt a ;; set_last_event a 0 else ret tt).

(** [__eval_axles], for the values read from the device. *)
Definition eval_axles (value : Z * Z * Z) : M t unit :=
  eval_axis (item value AxisX) AxisX ;;
  eval_axis (item value AxisY) AxisY ;;
  eval_axis (item value AxisZ) AxisZ.

Definition at_rest_or_moving (e : Z) : Prop := e = -1 \/ e = 0 \/ e = 1.

(** The debounce state agrees with the jog slot: every entry of [last_event]
    is -1, 0 or 1; the slot is empty exactly when all entries are 0, and a
    movement in the slot was started, is running and moves as [last_event]
    says. *)
Definition in_sync (s : t) : Prop :=
  let '(x, y, z) := last_event s in
  at_rest_or_moving x /\ at_rest_or_moving y /\ at_rest_or_moving z
  /\ match Jog.continuous_movement (jog s) with
     | None => (x, y, z) = (0, 0, 0)
     | Some c =>
         ContinuousMove.active c = (Float.of_Z x, Float.of_Z y, Float.of_Z z)
         /\ ContinuousMove.running c = true
         /\ ContinuousMove.thread c = ContinuousMove.Alive
         /\ (x, y, z) <> (0, 0, 0)
     end.

End Stick.

(** ** thermal_camera.py and microscope.py: the frame buffer of a capture loop *)

Module Camera.

(** One pass of the loop body: drop the oldest of five frames, append. *)
Definition store (image : string) (frames : list string) : list string :=
  let frames := if Nat.eqb (List.length frames) 5 then skipn 1 frames else frames in
  (frames ++ [image])%list.

(** The buffer after the loop stored [images], oldest first. *)
Definition capture (images : list string) (frames : list string) : list string :=
  fold_left (fun fs image => store image fs) images frames.

(** [get_last_frame] *)
Definition get_last_frame (unavailable : string) (frames : list string) : string :=
  if Nat.ltb 0 (List.length frames) then last frames unavailable else unavailable.

(** A camera as the connection handler sees it: [start] and [stop]. *)
Record t : Type := mk {
  running : bool;
  threads : nat                       (* capture threads started *)
}.

Definition start (c : t) : t := mk true (S (threads c)).

Definition stop (c : t) : t := mk false (threads c).

End Camera.

(** ** websocket_server.py: the connection handler

    A client is a number.  The handler's straight-line pieces run without a
    suspension point in between, so each is one step here. *)

Module Connections.

Local Open Scope monad_scope.

Record t : Type := mk {
  connected : list nat;               (* the set [self.connected] *)
  microscope : Camera.t;
  calibration : Camera.t
}.

(** How the serving of a client ends: the connection closes, or a coroutine
    raises something else. *)
Inductive ending : Type :=
| Closed
| Failed (e : exn).

Definition on_first_connected : M t unit :=
  modify (fun s => mk (connected s) (Camera.start (microscope s))
                      (Camera.start (calibration s))).

Definition on_last_disconnected : M t unit :=
  modify (fun s => mk (connected s) (Camera.stop (microscope s))
                      (Camera.stop (calibration s))).

(** [set.add] *)
Definition add (ws : nat) (l : list nat) : list nat :=
  if existsb (Nat.eqb ws) l then l else ws :: l.

(** [set.remove], a [KeyError] for an absent element. *)
Definition remove (ws : nat) (l : list nat) : outcome (list nat) :=
  if existsb (Nat.eqb ws) l
  then Ok (filter (fun w => negb (Nat.eqb ws w)) l)
  else Raise KeyError.

(** The handler up to its first suspension point. *)
Definition enter (ws : nat) : M t unit :=
  s <- get ;;
  (if Nat.eqb (List.length (connected s)) 0 then on_first_connected else ret tt) ;;
  modify (fun s => mk (add ws (connected s)) (microscope s) (calibration s)).

(** The [finally] block. *)
Definition leave (ws : nat) : M t unit :=
  s <- get ;;
  l <- lift_pure (remove ws (connected s)) ;;
  modify (fun s => mk l (microscope s) (calibration s)) ;;
  s <- get ;;
  if Nat.eqb (List.length (connected s)) 0 then on_last_disconnected else ret tt.

(** One connection from start to end, with no other connection starting or
    ending in between: [welcome] is how the first state update went ([None]:
    sent), [served] how the gathered coroutines ended. *)
Definition connection_handler (ws : nat) (welcome : option ending)
  (served : ending) : M t unit :=
  enter ws ;;
  match welcome with
  | Some Closed => raise Exception
  | Some (Failed e) => raise e
  | None =>
      leave ws ;;
      match served with
      | Closed => ret tt
      | Failed e => raise e
      end
  end.

(** The cameras run exactly while a client is registered. *)
Definition in_step (s : t) : Prop :=
  Camera.running (microscope s) = negb (Nat.eqb (List.length (connected s)) 0)
  /\ Camera.running (calibration s) = negb (Nat.eqb (List.length (connected s)) 0)
  /\ NoDup (connected s).

End Connections.

(** ** Notions used to state properties of the orchestration layer *)

(** Whatever its outcome, [m] takes a state to one that is [R]-related. *)
Definition related {S B} (R : S -> S -> Prop) (m : M S B) : Prop :=
  forall s, R s (snd (m s)).

Module Station.

Section WithAttack.

Context {A : Type}.

(** A station outside joystick mode stays outside it. *)
Definition no_joystick (h h' : Helper.t A) : Prop :=
  State.mode (Helper.state h) <> State.JOYSTICK_MODE ->
  State.mode (Helper.state h') <> State.JOYSTICK_MODE.

(** No task was started, and if the task is still alive it is the same task
    and the controller was left to it. *)
Definition one_task (h h' : Helper.t A) : Prop :=
  Helper.started h' = Helper.started h
  /\ (Thread.is_alive (Helper.task h') = true ->
      Helper.marlin h' = Helper.marlin h /\ Helper.task h' = Helper.task h).

Definition on_server (R : Helper.t A -> Helper.t A -> Prop)
  (s s' : Server.t A) : Prop :=
  R (Server.helper s) (Server.helper s').

End WithAttack.

End Station.

(** ** Notions used to state what a stopped run does *)

Module Stopping.

Import Worker.

Section WithAttack.

Context {A : Type} `{Attack.Impl A}.

(** An event other than a pulse on the target. *)
Definition unshot (ev : event) : Prop :=
  ev <> EResetTarget /\ ev <> EShout.

(** An event other than a pulse, the shutdown hook and the closing of the
    log. *)
Definition unfired (ev : event) : Prop :=
  unshot ev /\ ev <> EShutdown /\ ev <> ECloseFile.

(** [m] does not read the running flag and adds only events that satisfy
    [P]. *)
Definition steady {B} (P : event -> Prop) (m : M (world A) B) : Prop :=
  forall s,
    begun (worker (snd (m s))) = begun (worker s)
    /\ exists l, trace (worker (snd (m s))) = (trace (worker s) ++ l)%list
                 /\ Forall P l.

(** With a stop request pending, the loop [m] returns from [run] at its first
    reading of the flag; it fires nothing. *)
Definition halts (e : env) (m : M (world A) flow) : Prop :=
  forall s,
    stop_requested e (begun (worker s)) = true ->
    exists l,
      trace (worker (snd (m s))) = (trace (worker s) ++ l)%list
      /\ Forall unfired l
      /\ ((fst (m s) = Ok Return
           /\ begun (worker (snd (m s))) <> begun (worker s))
          \/ (fst (m s) <> Ok Return
              /\ begun (worker (snd (m s))) = begun (worker s))).

(** With a stop request pending, [m] pulses nothing, and once the flag was
    read it returns without the shutdown hook and without closing the log. *)
Definition finishes (e : env) (m : M (world A) unit) : Prop :=
  forall s,
    stop_requested e (begun (worker s)) = true ->
    exists l,
      trace (worker (snd (m s))) = (trace (worker s) ++ l)%list
      /\ Forall unshot l
      /\ (begun (worker (snd (m s))) <> begun (worker s) ->
          fst (m s) = Ok tt /\ Forall unfired l).

End WithAttack.

End Stopping.

(** * Properties *)

Local Open Scope list_scope.

(** ** Frame reasoning in the monad: what a computation leaves alone *)

Section Preserves.

Context {S X : Type} (f : S -> X).

Lemma preserves_ret {B} (b : B) : preserves f (ret b).
Proof. intros s. reflexivity. Qed.

Lemma preserves_raise {B} (e : exn) : preserves f (@raise S B e).
Proof. intros s. reflexivity. Qed.

Lemma preserves_out_of_fuel {B} : preserves f (@out_of_fuel S B).
Proof. intros s. reflexivity. Qed.

Lemma preserves_get : preserves f get.
Proof. intros s. reflexivity. Qed.

Lemma preserves_lift_pure {B} (o : outcome B) : preserves f (lift_pure o).
Proof. intros s. reflexivity. Qed.

Lemma preserves_modify (g : S -> S) :
  (forall s, f (g s) = f s) -> preserves f (modify g).
Proof. intros G s. apply G. Qed.

Lemma preserves_bind {B C} (m : M S B) (k : B -> M S C) :
  preserves f m -> (forall b, preserves f (k b)) -> preserves f (bind m k).
Proof.
  intros Pm Pk s. unfold bind. specialize (Pm s).
  destruct (m s) as [[b | e |] s1]; cbn in *; [| exact Pm | exact Pm].
  rewrite (Pk b s1). exact Pm.
Qed.

Lemma preserves_try_except {B} (m h : M S B) (e : exn) :
  preserves f m -> preserves f h -> preserves f (try_except m e h).
Proof.
  intros Pm Ph s. unfold try_except. specialize (Pm s).
  destruct (m s) as [[b | e' |] s1]; cbn in *; try exact Pm.
  match goal with |- context [if ?c then _ else _] => destruct c end;
    [rewrite (Ph s1) |]; exact Pm.
Qed.

End Preserves.

(** ** The position planner *)

Section Planner.

Import Utils.

(** C4: [compute_positions((0,0,0), (2,2,0), 1)] returns exactly the nine
    points (0,0,0),(0,1,0),(0,2,0),(1,2,0),(1,1,0),(1,0,0),(2,0,0),(2,1,0),
    (2,2,0), in this serpentine order and without a duplicate.  Three loop
    iterations per axis are enough; more fuel changes nothing. *)
Theorem compute_positions_3x3 (n : nat) :
  compute_positions (3 + n) (0, 0, 0) (2, 2, 0) 1 = Ok Demo.serpentine_3x3
  /\ List.length Demo.serpentine_3x3 = 9%nat
  /\ NoDup Demo.serpentine_3x3.
Proof.
  split; [reflexivity | split; [reflexivity |]].
  unfold Demo.serpentine_3x3.
  repeat (constructor; [simpl; intuition discriminate |]).
  constructor.
Qed.

End Planner.

(** ** The stage controller *)

Section SafeHeight.

Import Marlin.

(** Swapping the sides of a comparison of floats swaps its answer. *)
Lemma compare_swap (a b : float) :
  SFcompare b a = option_map CompOpp (SFcompare a b).
Proof.
  destruct a as [sa | sa | | sa ma ea], b as [sb | sb | | sb mb eb]; cbn;
    try reflexivity;
    try (destruct sa; reflexivity); try (destruct sb; reflexivity);
    try (destruct sa, sb; reflexivity).
  destruct sa, sb; try reflexivity; f_equal;
    rewrite (Z.compare_antisym ea eb); destruct (ea ?= eb); cbn; try reflexivity;
    rewrite ?Pos.compare_cont_antisym; cbn;
    destruct (Pos.compare_cont Eq mb ma); reflexivity.
Qed.

Lemma compare_nan (a b : float) :
  SFcompare a b = None <-> Float.is_nan a = true \/ Float.is_nan b = true.
Proof.
  destruct a as [sa | sa | | sa ma ea], b as [sb | sb | | sb mb eb]; cbn;
    split; try discriminate; auto; try (intros [N | N]; discriminate);
    try (destruct sa; discriminate); try (destruct sb; discriminate).
Qed.

(** [a > b] is the negation of [a <= b] for numbers, and both are false as
    soon as one side is NaN. *)
Lemma gtb_leb (a b : float) :
  Float.gtb a b = match SFcompare a b with
                  | Some _ => negb (Float.leb a b)
                  | None => false
                  end
  /\ (SFcompare a b = None -> Float.leb a b = false).
Proof.
  unfold Float.gtb, Float.leb, SFltb, SFleb. rewrite (compare_swap a b).
  destruct (SFcompare a b) as [[| |] |]; cbn;
    (split; [reflexivity | intros N; first [discriminate | reflexivity]]).
Qed.

(** A rejected move: one line in the log and nothing else. *)
Lemma move_unsafe (fuel : nat) (x y : option float) (z feed_rate : float) (s : t) :
  Float.gtb z (safe_height s) = true ->
  move fuel x y (Some z) feed_rate s =
  (Ok tt, mk (ser s) (safe_height s) (log s ++ [LogUnsafeMove x y (Some z)]) (slept s)).
Proof.
  intros L. unfold move, bind, get, logger, modify, is_safe_height.
  rewrite L. reflexivity.
Qed.

(** C5 as amended: [is_safe_height(z)] is false exactly when
    [z > safe_height].  For numbers that is: true exactly when
    [z <= safe_height]; but as soon as [z] or the safe height is NaN it is
    true although [z <= safe_height] is false.  A [move] whose target Z is
    above the safe height returns normally after one log record: the serial
    link (lines written, reads made) is untouched. *)
Theorem safe_height_gate (s : t) (z : float) :
  is_safe_height s z = negb (Float.gtb z (safe_height s))
  /\ (Float.is_nan z = false -> Float.is_nan (safe_height s) = false ->
      (is_safe_height s z = true <-> Float.leb z (safe_height s) = true))
  /\ (Float.is_nan z = true \/ Float.is_nan (safe_height s) = true ->
      is_safe_height s z = true /\ Float.leb z (safe_height s) = false)
  /\ (Float.gtb z (safe_height s) = true ->
      forall (fuel : nat) (x y : option float) (feed_rate : float),
      exists s',
        move fuel x y (Some z) feed_rate s = (Ok tt, s')
        /\ ser s' = ser s
        /\ MarlinSerial.sent (ser s') = MarlinSerial.sent (ser s)
        /\ log s' = (log s ++ [LogUnsafeMove x y (Some z)])%list
        /\ safe_height s' = safe_height s).
Proof.
  destruct (gtb_leb z (safe_height s)) as [G L].
  assert (E : is_safe_height s z = negb (Float.gtb z (safe_height s))).
  { unfold is_safe_height. destruct (Float.gtb z (safe_height s)); reflexivity. }
  split; [exact E |]. split; [| split].
  - intros Nz Nh. rewrite E, G.
    destruct (SFcompare z (safe_height s)) as [c |] eqn:C.
    + rewrite Bool.negb_involutive. tauto.
    + apply compare_nan in C. destruct C; congruence.
  - intros N. apply compare_nan in N. rewrite E, G, N.
    split; [reflexivity | exact (L N)].
  - intros U fuel x y feed_rate.
    eexists. split; [apply move_unsafe; exact U |].
    simpl. repeat split.
Qed.

(** A move to height 150 under the initial safe height of 100. *)
Lemma safe_height_gate_witness :
  Float.gtb (Float.of_Z 150) (safe_height (init false Demo.prompt)) = true /\
  exists s',
    move 5 (Some (Float.of_Z 1)) None (Some (Float.of_Z 150)) (Float.of_Z 5)
      (init false Demo.prompt) = (Ok tt, s')
    /\ ser s' = ser (init false Demo.prompt)
    /\ MarlinSerial.sent (ser s') = MarlinSerial.sent (ser (init false Demo.prompt))
    /\ log s' = (log (init false Demo.prompt)
                 ++ [LogUnsafeMove (Some (Float.of_Z 1)) None
                       (Some (Float.of_Z 150))])%list
    /\ safe_height s' = safe_height (init false Demo.prompt).
Proof.
  split; [reflexivity |].
  destruct (safe_height_gate (init false Demo.prompt) (Float.of_Z 150))
    as (_ & _ & _ & P).
  apply P. reflexivity.
Defined.

(** The gate is open once the safe height is NaN, which [float] gives for
    the string [nan]: height 200 counts as safe although [200 <= nan] is
    false, and the move is written to the port. *)
Lemma nan_safe_height_admits_every_move :
  let s := snd (set_safe_height Float.nan (init false Demo.prompt)) in
  let r := move 5 None None (Some (Float.of_Z 200)) (Float.of_Z 5) s in
  PyStr.float_ "nan" = Ok Float.nan
  /\ is_safe_height s (Float.of_Z 200) = true
  /\ Float.leb (Float.of_Z 200) (safe_height s) = false
  /\ fst r = Ok tt
  /\ MarlinSerial.sent (ser (snd r))
     = [("G0 F300.000000Z200.000000" ++ PyStr.LF)%string;
        ("M400" ++ PyStr.LF)%string].
Proof. vm_compute. repeat split. Qed.

End SafeHeight.

Section Protocol.

Import Marlin.

Lemma eqb_neq_false (a b : string) : a <> b -> String.eqb a b = false.
Proof. intros N. apply String.eqb_neq. exact N. Qed.

(** With the counter at [counter], silence raises the timeout after
    [max_tries - counter + 1] further polls. *)
Lemma wait_loop_silent (fuel : nat) :
  forall (max_tries counter : Z) (msg : string) (s : t),
    silent_from s ->
    0 <= counter <= max_tries ->
    (Z.to_nat (max_tries - counter) < fuel)%nat ->
    exists s',
      wait_loop fuel max_tries counter msg s = (Raise IOError, s')
      /\ MarlinSerial.reads (ser s')
         = (MarlinSerial.reads (ser s) + Z.to_nat (max_tries - counter) + 1)%nat
      /\ slept s' = (slept s + Z.to_nat (max_tries - counter) + 1)%nat
      /\ MarlinSerial.sent (ser s') = MarlinSerial.sent (ser s).
Proof.
  induction fuel as [| fuel IH]; intros max_tries counter msg s Hs Hc Hf; [lia |].
  destruct Hs as [Hsim Hrx].
  destruct (Hrx _ (Nat.le_refl _)) as [Hbusy Hok].
  cbn [wait_loop]. unfold bind at 1. unfold on_ser at 1, MarlinSerial.read.
  rewrite Hsim.
  rewrite (eqb_neq_false _ _ Hbusy), (eqb_neq_false _ _ Hok).
  unfold bind at 1. unfold sleep_quarter at 1, modify. cbn [ser safe_height log slept].
  destruct (counter + 1 >? max_tries) eqn:G.
  - apply Z.gtb_lt in G.
    replace (max_tries - counter) with 0 by lia.
    eexists. split; [reflexivity |]. cbn. repeat split; lia.
  - assert (counter + 1 <= max_tries) by (rewrite Z.gtb_ltb in G; apply Z.ltb_ge in G; lia).
    edestruct (IH max_tries (counter + 1)) as (s' & E & R & Sl & Se);
      [ | | | rewrite E; eexists; split; [reflexivity |]].
    + split; cbn; [reflexivity |]. intros i Hi. apply Hrx. lia.
    + lia.
    + lia.
    + cbn in R, Sl, Se. rewrite R, Sl, Se.
      replace (Z.to_nat (max_tries - counter))
        with (S (Z.to_nat (max_tries - (counter + 1)))) by lia.
      repeat split; lia.
Qed.

(** The wait on a silent board: the timeout is raised by poll number
    [max_tries + 1]. *)
Lemma wait_cmd_completed_silent (fuel : nat) (max_tries : Z) (s : t) :
  silent_from s ->
  0 <= max_tries ->
  (Z.to_nat max_tries < fuel)%nat ->
  exists s',
    wait_cmd_completed fuel max_tries s = (Raise IOError, s')
    /\ MarlinSerial.reads (ser s')
       = (MarlinSerial.reads (ser s) + Z.to_nat max_tries + 1)%nat
    /\ slept s' = (slept s + Z.to_nat max_tries + 1)%nat.
Proof.
  intros Hs Hm Hf.
  destruct (wait_loop_silent fuel max_tries 0 EmptyString s Hs) as (s' & E & R & Sl & _);
    [lia | rewrite Z.sub_0_r; exact Hf |].
  exists s'. unfold wait_cmd_completed, bind. rewrite E.
  rewrite Z.sub_0_r in R, Sl. auto.
Qed.



Lemma silent_board_is_silent : silent_from (init false Demo.silent).
Proof.
  split; [reflexivity |]. intros i _. cbn.
  destruct i; split; discriminate.
Qed.

(** C3: on a board that never answers, the wait with [max_tries = n] raises
    the timeout only after [n + 1] polls (reads and quarter-second sleeps),
    one more than [max_tries]: eleven polls for the default of ten. *)
Theorem wait_times_out_one_poll_late (n k : nat) :
  exists s',
    wait_cmd_completed (S n + k) (Z.of_nat n) (init false Demo.silent)
    = (Raise IOError, s')
    /\ MarlinSerial.reads (ser s') = S n
    /\ slept s' = S n.
Proof.
  destruct (wait_cmd_completed_silent (S n + k) (Z.of_nat n) (init false Demo.silent))
    as (s' & E & R & Sl); [apply silent_board_is_silent | lia | lia |].
  exists s'. split; [exact E |]. cbn in R, Sl. split; lia.
Qed.


End Protocol.

Section ProtocolExamples.

Import Marlin.

(** After a busy marker the counter restarts: the eleventh poll of the
    default wait, the tenth silent one after the marker, raises the
    timeout. *)
Lemma wait_after_busy_default :
  let r := wait_cmd_completed 20 default_max_tries
             (init false (MarlinSerial.board [BUSY_MSG])) in
  fst r = Raise IOError
  /\ MarlinSerial.reads (ser (snd r)) = 11%nat
  /\ slept (snd r) = 11%nat.
Proof. vm_compute. repeat split. Qed.

(** An acknowledgement ends the wait at once, after one more read. *)
Lemma wait_ok_at_once :
  let r := wait_cmd_completed 20 default_max_tries (init false Demo.prompt) in
  fst r = Ok (OK_MSG ++ OK_MSG)%string
  /\ MarlinSerial.reads (ser (snd r)) = 2%nat
  /\ slept (snd r) = 0%nat.
Proof. vm_compute. repeat split. Qed.

End ProtocolExamples.

Section StageExamples.

Import Marlin.

(** C2: with the stage at height 95, the safe height at 100 and a relative
    offset of 10, the resulting height 105 fails [is_safe_height] and the
    refusal is logged, yet [relative_move] goes on: it switches to relative
    addressing, sends the move and its barrier, and restores absolute mode. *)
Theorem relative_move_sends_unsafe_move :
  let s := init false Demo.at_95 in
  let r := relative_move 5 (Some (Float.of_Z 0)) (Some (Float.of_Z 0))
             (Some (Float.of_Z 10)) (Float.of_Z 5) s in
  fst (get_position 5 s) = Ok (Float.of_Z 0, Float.of_Z 0, Float.of_Z 95)
  /\ is_safe_height s (Float.add (Float.of_Z 95) (Float.of_Z 10)) = false
  /\ fst r = Ok tt
  /\ log (snd r) = [LogUnsafeRelative;
                    LogMoving (Some (Float.of_Z 0)) (Some (Float.of_Z 0))
                      (Some (Float.of_Z 10))]
  /\ MarlinSerial.sent (ser (snd r))
     = [ ("M114" ++ PyStr.LF)%string;
         ("G91" ++ PyStr.LF)%string;
         ("G0 F300.000000X0.000000Y0.000000Z10.000000" ++ PyStr.LF)%string;
         ("M400" ++ PyStr.LF)%string;
         ("G90" ++ PyStr.LF)%string ].
Proof. vm_compute. repeat split. Qed.

(** The reply of a position query, as [get_position] sees it. *)
Lemma busy_reply_fields :
  PyStr.split ":"%char (PyStr.str_bytes BUSY_MSG)
  = ["b'echo"; "busy"; " processing\n'"]%string.
Proof. reflexivity. Qed.

(** C7: when the line read as the reply to the position query is the busy
    marker, [float] fails on the field [busy]; the [ValueError] is not an
    [IndexError], so it leaves [get_position]: no origin is returned and
    nothing is logged. *)
Theorem get_position_raises_on_busy_reply :
  let r := get_position 5 (init false Demo.still_busy) in
  parse_position (PyStr.str_bytes BUSY_MSG) = Raise ValueError
  /\ fst r = Raise ValueError
  /\ log (snd r) = [].
Proof. vm_compute. repeat split. Qed.

(** The handled case: a reply with too few fields gives the origin and one
    log record. *)
Lemma get_position_origin_on_short_reply :
  let r := get_position 5 (init false Demo.prompt) in
  fst r = Ok (Float.of_Z 0, Float.of_Z 0, Float.of_Z 0)
  /\ log (snd r) = [LogNoPosition].
Proof. vm_compute. repeat split. Qed.

Lemma get_position_reads_reply :
  fst (get_position 5 (init false Demo.at_95))
  = Ok (Float.of_Z 0, Float.of_Z 0, Float.of_Z 95).
Proof. vm_compute. reflexivity. Qed.

End StageExamples.

(** ** The orchestration layer *)

Section Orchestration.

Context {A : Type} `{Attack.Impl A}.

Import Helper.

(** No state has both modes at once. *)
Lemma never_both_modes (s : State.t) :
  (State.attack_enabled s && State.joystick_enabled s)%bool = false.
Proof. unfold State.attack_enabled, State.joystick_enabled. destruct (State.mode s); reflexivity. Qed.

(** C1: the guard of [step], [home] and [move] never refuses.  In every
    state, so also in Joystick and in Attack mode, each of them returns [True]
    and starts a background task on the stage controller. *)
Theorem step_home_move_admitted_in_every_mode
  (h : Helper.t A) (speed x y z : float) (bx byy bz : bool) :
  step speed x y z h
  = (Ok true, snd (start_task (Thread.RelativeMove x y z speed) h))
  /\ home bx byy bz h
     = (Ok true, snd (start_task (Thread.Home bx byy bz) h))
  /\ move speed x y z h
     = (Ok true, snd (start_task (Thread.Move x y z speed) h))
  /\ task (snd (step speed x y z h)) = Thread.Alive (Thread.RelativeMove x y z speed)
  /\ started (snd (step speed x y z h))
     = (started h ++ [Thread.RelativeMove x y z speed])%list.
Proof.
  unfold step, home, move, bind, get.
  rewrite never_both_modes. cbn. repeat split.
Qed.

End Orchestration.

Section OrchestrationExamples.

Import Helper.

#[local] Existing Instance Demo.builtin.

(** [step] while an attack task is alive: admitted, a second task runs on the
    stage controller. *)
Lemma step_during_attack :
  let r := step (Float.of_Z 5) (Float.of_Z 1) (Float.of_Z 0) (Float.of_Z 0)
             Demo.attacking in
  State.mode (state Demo.attacking) = State.ATTACK_MODE
  /\ is_running Demo.attacking = true
  /\ fst r = Ok true
  /\ started (snd r)
     = [Thread.AttackRun;
        Thread.RelativeMove (Float.of_Z 1) (Float.of_Z 0) (Float.of_Z 0)
          (Float.of_Z 5)].
Proof. vm_compute. repeat split. Qed.

(** The same through the control channel: the attack thread has ended, the
    snapshot still says Attack, and a [step] command is taken without an
    error. *)
Lemma step_after_attack_ended :
  let h := set_task (Thread.Finished Thread.AttackRun) Demo.attacking in
  let msg := Demo.command "step"
               [("speed", JNum 5); ("x", JNum 1); ("y", JNum 0); ("z", JNum 0)] in
  let r := Server.message_handler 5 msg (Server.mk h []) in
  State.mode (state h) = State.ATTACK_MODE
  /\ fst r = Ok tt
  /\ started (Server.helper (snd r))
     = [Thread.AttackRun;
        Thread.RelativeMove (Float.of_Z 1) (Float.of_Z 0) (Float.of_Z 0)
          (Float.of_Z 5)]
  /\ (forall m, ~ In (Server.ErrorTo m) (Server.outbox (snd r))).
Proof.
  vm_compute. repeat split. intros m [E | []]. discriminate.
Qed.

End OrchestrationExamples.

Section Loading.

Context {A : Type} `{Attack.Impl A}.

Import Worker.

Lemma find_no_match {B} (f : B -> bool) (l : list B) :
  (forall b, In b l -> f b = false) -> find f l = None.
Proof.
  induction l as [| b l IH]; intros N; [reflexivity |].
  cbn. rewrite (N b (or_introl eq_refl)). apply IH.
  intros c I. apply N. right. exact I.
Qed.

(** C9: for a name that none of the loaded classes answers to, the registry
    gives no class, calling it raises the [TypeError] that [load_attack]
    catches, and [load_attack] returns [False]; the attack object loaded
    before stays as it was (only the logger's attack name changes). *)
Theorem load_attack_unknown_name (w : Worker.t A) (name : json) :
  (forall c, In c (AttackImporter.attack_cls (importer w)) ->
             JStr (AttackImporter.name c) <> name) ->
  AttackImporter.get_attack_by_name (importer w) name = None
  /\ call_class (AttackImporter.get_attack_by_name (importer w) name)
     = Raise TypeError
  /\ load_attack name w
     = (Ok false, set_a_log (AttackLogger.set_name name (a_log w)) w)
  /\ attack (snd (load_attack name w)) = attack w.
Proof.
  intros N.
  assert (E : AttackImporter.get_attack_by_name (importer w) name = None).
  { apply find_no_match. intros c I. specialize (N c I).
    unfold AttackImporter.name_is. destruct name; try reflexivity.
    apply String.eqb_neq. intros E. apply N. f_equal. exact E. }
  split; [exact E |].
  split; [rewrite E; reflexivity |].
  assert (L : load_attack name w
              = (Ok false, set_a_log (AttackLogger.set_name name (a_log w)) w)).
  { unfold load_attack, bind, get, modify, try_except, lift_pure.
    rewrite E. reflexivity. }
  split; [exact L |]. rewrite L. reflexivity.
Qed.

End Loading.

Section LoadingExamples.

Import Worker.

(** A worker that holds a loaded attack is asked for an unknown one. *)
Lemma load_attack_unknown_name_witness :
  (forall c, In c (AttackImporter.attack_cls
                     (importer (Helper.attack_runner Demo.attacking))) ->
             JStr (AttackImporter.name c) <> JStr "Glitch")
  /\ attack (Helper.attack_runner Demo.attacking) = Some (Demo.mk 0 1)
  /\ fst (load_attack (JStr "Glitch") (Helper.attack_runner Demo.attacking))
     = Ok false
  /\ attack (snd (load_attack (JStr "Glitch") (Helper.attack_runner Demo.attacking)))
     = Some (Demo.mk 0 1).
Proof.
  assert (N : forall c, In c (AttackImporter.attack_cls
                     (importer (Helper.attack_runner Demo.attacking))) ->
             JStr (AttackImporter.name c) <> JStr "Glitch").
  { intros c [<- | []]. discriminate. }
  split; [exact N |].
  split; [reflexivity |].
  destruct (load_attack_unknown_name
              (Helper.attack_runner Demo.attacking) (JStr "Glitch") N)
    as (_ & _ & L & K).
  split; [rewrite L; reflexivity |]. rewrite K. reflexivity.
Defined.

End LoadingExamples.

Section Joystick.

Context {A : Type} `{Attack.Impl A}.

Import Helper.

(** C10 as amended: [disable_joystick] has no admission guard.  Without a
    joystick object it returns [True] and sets the mode to Manual from every
    starting mode, joining nothing.  With a joystick object it clears the
    joystick's running flag and joins the task, with no timeout: on a handle
    that was never started the join raises [RuntimeError]; on a live task
    that does not end the call does not return; in both cases the mode stays
    as it was.  Only when the task has ended, or ends while it is joined, does
    the call return [True] with the mode Manual. *)
Theorem disable_joystick_forces_manual (h : Helper.t A) :
  (joystick h = None ->
   disable_joystick h
   = (Ok true, set_state (State.set_mode State.MANUAL_MODE (state h)) h))
  /\ (forall j, joystick h = Some j ->
      let off :=
        set_joystick
          (Some (Joystick.mk (Joystick.feed_rate j) (Joystick.step_dist j) false))
          h in
      State.mode (state off) = State.mode (state h)
      /\ (task h = Thread.Unstarted ->
          disable_joystick h = (Raise RuntimeError, off))
      /\ (forall tg, task h = Thread.Alive tg -> task_ends h tg = false ->
          disable_joystick h = (OutOfFuel, off))
      /\ (forall tg,
            task h = Thread.Alive tg /\ task_ends h tg = true
            \/ task h = Thread.Finished tg ->
          exists h',
            disable_joystick h = (Ok true, h')
            /\ h' = set_state (State.set_mode State.MANUAL_MODE (state h))
                      (set_task (Thread.Finished tg) off)
            /\ State.mode (state h') = State.MANUAL_MODE
            /\ Thread.is_alive (task h') = false
            /\ joystick h'
               = Some (Joystick.mk (Joystick.feed_rate j) (Joystick.step_dist j)
                         false)
            /\ started h' = started h)).
Proof.
  split.
  - intros N. unfold disable_joystick, bind, get. rewrite N. reflexivity.
  - intros j J off. split; [reflexivity |].
    unfold disable_joystick, join_task, bind, get, modify, lift_pure.
    rewrite J. cbn. fold off.
    split; [| split].
    + intros T. rewrite T. reflexivity.
    + intros tg T E. rewrite T. cbn. rewrite E. reflexivity.
    + intros tg [[T E] | T]; rewrite T; cbn; rewrite ?E;
        eexists; (split; [reflexivity |]); cbn; repeat split.
Qed.

End Joystick.

Section JoystickExamples.

Import Helper.

#[local] Existing Instance Demo.builtin.

(** The station after a failed [enable_joystick]: the joystick object exists
    and no task was ever started. *)
Lemma enable_joystick_leaves_joystick :
  let r := enable_joystick (Float.of_Z 5) (Float.of_Z 1) Demo.station in
  fst r = Raise AttributeError
  /\ joystick (snd r) = Some (Joystick.mk (Float.of_Z 5) (Float.of_Z 1) true)
  /\ task (snd r) = Thread.Unstarted
  /\ State.mode (state (snd r)) = State.MANUAL_MODE.
Proof. vm_compute. repeat split. Qed.

(** C10, counterexample: in Manual mode, with a joystick object and the task
    handle never started, [disable_joystick] does not return [True]: joining
    the handle raises [RuntimeError]. *)
Lemma disable_joystick_raises_on_unstarted_task :
  let h := snd (enable_joystick (Float.of_Z 5) (Float.of_Z 1) Demo.station) in
  State.mode (state h) = State.MANUAL_MODE
  /\ fst (disable_joystick h) = Raise RuntimeError
  /\ fst (disable_joystick h) <> Ok true.
Proof. vm_compute. repeat split. discriminate. Qed.

(** A second way not to return [True]: the attack task is alive and never
    ends, so the join, and with it [disable_joystick], does not return; the
    mode is still Attack. *)
Lemma disable_joystick_waits_for_endless_task :
  let h := set_joystick (Some (Joystick.mk (Float.of_Z 5) (Float.of_Z 1) true))
             Demo.stuck in
  let r := disable_joystick h in
  task h = Thread.Alive Thread.AttackRun
  /\ fst r = OutOfFuel
  /\ State.mode (state (snd r)) = State.ATTACK_MODE.
Proof. vm_compute. repeat split. Qed.

(** The case of a task that ends, in Attack mode: the attack task is joined
    and the mode forced to Manual. *)
Lemma disable_joystick_forces_manual_witness :
  let j := Joystick.mk (Float.of_Z 5) (Float.of_Z 1) true in
  let h := set_joystick (Some j) Demo.attacking in
  State.mode (state h) = State.ATTACK_MODE
  /\ joystick h = Some j
  /\ (task h = Thread.Alive Thread.AttackRun
      /\ task_ends h Thread.AttackRun = true
      \/ task h = Thread.Finished Thread.AttackRun)
  /\ exists h',
       disable_joystick h = (Ok true, h')
       /\ State.mode (state h') = State.MANUAL_MODE
       /\ Thread.is_alive (task h') = false
       /\ joystick h' = Some (Joystick.mk (Float.of_Z 5) (Float.of_Z 1) false)
       /\ started h' = started h.
Proof.
  intros j h.
  assert (T : task h = Thread.Alive Thread.AttackRun
              /\ task_ends h Thread.AttackRun = true
              \/ task h = Thread.Finished Thread.AttackRun)
    by (left; split; reflexivity).
  split; [reflexivity |].
  split; [reflexivity |].
  split; [exact T |].
  destruct (proj2 (proj2 (proj2 (proj2 (disable_joystick_forces_manual h)
                                        j eq_refl)))
              Thread.AttackRun T)
    as (h' & D & _ & Md & Al & Jo & St).
  exists h'. repeat split; assumption.
Defined.

End JoystickExamples.

(** ** The safe height survives every exchange with the board *)

Section MarlinFrame.

Import Marlin.


Lemma keeps_on_ser {B} (m : M MarlinSerial.t B) : preserves safe_height (on_ser m).
Proof. intros s. unfold on_ser. destruct (m (ser s)). reflexivity. Qed.

Lemma keeps_logger (r : log_record) : preserves safe_height (logger r).
Proof. intros s. reflexivity. Qed.

Lemma keeps_sleep : preserves safe_height sleep_quarter.
Proof. intros s. reflexivity. Qed.

Lemma keeps_wait_loop (fuel : nat) :
  forall max_tries counter msg,
    preserves safe_height (wait_loop fuel max_tries counter msg).
Proof.
  induction fuel as [| fuel IH]; intros max_tries counter msg; cbn [wait_loop].
  - apply preserves_out_of_fuel.
  - apply preserves_bind; [apply keeps_on_ser |]. intros res.
    destruct (String.eqb res OK_MSG); [apply preserves_ret |].
    apply preserves_bind; [apply keeps_sleep |]. intros _.
    match goal with |- context [if ?c then _ else _] => destruct c end;
      [apply preserves_raise | apply IH].
Qed.

Lemma keeps_wait_cmd_completed (fuel : nat) (max_tries : Z) :
  preserves safe_height (wait_cmd_completed fuel max_tries).
Proof.
  unfold wait_cmd_completed.
  apply preserves_bind; [apply keeps_wait_loop |]. intros msg.
  apply preserves_bind; [apply keeps_on_ser |]. intros last.
  apply preserves_ret.
Qed.

Lemma keeps_get_position (fuel : nat) :
  preserves safe_height (get_position fuel).
Proof.
  unfold get_position.
  apply preserves_bind; [apply keeps_on_ser |]. intros _.
  apply preserves_bind; [apply keeps_on_ser |]. intros reply.
  apply preserves_bind; [apply keeps_wait_cmd_completed |]. intros _.
  apply preserves_try_except; [apply preserves_lift_pure |].
  apply preserves_bind; [apply keeps_logger |]. intros _. apply preserves_ret.
Qed.

End MarlinFrame.

Section SafeZ.

Context {A : Type} `{Attack.Impl A} `{Builtin.Float}.

Import Server.

Lemma update_keeps_safe_pair (fuel : nat) :
  preserves (@Helper.safe_pair A) (Helper.update fuel).
Proof.
  unfold Helper.update.
  apply preserves_bind; [apply preserves_modify; reflexivity |]. intros _.
  apply preserves_bind; [apply preserves_get |]. intros h.
  destruct (State.attack_enabled (Helper.state h)).
  - apply preserves_bind; [apply preserves_modify; reflexivity |]. intros _.
    apply preserves_bind; [apply preserves_modify; reflexivity |]. intros _.
    apply preserves_bind; [apply preserves_get |]. intros h'.
    destruct (negb (Helper.is_running h'));
      [apply preserves_modify; reflexivity | apply preserves_ret].
  - destruct (negb (Helper.is_running h)); [| apply preserves_ret].
    apply preserves_bind.
    + intros s. unfold Helper.on_marlin, Helper.safe_pair.
      pose proof (keeps_get_position fuel (Helper.marlin s)) as K.
      destruct (Marlin.get_position fuel (Helper.marlin s)) as [r m'].
      cbn in *. rewrite K. reflexivity.
    + intros pos. apply preserves_modify. reflexivity.
Qed.

Lemma get_state_json_keeps_safe_pair (fuel : nat) :
  preserves (@Helper.safe_pair A) (Helper.get_state_json fuel).
Proof.
  unfold Helper.get_state_json.
  apply preserves_bind; [apply update_keeps_safe_pair |]. intros _.
  apply preserves_bind; [apply preserves_get |]. intros h. apply preserves_ret.
Qed.

(** The state broadcast that closes a handled command: at most one packet,
    never an error. *)
Lemma send_state_update_effect (fuel : nat) (s : Server.t A) :
  Helper.safe_pair (helper (snd (send_state_update fuel s))) = Helper.safe_pair (helper s)
  /\ (outbox (snd (send_state_update fuel s)) = outbox s
      \/ exists st,
           outbox (snd (send_state_update fuel s))
           = (outbox s ++ [StateBroadcast st])%list).
Proof.
  unfold send_state_update, bind, on_helper, send, modify.
  pose proof (get_state_json_keeps_safe_pair fuel (helper s)) as K.
  destruct (Helper.get_state_json fuel (helper s)) as [[st | e |] h'];
    cbn in *; (split; [exact K |]); eauto.
Qed.

(** The handler on a [safeZ] request that finds no task alive: the guarded
    call, then the state broadcast. *)
Lemma safeZ_idle (fuel : nat) (s : Server.t A) (msg : list (string * json))
  (z : json) :
  item "type" msg = Ok (JStr "command") ->
  item "cmd" msg = Ok (JStr "safeZ") ->
  item "z" msg = Ok z ->
  Helper.is_running (helper s) = false ->
  message_handler fuel msg s
  = match Builtin.float_ z with
    | Ok q =>
        send_state_update fuel
          (mk (Helper.set_state (State.set_safe_z z (Helper.state (helper s)))
                 (Helper.set_marlin
                    (snd (Marlin.set_safe_height q (Helper.marlin (helper s))))
                    (helper s)))
              (outbox s))
    | Raise ValueError =>
        send_state_update fuel
          (mk (helper s) (outbox s ++ [ErrorTo "Please provide valid values."]))
    | Raise ex => (Raise ex, s)
    | OutOfFuel => (OutOfFuel, s)
    end.
Proof.
  intros Ty Cmd Z R. destruct s as [h o]. cbn [helper outbox] in *.
  unfold message_handler, bind, lift_pure, get. rewrite Ty.
  cbn -[run_command send_state_update try_except]. rewrite Cmd.
  cbn -[run_command send_state_update try_except]. rewrite R.
  cbn -[run_command send_state_update try_except].
  unfold try_except, run_command, bind, lift_pure.
  cbn -[Helper.set_safe_z send_state_update]. rewrite Z.
  unfold on_helper, Helper.set_safe_z, bind, lift_pure.
  destruct (Builtin.float_ z) as [q | ex |]; [reflexivity | | reflexivity].
  destruct ex; reflexivity.
Qed.

(** C8 as amended: a [safeZ] request is refused while a background task is
    alive: the client gets an error and nothing changes.  With no task alive
    it is admitted in every mode; whatever the builtin [float] does on the
    values it is given, for a value [z] on which it returns, the controller's
    safe height becomes [float(z)], the snapshot's [safe_z] becomes [z], and
    no error is sent; for a value on which it raises [ValueError] the client
    gets an error and the safe height and the snapshot's [safe_z] stay as
    they were. *)
Theorem safeZ_request (fuel : nat) (s : Server.t A) (msg : list (string * json))
  (z : json) :
  item "type" msg = Ok (JStr "command") ->
  item "cmd" msg = Ok (JStr "safeZ") ->
  item "z" msg = Ok z ->
  (Helper.is_running (helper s) = true ->
   message_handler fuel msg s
   = (Ok tt,
      mk (helper s)
         (outbox s ++ [ErrorTo "Please wait until the previous action terminates."])))
  /\ (Helper.is_running (helper s) = false ->
      forall q, Builtin.float_ z = Ok q ->
      let s' := snd (message_handler fuel msg s) in
      Marlin.safe_height (Helper.marlin (helper s')) = q
      /\ State.safe_z (Helper.state (helper s')) = z
      /\ (outbox s' = outbox s
          \/ exists st, outbox s' = outbox s ++ [StateBroadcast st]))
  /\ (Helper.is_running (helper s) = false ->
      Builtin.float_ z = Raise ValueError ->
      let s' := snd (message_handler fuel msg s) in
      Helper.safe_pair (helper s') = Helper.safe_pair (helper s)
      /\ (outbox s' = outbox s ++ [ErrorTo "Please provide valid values."]
          \/ exists st,
               outbox s' = outbox s ++ [ErrorTo "Please provide valid values.";
                                        StateBroadcast st])).
Proof.
  intros Ty Cmd Z. split; [| split].
  - intros R. unfold message_handler, bind, lift_pure, get.
    rewrite Ty. cbn. rewrite Cmd, R. reflexivity.
  - intros R q F. rewrite (safeZ_idle fuel s msg z Ty Cmd Z R), F. cbv zeta.
    match goal with
    | |- context [send_state_update fuel ?s1] =>
        destruct (send_state_update_effect fuel s1) as [K O];
        remember (send_state_update fuel s1) as r eqn:Er
    end.
    clear Er. unfold Helper.safe_pair in K. cbn in K, O. injection K as K1 K2.
    repeat split; assumption.
  - intros R F. rewrite (safeZ_idle fuel s msg z Ty Cmd Z R), F. cbv zeta.
    match goal with
    | |- context [send_state_update fuel ?s1] =>
        destruct (send_state_update_effect fuel s1) as [K O];
        remember (send_state_update fuel s1) as r eqn:Er
    end.
    clear Er. cbn in K, O. split; [exact K |].
    destruct O as [O | [st O]]; [left; exact O | right; exists st].
    rewrite O, <- app_assoc. reflexivity.
Qed.

End SafeZ.

Section SafeZExamples.

Import Server.

#[local] Existing Instance Demo.builtin.

(** C8, counterexample: a [safeZ] request that arrives while the attack task
    is alive is refused with an error; the safe height and the snapshot stay
    at 100. *)
Lemma safeZ_refused_while_task_alive :
  let s := mk Demo.attacking [] in
  let r := message_handler 5 (Demo.command "safeZ" [("z", JNum 50)]) s in
  Helper.is_running (helper s) = true
  /\ fst r = Ok tt
  /\ outbox (snd r) = [ErrorTo "Please wait until the previous action terminates."]
  /\ Marlin.safe_height (Helper.marlin (helper (snd r))) = Float.of_Z 100
  /\ State.safe_z (Helper.state (helper (snd r))) = JNum 100.
Proof. vm_compute. repeat split. Qed.

(** An idle station takes the safe height 50 from the string ["50"]. *)
Lemma safeZ_request_witness :
  let s := mk Demo.station [] in
  let msg := Demo.command "safeZ" [("z", JStr "50")] in
  let s' := snd (message_handler 5 msg s) in
  Helper.is_running (helper s) = false
  /\ Builtin.float_ (JStr "50") = Ok (Float.of_Z 50)
  /\ Marlin.safe_height (Helper.marlin (helper s')) = Float.of_Z 50
  /\ State.safe_z (Helper.state (helper s')) = JStr "50"
  /\ (outbox s' = outbox s
      \/ exists st, outbox s' = (outbox s ++ [StateBroadcast st])%list).
Proof.
  split; [reflexivity |].
  split; [reflexivity |].
  apply (proj1 (proj2 (@safeZ_request _ Demo.builtin 5 (mk Demo.station [])
                         (Demo.command "safeZ" [("z", JStr "50")]) (JStr "50")
                         eq_refl eq_refl eq_refl)) eq_refl (Float.of_Z 50)
           eq_refl).
Defined.

(** A value that is no number: an error, then the state broadcast, and the
    safe height stays at 100. *)
Lemma safeZ_invalid_value :
  let s := mk Demo.station [] in
  let r := message_handler 5 (Demo.command "safeZ" [("z", JStr "high")]) s in
  fst r = Ok tt
  /\ Marlin.safe_height (Helper.marlin (helper (snd r))) = Float.of_Z 100
  /\ State.safe_z (Helper.state (helper (snd r))) = JNum 100
  /\ exists st,
       outbox (snd r) = [ErrorTo "Please provide valid values."; StateBroadcast st].
Proof. vm_compute. repeat split. eexists. reflexivity. Qed.

(** The string [nan] is a valid value: the safe height becomes NaN, and from
    then on every height counts as safe. *)
Lemma safeZ_takes_nan :
  let s := mk Demo.station [] in
  let r := message_handler 5 (Demo.command "safeZ" [("z", JStr "nan")]) s in
  fst r = Ok tt
  /\ Marlin.safe_height (Helper.marlin (helper (snd r))) = Float.nan
  /\ Marlin.is_safe_height (Helper.marlin (helper (snd r))) (Float.of_Z 200)
     = true
  /\ (forall m, ~ In (ErrorTo m) (outbox (snd r))).
Proof.
  vm_compute. repeat split. intros m [E | []]. discriminate.
Qed.

End SafeZExamples.

(** ** The attack run and its trace *)

Section RunTrace.

Context {A : Type} `{Attack.Impl A}.

Import Worker.

Lemma quiet_nil : quiet [].
Proof. constructor. Qed.

Lemma quiet_app (l1 l2 : list event) : quiet l1 -> quiet l2 -> quiet (l1 ++ l2).
Proof. intros Q1 Q2. apply Forall_app. split; assumption. Qed.

Lemma quiet_one (ev : event) : quiet_event ev -> quiet [ev].
Proof. intros Q. constructor; [exact Q | constructor]. Qed.

Lemma quiet_no_failed_check (l : list event) :
  quiet l -> ~ In (ECriticalCheck false) l.
Proof.
  intros Q I. unfold quiet in Q. rewrite Forall_forall in Q.
  destruct (Q _ I) as [N _]. apply N. reflexivity.
Qed.

Lemma quiet_no_shutdown (l : list event) :
  quiet l -> ~ In EShutdown l /\ ~ In ECloseFile l.
Proof.
  intros Q. unfold quiet in Q. rewrite Forall_forall in Q.
  split; intros I; destruct (Q _ I) as (_ & N1 & N2); congruence.
Qed.

(** The first occurrence of an element fixes the split of a list. *)
Lemma split_at_first {B} (c : B) (l : list B) :
  forall pre post tail,
    ~ In c l -> ~ In c tail ->
    l ++ c :: tail = pre ++ c :: post ->
    pre = l /\ post = tail.
Proof.
  induction l as [| a l IH]; intros pre post tail Nl Nt E.
  - destruct pre as [| x pre]; cbn in E.
    + injection E as E. auto.
    + injection E as E1 E2. subst. exfalso. apply Nt.
      apply in_or_app. right. left. reflexivity.
  - destruct pre as [| x pre]; cbn in E.
    + injection E as E1 E2. exfalso. apply Nl. left. exact E1.
    + injection E as E1 E2. subst x.
      destruct (IH pre post tail) as [-> ->]; auto.
      intros I. apply Nl. right. exact I.
Qed.

(** *** Rules for [emits] *)

Lemma emits_weaken {B} (m : M (world A) B) (P Q : outcome B -> list event -> Prop) :
  emits m P -> (forall r l, P r l -> Q r l) -> emits m Q.
Proof.
  intros Hm W s. destruct (Hm s) as (l & E & p). exists l. auto.
Qed.

Lemma emits_bind {B C} (m : M (world A) B) (k : B -> M (world A) C)
  (P1 : outcome B -> list event -> Prop)
  (P2 : B -> outcome C -> list event -> Prop)
  (P : outcome C -> list event -> Prop) :
  emits m P1 ->
  (forall b, emits (k b) (P2 b)) ->
  (forall b l1 r l2, P1 (Ok b) l1 -> P2 b r l2 -> P r (l1 ++ l2)) ->
  (forall ex l, P1 (Raise ex) l -> P (Raise ex) l) ->
  (forall l, P1 OutOfFuel l -> P OutOfFuel l) ->
  emits (bind m k) P.
Proof.
  intros Hm Hk Hok Hex Hfuel s.
  destruct (Hm s) as (l1 & E1 & p1). unfold bind.
  destruct (m s) as [[b | ex |] s1]; cbn in *.
  - destruct (Hk b s1) as (l2 & E2 & p2).
    exists (l1 ++ l2). split; [rewrite E2, E1, app_assoc; reflexivity |].
    eapply Hok; eassumption.
  - exists l1. auto.
  - exists l1. auto.
Qed.

Lemma emits_seq {B C} (m : M (world A) B) (k : B -> M (world A) C)
  (P : outcome C -> list event -> Prop) :
  emits m step_post -> (forall b, emits (k b) P) -> absorbs P ->
  emits (bind m k) P.
Proof.
  intros Hm Hk (A1 & A2 & A3).
  apply (emits_bind m k step_post (fun _ => P) P); auto.
Qed.

Lemma emits_ret {B} (b : B) (P : outcome B -> list event -> Prop) :
  P (Ok b) [] -> emits (ret b : M (world A) B) P.
Proof. intros p s. exists []. cbn. rewrite app_nil_r. auto. Qed.

(** A computation that leaves the trace alone. *)
Lemma emits_nothing {B} (m : M (world A) B) :
  (forall s, trace (worker (snd (m s))) = trace (worker s)) ->
  emits m step_post.
Proof.
  intros T s. exists []. rewrite app_nil_r. split; [apply T | apply quiet_nil].
Qed.

Lemma emits_the_attack : emits (A:=A) the_attack step_post.
Proof.
  apply emits_nothing. intros s. unfold the_attack, bind, get.
  destruct (attack (worker s)); reflexivity.
Qed.

Lemma emits_lift_pure {B} (o : outcome B) : emits (A:=A) (lift_pure o : M (world A) B) step_post.
Proof. apply emits_nothing. reflexivity. Qed.

Lemma emits_on_stage {B} (m : M Marlin.t B) : emits (A:=A) (on_stage m) step_post.
Proof.
  apply emits_nothing. intros s. unfold on_stage.
  destruct (m (stage s)). reflexivity.
Qed.

Lemma emits_worker_modify (f : Worker.t A -> Worker.t A) :
  (forall w, trace (f w) = trace w) -> emits (A:=A) (on_worker (modify f)) step_post.
Proof. intros T. apply emits_nothing. intros s. cbn. apply T. Qed.

Lemma emits_put_attack (a : A) : emits (A:=A) (put_attack a) step_post.
Proof. apply emits_worker_modify. reflexivity. Qed.

Lemma emits_is_running (e : env) : emits (A:=A) (is_running e) step_post.
Proof.
  apply emits_nothing. intros s. unfold is_running, on_worker, bind, get, modify.
  destruct (stop_requested e (begun (worker s))); reflexivity.
Qed.

Lemma emits_event (ev : event) (P : outcome unit -> list event -> Prop) :
  P (Ok tt) [ev] -> emits (A:=A) (emit ev) P.
Proof. intros p s. exists [ev]. cbn. auto. Qed.

Lemma emits_quiet_event (ev : event) : quiet_event ev -> emits (A:=A) (emit ev) step_post.
Proof. intros Q. apply emits_event. apply quiet_one. exact Q. Qed.

Lemma absorbs_step {B} : absorbs (@step_post B).
Proof.
  repeat split; unfold step_post; intros; auto using quiet_app.
Qed.

Lemma absorbs_loop : absorbs loop_post.
Proof.
  unfold absorbs, loop_post. split; [| split; intros; assumption].
  intros r l1 l2 Q1 P2.
  destruct r as [[|] | ex |]; try (apply quiet_app; assumption).
  destruct P2 as [Q | (l' & Q & ->)];
    [left; apply quiet_app; assumption | right].
  exists (l1 ++ l'). split; [apply quiet_app; assumption | apply app_assoc].
Qed.

Lemma absorbs_run : absorbs run_post.
Proof.
  unfold absorbs, run_post. repeat split.
  - intros r l1 l2 Q1 [N | [(l' & Q & ->) ->]].
    + left. intros I. apply in_app_or in I as [I | I]; [| exact (N I)].
      exact (quiet_no_failed_check _ Q1 I).
    + right. split; [| reflexivity].
      exists (l1 ++ l'). split; [apply quiet_app; assumption | apply app_assoc].
  - intros ex l Q. left. apply quiet_no_failed_check. exact Q.
  - intros l Q. left. apply quiet_no_failed_check. exact Q.
Qed.

(** *** The helpers of [run] add quiet events only *)

Ltac quiet_ev := unfold quiet_event; repeat split; discriminate.

Ltac quiet_step :=
  first
    [ apply emits_the_attack
    | apply emits_lift_pure
    | apply emits_put_attack
    | apply emits_on_stage
    | apply emits_is_running
    | apply emits_worker_modify; reflexivity
    | apply emits_quiet_event; quiet_ev ].

Ltac quiet_seq :=
  repeat (apply emits_seq; [quiet_step | intros ? | apply absorbs_step]);
  try quiet_step.

Lemma emits_file_log (message : string) : emits (A:=A) (file_log message) step_post.
Proof.
  unfold file_log. apply emits_seq; [quiet_step | intros _ | apply absorbs_step].
  apply emits_nothing. intros s. unfold on_worker.
  destruct (AttackLogger.log message (a_log (worker s))). reflexivity.
Qed.

Lemma emits_stage_move (fuel : nat) (x y z : option float) (feed_rate : float) :
  emits (A:=A) (stage_move fuel x y z feed_rate) step_post.
Proof. unfold stage_move. quiet_seq. Qed.

Lemma emits_stage_home (fuel : nat) (x y z : bool) :
  emits (A:=A) (stage_home fuel x y z) step_post.
Proof. unfold stage_home. quiet_seq. Qed.

Lemma emits_move_to_start (fuel : nat) : emits (A:=A) (move_to_start fuel) step_post.
Proof.
  unfold move_to_start.
  repeat (apply emits_seq;
          [first [apply emits_stage_home | apply emits_stage_move | quiet_step]
          | intros ? | apply absorbs_step]).
  quiet_step.
Qed.

Lemma emits_check_temp (e : env) : emits (A:=A) (check_temp e) step_post.
Proof.
  unfold check_temp.
  apply emits_seq; [apply emits_nothing; reflexivity | intros s | apply absorbs_step].
  apply emits_seq; [quiet_step | intros _ | apply absorbs_step].
  apply emits_seq; [quiet_step | intros a | apply absorbs_step].
  destruct (Float.gtb _ _).
  - apply emits_seq; [quiet_step | intros _ | apply absorbs_step].
    apply emits_ret. apply quiet_nil.
  - apply emits_ret. apply quiet_nil.
Qed.

(** *** The loops *)

Lemma emits_repetitions_loop (fuel : nat) (e : env) (n : nat) :
  forall i j len pos,
    emits (A:=A) (repetitions_loop fuel e n i j len pos) loop_post.
Proof.
  induction n as [| n IH]; intros i j len pos; cbn [repetitions_loop].
  - apply emits_ret. apply quiet_nil.
  - apply emits_seq; [quiet_step | intros a0 | apply absorbs_loop].
    apply emits_seq; [quiet_step | intros p | apply absorbs_loop].
    apply emits_seq; [quiet_step | intros _ | apply absorbs_loop].
    apply emits_seq; [quiet_step | intros alive | apply absorbs_loop].
    destruct alive; cbn [negb]; [| apply emits_ret; left; apply quiet_nil].
    apply emits_seq; [quiet_step | intros a1 | apply absorbs_loop].
    apply emits_seq; [quiet_step | intros _ | apply absorbs_loop].
    apply emits_seq; [quiet_step | intros _ | apply absorbs_loop].
    apply emits_seq; [quiet_step | intros a2 | apply absorbs_loop].
    apply emits_seq; [quiet_step | intros _ | apply absorbs_loop].
    apply emits_seq; [quiet_step | intros _ | apply absorbs_loop].
    apply emits_seq; [quiet_step | intros a3 | apply absorbs_loop].
    destruct (Attack.was_successful a3) as [hit a4].
    apply emits_seq; [quiet_step | intros _ | apply absorbs_loop].
    apply emits_seq; [quiet_step | intros _ | apply absorbs_loop].
    apply emits_seq; [| intros _ | apply absorbs_loop].
    { destruct hit.
      - apply emits_seq; [quiet_step | intros _ | apply absorbs_step].
        apply emits_file_log.
      - apply emits_file_log. }
    apply emits_seq; [quiet_step | intros a5 | apply absorbs_loop].
    destruct (Attack.critical_check a5) as [sound a6].
    apply emits_seq; [quiet_step | intros _ | apply absorbs_loop].
    destruct sound; cbn [negb].
    + apply emits_seq; [quiet_step | intros _ | apply absorbs_loop].
      apply emits_seq; [apply emits_check_temp | intros cool | apply absorbs_loop].
      apply emits_seq; [| intros _ | apply absorbs_loop].
      { destruct cool; cbn [negb]; [apply emits_ret; apply quiet_nil | quiet_step]. }
      apply IH.
    + (* the abort path *)
      intros s. exists abort_tail.
      split; [cbn; rewrite <- app_assoc; reflexivity |].
      right. exists []. split; [apply quiet_nil | reflexivity].
Qed.

Lemma emits_positions_loop (fuel : nat) (e : env) (rest : list Utils.position) :
  forall i len, emits (A:=A) (positions_loop fuel e rest i len) loop_post.
Proof.
  induction rest as [| pos rest IH]; intros i len; cbn [positions_loop].
  - apply emits_ret. apply quiet_nil.
  - destruct (to_float pos) as [[x y] z].
    apply emits_seq; [apply emits_stage_move | intros _ | apply absorbs_loop].
    apply emits_seq; [quiet_step | intros _ | apply absorbs_loop].
    apply emits_seq; [quiet_step | intros a | apply absorbs_loop].
    eapply (emits_bind _ _ loop_post
              (fun r => match r with Return => fun r' l => r' = Ok Return /\ l = []
                                   | Next => loop_post end)).
    + apply emits_repetitions_loop.
    + intros [|]; [apply IH | apply emits_ret; auto].
    + intros [|] l1 r l2 P1 P2; cbn in P1.
      * apply absorbs_loop; assumption.
      * destruct P2 as [-> ->]. rewrite app_nil_r. exact P1.
    + intros ex l P1. exact P1.
    + intros l P1. exact P1.
Qed.

Lemma emits_unchecked_seq {B C} (m : M (world A) B) (k : B -> M (world A) C) :
  emits m unchecked_post -> (forall b, emits (k b) unchecked_post) ->
  emits (bind m k) unchecked_post.
Proof.
  intros Hm Hk.
  apply (emits_bind m k unchecked_post (fun _ => unchecked_post)); auto.
  unfold unchecked_post. intros _ l1 _ l2 N1 N2 I.
  apply in_app_or in I as [I | I]; auto.
Qed.

Lemma emits_unchecked {B} (m : M (world A) B) :
  emits m step_post -> emits m unchecked_post.
Proof.
  intros Hm. apply (emits_weaken _ _ _ Hm).
  intros r l Q. apply quiet_no_failed_check. exact Q.
Qed.

(** The end of a completed run: the shutdown hook and the closing of the
    log. *)
Lemma emits_run_end :
  emits (A:=A)
    (a <- the_attack ;;
     put_attack (Attack.shutdown a) ;; emit EShutdown ;;
     file_log "Stopping attack..." ;;
     emit ECloseFile ;;
     on_worker (modify (fun s => set_a_log (AttackLogger.close (a_log s)) s)))%monad
    unchecked_post.
Proof.
  apply emits_unchecked_seq; [apply emits_unchecked; quiet_step | intros a].
  apply emits_unchecked_seq; [apply emits_unchecked; quiet_step | intros _].
  apply emits_unchecked_seq.
  { apply emits_event. intros [E | []]. discriminate. }
  intros _.
  apply emits_unchecked_seq; [apply emits_unchecked; apply emits_file_log | intros _].
  apply emits_unchecked_seq.
  { apply emits_event. intros [E | []]. discriminate. }
  intros _. apply emits_unchecked. quiet_step.
Qed.

Lemma emits_run (fuel : nat) (e : env) : emits (A:=A) (run fuel e) run_post.
Proof.
  unfold run.
  apply emits_seq; [quiet_step | intros _ | apply absorbs_run].
  apply emits_seq; [quiet_step | intros _ | apply absorbs_run].
  apply emits_seq; [quiet_step | intros _ | apply absorbs_run].
  apply emits_seq; [quiet_step | intros _ | apply absorbs_run].
  apply emits_seq; [apply emits_file_log | intros _ | apply absorbs_run].
  apply emits_seq; [quiet_step | intros a0 | apply absorbs_run].
  apply emits_seq; [quiet_step | intros speed | apply absorbs_run].
  apply emits_seq; [quiet_step | intros _ | apply absorbs_run].
  apply emits_seq; [quiet_step | intros _ | apply absorbs_run].
  apply emits_seq; [quiet_step | intros a1 | apply absorbs_run].
  apply emits_seq; [quiet_step | intros positions | apply absorbs_run].
  apply emits_seq; [quiet_step | intros a2 | apply absorbs_run].
  apply emits_seq; [quiet_step | intros _ | apply absorbs_run].
  apply emits_seq; [quiet_step | intros _ | apply absorbs_run].
  apply emits_seq; [apply emits_move_to_start | intros _ | apply absorbs_run].
  eapply (emits_bind _ _ loop_post
            (fun r => match r with
                      | Return => fun r' l => r' = Ok tt /\ l = []
                      | Next => unchecked_post
                      end)).
  - apply emits_positions_loop.
  - intros [|]; [apply emits_run_end | apply emits_ret; auto].
  - intros [|] l1 r l2 P1 P2; cbn in P1.
    + left. intros I. apply in_app_or in I as [I | I]; [| exact (P2 I)].
      exact (quiet_no_failed_check _ P1 I).
    + destruct P2 as [-> ->]. rewrite app_nil_r.
      destruct P1 as [Q | Ab]; [left; apply quiet_no_failed_check; exact Q |].
      right. split; [exact Ab | reflexivity].
  - intros ex l P1. left. apply quiet_no_failed_check. exact P1.
  - intros l P1. left. apply quiet_no_failed_check. exact P1.
Qed.

(** C6: whenever [critical_check] returns false during a run, the run ends
    there: after the failed check the trace holds its log line and nothing
    else (no further repetition, no move to another position), [run] returns
    normally, and neither the attack's [shutdown] hook nor the closing of the
    log was called before it. *)
Theorem critical_check_failure_aborts_run
  (fuel : nat) (e : env) (s : world A) (pre post : list event) :
  trace (worker (snd (run fuel e s)))
  = trace (worker s) ++ pre ++ ECriticalCheck false :: post ->
  post = [ECritical "Critical attack check failed."]
  /\ ~ In EShutdown pre
  /\ ~ In ECloseFile pre
  /\ ~ In EShutdown post
  /\ ~ In ECloseFile post
  /\ fst (run fuel e s) = Ok tt.
Proof.
  intros E.
  destruct (emits_run fuel e s) as (l & El & P).
  rewrite El in E. apply app_inv_head in E. subst l.
  destruct P as [N | [(l' & Q & E) R]].
  - exfalso. apply N. apply in_or_app. right. left. reflexivity.
  - symmetry in E. unfold abort_tail in E.
    apply split_at_first in E as [-> ->].
    + destruct (quiet_no_shutdown _ Q) as [N1 N2].
      repeat split; try assumption; intros [I | []]; discriminate.
    + apply quiet_no_failed_check. exact Q.
    + intros [I | []]. discriminate.
Qed.

End RunTrace.

Section RunExamples.

Import Worker.

(** The sample attack fails its check at the second shot of the first
    position. *)
Lemma critical_check_failure_aborts_run_witness :
  trace (worker (snd (run 5 Demo.calm Demo.world)))
  = trace (worker Demo.world) ++ Demo.before_failed_check
    ++ ECriticalCheck false :: [ECritical "Critical attack check failed."]
  /\ ~ In EShutdown Demo.before_failed_check
  /\ ~ In ECloseFile Demo.before_failed_check
  /\ fst (run 5 Demo.calm Demo.world) = Ok tt.
Proof.
  assert (E : trace (worker (snd (run 5 Demo.calm Demo.world)))
              = trace (worker Demo.world) ++ Demo.before_failed_check
                ++ ECriticalCheck false :: [ECritical "Critical attack check failed."]).
  { vm_compute. reflexivity. }
  split; [exact E |].
  destruct (critical_check_failure_aborts_run 5 Demo.calm Demo.world
              Demo.before_failed_check
              [ECritical "Critical attack check failed."] E)
    as (_ & N1 & N2 & _ & _ & R).
  split; [exact N1 | split; [exact N2 | exact R]].
Defined.

(** After the abort the log file of the run is still open. *)
Lemma log_left_open_after_abort :
  AttackLogger.current (a_log (worker (snd (run 5 Demo.calm Demo.world))))
  = Some (AttackLogger.mk_file
            [ ("Starting attack..." ++ PyStr.LF)%string;
              ("Unsuccessful at (0, 0, 0)" ++ PyStr.LF)%string;
              ("Unsuccessful at (0, 0, 0)" ++ PyStr.LF)%string ]
            false).
Proof. vm_compute. reflexivity. Qed.

(** A run whose checks all hold ends with the shutdown hook and the closing
    of the log. *)
Lemma completed_run_calls_shutdown :
  let w := mk_world (set_attack (Some (Demo.mk 0 9)) (worker Demo.world))
                    (stage Demo.world) in
  let r := run 5 Demo.calm w in
  fst r = Ok tt
  /\ In EShutdown (trace (worker (snd r)))
  /\ In ECloseFile (trace (worker (snd r)))
  /\ ~ In (ECriticalCheck false) (trace (worker (snd r))).
Proof.
  vm_compute. repeat split.
  - do 40 (try (left; reflexivity); right). 
  - do 40 (try (left; reflexivity); right).
  - intuition discriminate.
Qed.

End RunExamples.

(** ** More on the position planner *)

Section PlannerMore.

Import Utils.

(** The number of steps of size [step] that stay below a distance [d]. *)
Lemma steps_succ (d step : Z) :
  0 < step -> 0 < d ->
  Z.to_nat ((d + step - 1) / step)
  = S (Z.to_nat ((d - step + step - 1) / step)).
Proof.
  intros Hs Hd.
  replace (d + step - 1) with ((d - step + step - 1) + 1 * step) by ring.
  rewrite Z.div_add by lia.
  assert (0 <= (d - step + step - 1) / step).
  { apply Z.div_pos; lia. }
  lia.
Qed.

Lemma steps_zero (d step : Z) :
  0 < step -> d <= 0 -> Z.to_nat ((d + step - 1) / step) = 0%nat.
Proof.
  intros Hs Hd.
  assert ((d + step - 1) / step <= 0); [| lia].
  apply Z.lt_succ_r. apply Z.div_lt_upper_bound; lia.
Qed.

Lemma while_up_progression (n : nat) :
  forall fuel fp start stop step lst,
    0 < step ->
    n = Z.to_nat ((stop - start + step - 1) / step) ->
    (n < fuel)%nat ->
    while_up fuel fp start stop step lst
    = Ok (lst ++ map (fun k => start + Z.of_nat k * step) (seq 0 n)).
Proof.
  induction n as [| n IH]; intros fuel fp start stop step lst Hs Hn Hf;
    (destruct fuel as [| fuel]; [lia |]); cbn [while_up].
  - destruct (start <? stop) eqn:L.
    + apply Z.ltb_lt in L. rewrite steps_succ in Hn by lia. discriminate.
    + cbn. rewrite app_nil_r. reflexivity.
  - destruct (start <? stop) eqn:L.
    + apply Z.ltb_lt in L. rewrite steps_succ in Hn by lia.
      injection Hn as Hn.
      assert (Hn' : n = Z.to_nat ((stop - (start + step) + step - 1) / step)).
      { rewrite Hn. f_equal. f_equal. ring. }
      rewrite (IH fuel fp (start + step) stop step _ Hs Hn') by lia.
      unfold round. rewrite <- app_assoc. f_equal. cbn [app seq map].
      f_equal. f_equal; [cbn; ring |].
      rewrite <- seq_shift, map_map. apply map_ext. intros k. lia.
    + apply Z.ltb_ge in L. rewrite steps_zero in Hn by lia. discriminate.
Qed.

Lemma while_down_progression (n : nat) :
  forall fuel fp start stop step lst,
    0 < step ->
    n = Z.to_nat ((start - stop + step - 1) / step) ->
    (n < fuel)%nat ->
    while_down fuel fp start stop step lst
    = Ok (lst ++ map (fun k => start - Z.of_nat k * step) (seq 0 n)).
Proof.
  induction n as [| n IH]; intros fuel fp start stop step lst Hs Hn Hf;
    (destruct fuel as [| fuel]; [lia |]); cbn [while_down].
  - destruct (start >? stop) eqn:L.
    + apply Z.gtb_lt in L. rewrite steps_succ in Hn by lia. discriminate.
    + cbn. rewrite app_nil_r. reflexivity.
  - destruct (start >? stop) eqn:L.
    + apply Z.gtb_lt in L. rewrite steps_succ in Hn by lia.
      injection Hn as Hn.
      assert (Hn' : n = Z.to_nat ((start - step - stop + step - 1) / step)).
      { rewrite Hn. f_equal. f_equal. ring. }
      rewrite (IH fuel fp (start - step) stop step _ Hs Hn') by lia.
      unfold round. rewrite <- app_assoc. f_equal. cbn [app seq map].
      f_equal. f_equal; [cbn; ring |].
      rewrite <- seq_shift, map_map. apply map_ext. intros k. lia.
    + rewrite Z.gtb_ltb in L. apply Z.ltb_ge in L.
      rewrite steps_zero in Hn by lia. discriminate.
Qed.

(** X1: on Python ints, for a positive step and [start < stop],
    [range_rounded] returns the values [start + k * step] that lie below
    [stop], in order, followed by [stop] itself: the end point is always
    included, also when the step does not divide the distance.  (Float
    arguments, whose sums and roundings are inexact, are outside this
    statement.) *)
Theorem range_rounded_ascending (fuel : nat) (start stop step : Z) :
  0 < step -> start < stop ->
  (Z.to_nat ((stop - start + step - 1) / step) < fuel)%nat ->
  range_rounded fuel start stop step
  = Ok (map (fun k => start + Z.of_nat k * step)
            (seq 0 (Z.to_nat ((stop - start + step - 1) / step)))
        ++ [stop]).
Proof.
  intros Hs Hl Hf. unfold range_rounded.
  apply Z.ltb_lt in Hl. rewrite Hl.
  rewrite (while_up_progression _ fuel _ start stop step [] Hs eq_refl Hf).
  reflexivity.
Qed.

Lemma range_rounded_ascending_witness :
  range_rounded 5 0 5 2 = Ok [0; 2; 4; 5].
Proof.
  apply (range_rounded_ascending 5 0 5 2); [lia | lia | vm_compute; lia].
Defined.

(** X2: on Python ints, for a positive step and [start >= stop],
    [range_rounded] returns the values [start - k * step] that lie above
    [stop], in order, followed by [stop]; for [start = stop] that is the
    single value [stop].  (Float arguments are outside this statement.) *)
Theorem range_rounded_descending (fuel : nat) (start stop step : Z) :
  0 < step -> stop <= start ->
  (Z.to_nat ((start - stop + step - 1) / step) < fuel)%nat ->
  range_rounded fuel start stop step
  = Ok (map (fun k => start - Z.of_nat k * step)
            (seq 0 (Z.to_nat ((start - stop + step - 1) / step)))
        ++ [stop]).
Proof.
  intros Hs Hl Hf. unfold range_rounded.
  assert (L : (start <? stop) = false) by (apply Z.ltb_ge; lia). rewrite L.
  rewrite (while_down_progression _ fuel _ start stop step [] Hs eq_refl Hf).
  reflexivity.
Qed.

Lemma range_rounded_descending_witness :
  range_rounded 5 7 0 3 = Ok [7; 4; 1; 0].
Proof.
  apply (range_rounded_descending 5 7 0 3); [lia | lia | vm_compute; lia].
Defined.

Lemma while_up_stuck (fuel : nat) :
  forall fp start stop step lst,
    step <= 0 -> start < stop ->
    while_up fuel fp start stop step lst = OutOfFuel.
Proof.
  induction fuel as [| fuel IH]; intros fp start stop step lst Hs Hl;
    cbn [while_up]; [reflexivity |].
  apply Z.ltb_lt in Hl as Hb. rewrite Hb. apply IH; lia.
Qed.

Lemma while_down_stuck (fuel : nat) :
  forall fp start stop step lst,
    step <= 0 -> stop < start ->
    while_down fuel fp start stop step lst = OutOfFuel.
Proof.
  induction fuel as [| fuel IH]; intros fp start stop step lst Hs Hl;
    cbn [while_down]; [reflexivity |].
  assert (Hb : (start >? stop) = true) by (apply Z.gtb_lt; lia).
  rewrite Hb. apply IH; lia.
Qed.

(** X3: with a step of zero or less and [start <> stop] the loops of
    [range_rounded] never leave their range: no amount of fuel gives a
    result, and [compute_positions] hangs with it when its X range is such. *)
Theorem range_rounded_hangs (fuel : nat) (start stop step : Z) :
  step <= 0 -> start <> stop ->
  range_rounded fuel start stop step = OutOfFuel
  /\ forall y0 z0 y1 z1,
       compute_positions fuel (start, y0, z0) (stop, y1, z1) step = OutOfFuel.
Proof.
  intros Hs Hn.
  assert (R : range_rounded fuel start stop step = OutOfFuel).
  { unfold range_rounded. destruct (start <? stop) eqn:L.
    - apply Z.ltb_lt in L. rewrite while_up_stuck by lia. reflexivity.
    - apply Z.ltb_ge in L. rewrite while_down_stuck by lia. reflexivity. }
  split; [exact R |].
  intros y0 z0 y1 z1. unfold compute_positions. rewrite R. reflexivity.
Qed.

Lemma range_rounded_hangs_witness :
  range_rounded 1000 0 3 (-1) = OutOfFuel.
Proof.
  apply (proj1 (range_rounded_hangs 1000 0 3 (-1) ltac:(lia) ltac:(lia))).
Defined.

End PlannerMore.

Section PlannerGrid.

Import Utils PyStr.

Lemma contains_app (c : ascii) (a b : string) :
  contains c (a ++ b)%string = (contains c a || contains c b)%bool.
Proof.
  induction a as [| d a IH]; cbn; [reflexivity |].
  destruct (Ascii.eqb c d); [reflexivity | exact IH].
Qed.

Lemma uint_has_no_point (d : Decimal.uint) :
  contains "."%char (NilEmpty.string_of_uint d) = false.
Proof. induction d; cbn; auto. Qed.

(** An int prints without a decimal point. *)
Lemma str_int_has_no_point (n : Z) : contains "."%char (str_int n) = false.
Proof.
  unfold str_int, NilZero.string_of_int.
  destruct (Z.to_int n) as [d | d]; unfold NilZero.string_of_uint;
    destruct d; cbn; auto using uint_has_no_point.
Qed.

Lemma split_aux_no_separator (sep : ascii) (s : string) :
  forall cur, contains sep s = false -> split_aux sep s cur = [(cur ++ s)%string].
Proof.
  induction s as [| c s IH]; intros cur N; cbn in *.
  - rewrite (proj2 (String.eqb_eq _ _) eq_refl) || idtac.
    f_equal. induction cur; cbn; congruence.
  - rewrite Ascii.eqb_sym. destruct (Ascii.eqb sep c); [discriminate |].
    rewrite IH by exact N. f_equal.
    clear. induction cur; cbn; congruence.
Qed.

Lemma decimals_of_int (n : Z) : decimals (VInt n) = Raise IndexError.
Proof.
  unfold decimals, split. cbn [str].
  rewrite split_aux_no_separator by apply str_int_has_no_point.
  reflexivity.
Qed.

Lemma validate_ints (fp : nat) (l : list position) : validate fp l = Ok tt.
Proof.
  unfold validate.
  replace (forallb _ l) with true; [reflexivity |].
  symmetry. apply forallb_forall. intros [[x y] z] _.
  cbn [forallb]. rewrite !decimals_of_int. reflexivity.
Qed.

Lemma alike_refl (a : list Z) : alike a a.
Proof. split; [reflexivity | tauto]. Qed.

Lemma alike_rev (a b : list Z) : alike a b -> alike (rev a) b.
Proof.
  intros [L I]. split; [rewrite length_rev; exact L |].
  intros v. rewrite <- in_rev. apply I.
Qed.

Lemma sweep_y_run (x z : Z) (ys : list Z) :
  forall acc, sweep_y x z ys acc = acc ++ map (fun y => (x, y, z)) ys.
Proof.
  unfold sweep_y. induction ys as [| y ys IH]; intros acc; cbn.
  - rewrite app_nil_r. reflexivity.
  - rewrite IH, <- app_assoc. reflexivity.
Qed.

Lemma sweep_x_layer (z : Z) (xs : list Z) :
  forall acc ys0 ys,
    alike ys ys0 ->
    exists l ys',
      sweep_x z xs (acc, ys) = (acc ++ l, ys')
      /\ alike ys' ys0
      /\ List.length l = (List.length xs * List.length ys0)%nat
      /\ forall p, In p l <->
                   exists x y, p = (x, y, z) /\ In x xs /\ In y ys0.
Proof.
  unfold sweep_x.
  induction xs as [| x xs IH]; intros acc ys0 ys A; cbn [fold_left].
  - exists [], ys. rewrite app_nil_r.
    split; [reflexivity | split; [exact A | split; [reflexivity |]]].
    intros p. split; [intros [] | intros (x & y & _ & [] & _)].
  - rewrite sweep_y_run.
    destruct (IH (acc ++ map (fun y => (x, y, z)) ys) ys0 (rev ys))
      as (l & ys' & E & A' & Len & Mem); [apply alike_rev; exact A |].
    exists (map (fun y => (x, y, z)) ys ++ l), ys'.
    rewrite E, <- app_assoc.
    split; [reflexivity | split; [exact A' | split]].
    + unfold position in *. rewrite length_app, length_map.
      destruct A as [LA _]. cbn [List.length]. lia.
    + intros p. rewrite in_app_iff, in_map_iff, Mem. split.
      * intros [(y & <- & I) | (x' & y & -> & Ix & Iy)].
        -- exists x, y. repeat split; [left; reflexivity | apply A; exact I].
        -- exists x', y. repeat split; [right; exact Ix | exact Iy].
      * intros (x' & y & -> & [<- | Ix] & Iy).
        -- left. exists y. split; [reflexivity | apply A; exact Iy].
        -- right. exists x', y. auto.
Qed.

Lemma sweep_z_layers (zs : list Z) :
  forall acc xs0 ys0 xs ys,
    alike xs xs0 -> alike ys ys0 ->
    exists l xs' ys',
      fold_left
        (fun '(positions, x_pos, y_pos) z =>
           let '(positions', y_pos') := sweep_x z x_pos (positions, y_pos) in
           (positions', rev x_pos, y_pos'))
        zs (acc, xs, ys)
      = (acc ++ l, xs', ys')
      /\ List.length l
         = (List.length xs0 * List.length ys0 * List.length zs)%nat
      /\ forall p, In p l <->
                   exists x y z, p = (x, y, z)
                                 /\ In x xs0 /\ In y ys0 /\ In z zs.
Proof.
  induction zs as [| z zs IH]; intros acc xs0 ys0 xs ys Ax Ay; cbn [fold_left].
  - exists [], xs, ys. rewrite app_nil_r.
    split; [reflexivity | split; [cbn; lia |]].
    intros p. split; [intros [] | intros (x & y & z & _ & _ & _ & [])].
  - destruct (sweep_x_layer z xs acc ys0 ys Ay) as (l1 & ys1 & E1 & Ay1 & L1 & M1).
    rewrite E1.
    destruct (IH (acc ++ l1) xs0 ys0 (rev xs) ys1 (alike_rev _ _ Ax) Ay1)
      as (l2 & xs' & ys' & E2 & L2 & M2).
    exists (l1 ++ l2), xs', ys'. rewrite E2, <- app_assoc.
    split; [reflexivity | split].
    + unfold position in *. rewrite length_app.
      destruct Ax as [LA _]. cbn [List.length]. nia.
    + intros p. rewrite in_app_iff, M1, M2. split.
      * intros [(x & y & -> & Ix & Iy) | (x & y & z' & -> & Ix & Iy & Iz)].
        -- exists x, y, z. repeat split; auto; [apply Ax; exact Ix | left; reflexivity].
        -- exists x, y, z'. repeat split; auto. right. exact Iz.
      * intros (x & y & z' & -> & Ix & Iy & [<- | Iz]).
        -- left. exists x, y. repeat split; auto. apply Ax. exact Ix.
        -- right. exists x, y, z'. auto.
Qed.

(** X4: when the three ranges are computed, [compute_positions] returns the
    whole grid: its length is the product of the three range lengths and a
    position is in it exactly when each coordinate is in the range of its
    axis.  The closing validation never fails on ints. *)
Theorem compute_positions_is_the_grid
  (fuel : nat) (x0 y0 z0 x1 y1 z1 step : Z) (xs ys zs : list Z) :
  range_rounded fuel x0 x1 step = Ok xs ->
  range_rounded fuel y0 y1 step = Ok ys ->
  range_rounded fuel z0 z1 step = Ok zs ->
  exists l,
    compute_positions fuel (x0, y0, z0) (x1, y1, z1) step = Ok l
    /\ List.length l = (List.length xs * List.length ys * List.length zs)%nat
    /\ forall x y z, In (x, y, z) l <-> In x xs /\ In y ys /\ In z zs.
Proof.
  intros Ex Ey Ez.
  destruct (sweep_z_layers zs [] xs ys xs ys (alike_refl _) (alike_refl _))
    as (l & xs' & ys' & E & Len & Mem).
  exists l. unfold compute_positions. rewrite Ex, Ey, Ez. cbn [obind].
  unfold sweep_z. rewrite E. cbn [app]. rewrite validate_ints. cbn [obind].
  split; [reflexivity | split; [exact Len |]].
  intros x y z. rewrite Mem. split.
  - intros (x' & y' & z' & Eq & Ix & Iy & Iz). injection Eq as -> -> ->. auto.
  - intros (Ix & Iy & Iz). exists x, y, z. auto.
Qed.

Lemma compute_positions_is_the_grid_witness :
  exists l,
    compute_positions 5 (0, 0, 0) (1, 2, 1) 1 = Ok l
    /\ List.length l = (2 * 3 * 2)%nat
    /\ forall x y z, In (x, y, z) l <-> In x [0; 1] /\ In y [0; 1; 2] /\ In z [0; 1].
Proof.
  apply (compute_positions_is_the_grid 5 0 0 0 1 2 1 1 [0; 1] [0; 1; 2] [0; 1]);
    reflexivity.
Defined.

End PlannerGrid.

(** ** More on the wait loop *)

Section WaitMore.

Import Marlin.




Lemma wait_loop_ends (n : nat) (fuel : nat) :
  forall max_tries counter msg s,
    quiet_from n s ->
    0 <= counter <= max_tries ->
    Z.of_nat (n - MarlinSerial.reads (ser s)) * (max_tries + 1)
      + (max_tries - counter) < Z.of_nat fuel ->
    match fst (wait_loop fuel max_tries counter msg s) with
    | Ok _ | Raise IOError => True
    | _ => False
    end.
Proof.
  induction fuel as [| fuel IH]; intros max_tries counter msg s [Hsim Hrx] Hc Hf.
  - exfalso.
    assert (0 <= Z.of_nat (n - MarlinSerial.reads (ser s)) * (max_tries + 1)) by nia.
    lia.
  - cbn [wait_loop]. unfold bind at 1. unfold on_ser at 1, MarlinSerial.read.
    rewrite Hsim.
    set (res := MarlinSerial.rx (ser s) (MarlinSerial.reads (ser s))).
    destruct (String.eqb res OK_MSG) eqn:Eok; [exact I |].
    unfold bind at 1. unfold sleep_quarter at 1, modify.
    cbn [ser safe_height log slept fst snd].
    match goal with
    | |- context [if ?c >? max_tries then _ else _] => set (counter' := c)
    end.
    destruct (counter' >? max_tries) eqn:G; [exact I |].
    rewrite Z.gtb_ltb in G. apply Z.ltb_ge in G.
    apply IH.
    + split; [reflexivity |]. exact Hrx.
    + subst counter'. destruct (String.eqb res BUSY_MSG); lia.
    + cbn [ser MarlinSerial.reads].
      destruct (Nat.le_gt_cases n (MarlinSerial.reads (ser s))) as [Late | Early].
      * assert (Eres : res = EmptyString) by (apply Hrx; exact Late).
        assert (Eb : String.eqb res BUSY_MSG = false) by (rewrite Eres; reflexivity).
        subst counter'. rewrite Eb in *.
        replace (n - S (MarlinSerial.reads (ser s)))%nat with 0%nat by lia.
        replace (n - MarlinSerial.reads (ser s))%nat with 0%nat in Hf by lia.
        lia.
      * assert (1 <= counter')
          by (subst counter'; destruct (String.eqb res BUSY_MSG); lia).
        replace (Z.of_nat (n - S (MarlinSerial.reads (ser s))))
          with (Z.of_nat (n - MarlinSerial.reads (ser s)) - 1) by lia.
        nia.
Qed.

(** X6: on a board that falls silent after finitely many lines the wait
    always ends, with the messages read or with the timeout error; the fuel
    needed is bounded by the lines still to come times [max_tries + 1]. *)
Theorem wait_ends_on_finite_board (n fuel : nat) (max_tries : Z) (s : t) :
  quiet_from n s ->
  0 <= max_tries ->
  Z.of_nat (n - MarlinSerial.reads (ser s) + 1) * (max_tries + 1) <= Z.of_nat fuel ->
  (exists m, fst (wait_cmd_completed fuel max_tries s) = Ok m)
  \/ fst (wait_cmd_completed fuel max_tries s) = Raise IOError.
Proof.
  intros Hq Hm Hf. unfold wait_cmd_completed, bind.
  assert (E := wait_loop_ends n fuel max_tries 0 EmptyString s Hq).
  destruct (wait_loop fuel max_tries 0 EmptyString s) as [[m' | ex |] s'];
    cbn [fst] in E.
  - left. unfold on_ser. destruct (MarlinSerial.read (ser s')) as [r t'] eqn:R.
    unfold MarlinSerial.read in R.
    destruct (MarlinSerial.sim (ser s')); injection R as <- _; eexists; reflexivity.
  - right. destruct ex; try (exfalso; apply E; [lia | nia]). reflexivity.
  - exfalso. apply E; [lia | nia].
Qed.

Lemma wait_ends_on_finite_board_witness :
  (exists m,
     fst (wait_cmd_completed 40 default_max_tries
            (init false (MarlinSerial.board [BUSY_MSG; BUSY_MSG]))) = Ok m)
  \/ fst (wait_cmd_completed 40 default_max_tries
            (init false (MarlinSerial.board [BUSY_MSG; BUSY_MSG]))) = Raise IOError.
Proof.
  apply (wait_ends_on_finite_board 2 40 default_max_tries).
  - split; [reflexivity |]. intros i Hi. cbn.
    do 2 (destruct i as [| i]; [lia |]). destruct i; reflexivity.
  - unfold default_max_tries. lia.
  - cbn. lia.
Defined.

End WaitMore.

(** ** More on the stage controller *)

Section ControllerFrames.

Import Marlin.

(** Steps through a computation, using [base] on its primitive parts. *)
Ltac frame base :=
  repeat first
    [ apply preserves_ret
    | apply preserves_raise
    | apply preserves_out_of_fuel
    | apply preserves_get
    | apply preserves_lift_pure
    | base
    | apply preserves_bind; [| intros ?]
    | apply preserves_try_except
    | match goal with
      | |- preserves _ (if ?c then _ else _) => destruct c
      end ].

Ltac height_base :=
  first [ apply keeps_on_ser | apply keeps_logger | apply keeps_sleep
        | apply keeps_wait_cmd_completed | apply keeps_get_position ].

Lemma height_wait_move_completed (fuel : nat) :
  preserves safe_height (wait_move_completed fuel).
Proof. unfold wait_move_completed. frame height_base. Qed.

Lemma height_move (fuel : nat) (x y z : option float) (feed_rate : float) :
  preserves safe_height (move fuel x y z feed_rate).
Proof.
  unfold move. apply preserves_bind; [apply preserves_get | intros s].
  frame ltac:(first [height_base | apply height_wait_move_completed]).
Qed.

Lemma height_relative_mode (fuel : nat) (enable : bool) :
  preserves safe_height (relative_mode fuel enable).
Proof. unfold relative_mode. destruct enable; frame height_base. Qed.

(** X7: no motion or query operation of the controller changes the safe
    height; only [set_safe_height] does. *)
Theorem operations_keep_safe_height (fuel : nat) (s : t) :
  (forall x y z feed_rate,
      safe_height (snd (move fuel x y z feed_rate s)) = safe_height s)
  /\ (forall x y z feed_rate,
      safe_height (snd (relative_move fuel x y z feed_rate s)) = safe_height s)
  /\ (forall x y z, safe_height (snd (home fuel x y z s)) = safe_height s)
  /\ safe_height (snd (get_position fuel s)) = safe_height s
  /\ (forall speed slot,
      safe_height (snd (set_fan_speed fuel speed slot s)) = safe_height s)
  /\ safe_height (snd (emergency fuel s)) = safe_height s
  /\ safe_height (snd (kill fuel s)) = safe_height s
  /\ (forall x y z feed_rate step,
      safe_height (snd (continuous_move fuel x y z feed_rate step s))
      = safe_height s)
  /\ (forall x y z slot,
      safe_height (snd (return_to_pos fuel x y z slot s)) = safe_height s)
  /\ (forall z, safe_height (snd (set_safe_height z s)) = z).
Proof.
  repeat split; intros.
  - apply height_move.
  - revert s. change (preserves safe_height (relative_move fuel x y z feed_rate)).
    unfold relative_move.
    frame ltac:(first [height_base | apply height_move
                      | apply height_relative_mode]).
  - revert s. change (preserves safe_height (home fuel x y z)).
    unfold home. frame height_base.
  - apply keeps_get_position.
  - revert s. change (preserves safe_height (set_fan_speed fuel speed slot)).
    unfold set_fan_speed. frame height_base.
  - revert s. change (preserves safe_height (emergency fuel)).
    unfold emergency. frame height_base.
  - revert s. change (preserves safe_height (kill fuel)).
    unfold kill. frame height_base.
  - revert s.
    change (preserves safe_height (continuous_move fuel x y z feed_rate step)).
    unfold continuous_move.
    frame ltac:(first [height_base | apply height_wait_move_completed]).
  - revert s. change (preserves safe_height (return_to_pos fuel x y z slot)).
    unfold return_to_pos. frame height_base.
Qed.

(** *** The simulated link *)

Lemma port_on_ser_read : preserves port_if_simulated (on_ser MarlinSerial.read).
Proof.
  intros s. unfold on_ser, MarlinSerial.read, port_if_simulated.
  destruct (MarlinSerial.sim (ser s)) eqn:E; cbn; rewrite ?E; reflexivity.
Qed.

Lemma port_on_ser_cmd (c : string) :
  preserves port_if_simulated (on_ser (MarlinSerial.cmd c)).
Proof.
  intros s. unfold on_ser, MarlinSerial.cmd, modify, port_if_simulated.
  destruct (MarlinSerial.sim (ser s)) eqn:E; cbn; rewrite ?E; reflexivity.
Qed.

Lemma port_on_ser_clear : preserves port_if_simulated (on_ser MarlinSerial.clear).
Proof.
  intros s. unfold on_ser, MarlinSerial.clear, modify, port_if_simulated.
  destruct (MarlinSerial.sim (ser s)) eqn:E; cbn; rewrite ?E; reflexivity.
Qed.

Lemma port_on_ser_close : preserves port_if_simulated (on_ser MarlinSerial.close).
Proof.
  intros s. unfold on_ser, MarlinSerial.close, modify, port_if_simulated.
  destruct (MarlinSerial.sim (ser s)) eqn:E; cbn; rewrite ?E; reflexivity.
Qed.

Lemma port_logger (r : log_record) : preserves port_if_simulated (logger r).
Proof. intros s. reflexivity. Qed.

Lemma port_sleep : preserves port_if_simulated sleep_quarter.
Proof. intros s. reflexivity. Qed.

Ltac port_base :=
  first [ apply port_on_ser_read | apply port_on_ser_cmd | apply port_on_ser_clear
        | apply port_on_ser_close | apply port_logger | apply port_sleep ].

Lemma port_wait_loop (fuel : nat) :
  forall max_tries counter msg,
    preserves port_if_simulated (wait_loop fuel max_tries counter msg).
Proof.
  induction fuel as [| fuel IH]; intros max_tries counter msg; cbn [wait_loop].
  - apply preserves_out_of_fuel.
  - frame ltac:(first [port_base | apply IH]).
Qed.

Lemma port_wait_cmd_completed (fuel : nat) (max_tries : Z) :
  preserves port_if_simulated (wait_cmd_completed fuel max_tries).
Proof.
  unfold wait_cmd_completed. frame ltac:(first [port_base | apply port_wait_loop]).
Qed.

Ltac port_step :=
  first [ port_base | apply port_wait_cmd_completed ].

Lemma port_wait_move_completed (fuel : nat) :
  preserves port_if_simulated (wait_move_completed fuel).
Proof. unfold wait_move_completed. frame port_step. Qed.

Lemma port_get_position (fuel : nat) :
  preserves port_if_simulated (get_position fuel).
Proof. unfold get_position. frame port_step. Qed.

Lemma port_move (fuel : nat) (x y z : option float) (feed_rate : float) :
  preserves port_if_simulated (move fuel x y z feed_rate).
Proof.
  unfold move. apply preserves_bind; [apply preserves_get | intros s].
  frame ltac:(first [port_step | apply port_wait_move_completed]).
Qed.

Lemma port_relative_mode (fuel : nat) (enable : bool) :
  preserves port_if_simulated (relative_mode fuel enable).
Proof. unfold relative_mode. destruct enable; frame port_step. Qed.

Lemma port_view_simulated (s s' : t) :
  MarlinSerial.sim (ser s) = true ->
  port_if_simulated s' = port_if_simulated s ->
  MarlinSerial.sent (ser s') = MarlinSerial.sent (ser s)
  /\ MarlinSerial.reads (ser s') = MarlinSerial.reads (ser s)
  /\ MarlinSerial.clears (ser s') = MarlinSerial.clears (ser s)
  /\ MarlinSerial.closed (ser s') = MarlinSerial.closed (ser s).
Proof.
  unfold port_if_simulated. intros E V. rewrite E in V.
  injection V as V1 V2. rewrite V1 in V2. injection V2 as -> -> -> ->. auto.
Qed.

(** X8: on a simulated link no operation reaches the port: whatever [move],
    [relative_move], [home], [get_position], [continuous_move] or
    [emergency] do, the lines written, the reads made, the buffer resets and
    the closed flag of the port stay as they were. *)
Theorem simulation_never_touches_the_port (fuel : nat) (s : t) :
  MarlinSerial.sim (ser s) = true ->
  forall s',
    (exists x y z feed_rate, s' = snd (move fuel x y z feed_rate s))
    \/ (exists x y z feed_rate, s' = snd (relative_move fuel x y z feed_rate s))
    \/ (exists x y z, s' = snd (home fuel x y z s))
    \/ s' = snd (get_position fuel s)
    \/ (exists x y z feed_rate step,
          s' = snd (continuous_move fuel x y z feed_rate step s))
    \/ s' = snd (emergency fuel s)
    \/ s' = snd (close s) ->
    MarlinSerial.sent (ser s') = MarlinSerial.sent (ser s)
    /\ MarlinSerial.reads (ser s') = MarlinSerial.reads (ser s)
    /\ MarlinSerial.clears (ser s') = MarlinSerial.clears (ser s)
    /\ MarlinSerial.closed (ser s') = MarlinSerial.closed (ser s).
Proof.
  intros E s' Hs'. apply port_view_simulated; [exact E |].
  destruct Hs' as [(x & y & z & f & ->) | [(x & y & z & f & ->) |
                  [(x & y & z & ->) | [-> | [(x & y & z & f & st & ->) |
                  [-> | ->]]]]]].
  - apply port_move.
  - clear E. revert s. change (preserves port_if_simulated (relative_move fuel x y z f)).
    unfold relative_move.
    frame ltac:(first [port_step | apply port_get_position | apply port_move
                      | apply port_relative_mode]).
  - clear E. revert s. change (preserves port_if_simulated (home fuel x y z)).
    unfold home. frame port_step.
  - apply port_get_position.
  - clear E. revert s. change (preserves port_if_simulated (continuous_move fuel x y z f st)).
    unfold continuous_move. frame ltac:(first [port_step | apply port_wait_move_completed]).
  - clear E. revert s. change (preserves port_if_simulated (emergency fuel)).
    unfold emergency. frame port_step.
  - apply port_on_ser_close.
Qed.

Lemma simulation_never_touches_the_port_witness :
  let s := init true Demo.silent in
  let s' := snd (relative_move 3 (Some (Float.of_Z 1)) None (Some (Float.of_Z 2))
                   (Float.of_Z 5) s) in
  MarlinSerial.sent (ser s') = MarlinSerial.sent (ser s)
  /\ MarlinSerial.reads (ser s') = MarlinSerial.reads (ser s)
  /\ MarlinSerial.clears (ser s') = MarlinSerial.clears (ser s)
  /\ MarlinSerial.closed (ser s') = MarlinSerial.closed (ser s).
Proof.
  apply (simulation_never_touches_the_port 3 (init true Demo.silent) eq_refl).
  right. left.
  exists (Some (Float.of_Z 1)), None, (Some (Float.of_Z 2)), (Float.of_Z 5).
  reflexivity.
Defined.

(** In simulation the wait reads the canned acknowledgement twice. *)
Lemma wait_in_simulation (fuel : nat) (max_tries : Z) (s : t) :
  MarlinSerial.sim (ser s) = true ->
  wait_cmd_completed (S fuel) max_tries s
  = (Ok (OK_MSG ++ OK_MSG)%string,
     mk (MarlinSerial.mk true (MarlinSerial.rx (ser s)) (MarlinSerial.reads (ser s))
           (MarlinSerial.sent (ser s)) (MarlinSerial.clears (ser s))
           (S (S (MarlinSerial.slept (ser s)))) (MarlinSerial.closed (ser s)))
        (safe_height s) (log s) (slept s)).
Proof.
  destruct s as [[sim0 rx0 reads0 sent0 clears0 slept0 closed0] h lg sl].
  cbn. intros ->. reflexivity.
Qed.

(** X9: in simulation [get_position] always returns the origin: the canned
    acknowledgement has no coordinate fields, so every query ends in the
    handler for a malformed reply and adds the critical log record. *)
Theorem simulated_position_is_the_origin (fuel : nat) (s : t) :
  MarlinSerial.sim (ser s) = true ->
  fst (get_position (S fuel) s) = Ok (Float.of_Z 0, Float.of_Z 0, Float.of_Z 0)
  /\ log (snd (get_position (S fuel) s)) = log s ++ [LogNoPosition].
Proof.
  destruct s as [[sim0 rx0 reads0 sent0 clears0 slept0 closed0] h lg sl].
  cbn [ser MarlinSerial.sim]. intros ->.
  unfold get_position, bind, on_ser, MarlinSerial.cmd, MarlinSerial.read, modify.
  cbn [ser MarlinSerial.sim fst snd safe_height log slept].
  rewrite wait_in_simulation by reflexivity.
  split; reflexivity.
Qed.

Lemma simulated_position_is_the_origin_witness :
  fst (get_position 1 (init true Demo.at_95))
  = Ok (Float.of_Z 0, Float.of_Z 0, Float.of_Z 0)
  /\ log (snd (get_position 1 (init true Demo.at_95))) = [LogNoPosition].
Proof.
  apply (simulated_position_is_the_origin 0 (init true Demo.at_95)). reflexivity.
Defined.

End ControllerFrames.

Section ControllerWrites.

Import Marlin.

Lemma written_on_ser_read : preserves written (on_ser MarlinSerial.read).
Proof.
  intros s. unfold on_ser, MarlinSerial.read, written.
  destruct (MarlinSerial.sim (ser s)); reflexivity.
Qed.

Lemma written_on_ser_clear : preserves written (on_ser MarlinSerial.clear).
Proof.
  intros s. unfold on_ser, MarlinSerial.clear, modify, written.
  destruct (MarlinSerial.sim (ser s)); reflexivity.
Qed.

Lemma written_wait_loop (fuel : nat) :
  forall max_tries counter msg,
    preserves written (wait_loop fuel max_tries counter msg).
Proof.
  induction fuel as [| fuel IH]; intros max_tries counter msg; cbn [wait_loop].
  - apply preserves_out_of_fuel.
  - apply preserves_bind; [apply written_on_ser_read | intros res].
    destruct (String.eqb res OK_MSG); [apply preserves_ret |].
    apply preserves_bind; [intros s; reflexivity | intros _].
    match goal with |- context [if ?c then _ else _] => destruct c end;
      [apply preserves_raise | apply IH].
Qed.

Lemma written_wait_cmd_completed (fuel : nat) (max_tries : Z) :
  preserves written (wait_cmd_completed fuel max_tries).
Proof.
  unfold wait_cmd_completed.
  apply preserves_bind; [apply written_wait_loop | intros msg].
  apply preserves_bind; [apply written_on_ser_read | intros last].
  apply preserves_ret.
Qed.

(** What [cmd] adds on a real link. *)
Lemma written_cmd (c : string) (s : t) :
  MarlinSerial.sim (ser s) = false ->
  on_ser (MarlinSerial.cmd c) s
  = (Ok tt, mk (MarlinSerial.mk false (MarlinSerial.rx (ser s))
                  (MarlinSerial.reads (ser s))
                  (MarlinSerial.sent (ser s) ++ [(c ++ PyStr.LF)%string])
                  (MarlinSerial.clears (ser s)) (MarlinSerial.slept (ser s))
                  (MarlinSerial.closed (ser s)))
               (safe_height s) (log s) (slept s)).
Proof.
  intros E. unfold on_ser, MarlinSerial.cmd, modify. rewrite E. reflexivity.
Qed.

Lemma sim_wait_cmd_completed (fuel : nat) (max_tries : Z) :
  preserves (fun s => MarlinSerial.sim (ser s)) (wait_cmd_completed fuel max_tries).
Proof.
  intros s. pose proof (port_wait_cmd_completed fuel max_tries s) as P.
  unfold port_if_simulated in P. injection P as P _. exact P.
Qed.

(** On a real link the wait for an acknowledgement returns only after a
    read gave the acknowledgement. *)
Lemma wait_loop_acknowledged (fuel : nat) :
  forall max_tries counter msg s m s',
    MarlinSerial.sim (ser s) = false ->
    wait_loop fuel max_tries counter msg s = (Ok m, s') ->
    exists i,
      (MarlinSerial.reads (ser s) <= i < MarlinSerial.reads (ser s'))%nat
      /\ MarlinSerial.rx (ser s) i = OK_MSG.
Proof.
  induction fuel as [| fuel IH]; intros mt c msg s m s' E W; cbn [wait_loop] in W.
  - discriminate.
  - destruct s as [[sim0 rx0 reads0 sent0 clears0 slept0 closed0] h lg sl].
    cbn [ser MarlinSerial.sim] in E. subst sim0.
    unfold bind, on_ser, MarlinSerial.read in W.
    cbn [ser MarlinSerial.sim MarlinSerial.rx MarlinSerial.reads MarlinSerial.sent
         MarlinSerial.clears MarlinSerial.slept MarlinSerial.closed
         safe_height log slept fst snd] in W.
    destruct (String.eqb (rx0 reads0) OK_MSG) eqn:Q.
    + unfold ret in W. injection W as <- <-. exists reads0.
      cbn [ser MarlinSerial.reads MarlinSerial.rx].
      split; [lia | apply String.eqb_eq; exact Q].
    + unfold sleep_quarter, modify in W.
      cbn [ser safe_height log slept fst snd] in W.
      match type of W with
      | context [if ?g >? mt then _ else _] => destruct (g >? mt); [discriminate |]
      end.
      apply IH in W; [| reflexivity].
      cbn [ser MarlinSerial.reads MarlinSerial.rx] in *.
      destruct W as (i & L & R). exists i. split; [lia | exact R].
Qed.

Lemma wait_cmd_completed_acknowledged (fuel : nat) (max_tries : Z) (s s' : t)
  (m : string) :
  MarlinSerial.sim (ser s) = false ->
  wait_cmd_completed fuel max_tries s = (Ok m, s') ->
  exists i,
    (MarlinSerial.reads (ser s) <= i < MarlinSerial.reads (ser s'))%nat
    /\ MarlinSerial.rx (ser s) i = OK_MSG.
Proof.
  intros E W. unfold wait_cmd_completed, bind in W.
  destruct (wait_loop fuel max_tries 0 EmptyString s) as [[m1 | ex |] s1] eqn:L;
    [| discriminate | discriminate].
  destruct (wait_loop_acknowledged fuel _ _ _ _ _ _ E L) as (i & B & R).
  unfold on_ser, MarlinSerial.read, ret in W.
  destruct (MarlinSerial.sim (ser s1)); injection W as _ <-;
    cbn [ser MarlinSerial.reads]; exists i; (split; [lia | exact R]).
Qed.

(** X10: a [move] to a safe target on a real link writes its [G0] line and
    then waits for the acknowledgement.  When that wait fails or does not
    end, [move] fails in the same way and has written the line only.  When it
    returns, the board has sent an acknowledgement after the call began, and
    only then is the barrier [M400] written.  [move] returns normally only
    when both were written, and on a board that never acknowledges it writes
    the line only.  Nothing else is written. *)
Theorem move_writes_line_then_barrier
  (fuel : nat) (x y z : option float) (feed_rate : float) (s : t) :
  MarlinSerial.sim (ser s) = false ->
  match z with Some zv => is_safe_height s zv = true | None => True end ->
  let cmd :=
    (((("G0 F" ++ PyStr.format_f (Float.mul feed_rate (Float.of_Z 60)))
         ++ axis "X" x) ++ axis "Y" y) ++ axis "Z" z)%string in
  let line := (cmd ++ PyStr.LF)%string in
  let barrier := ("M400" ++ PyStr.LF)%string in
  let s1 := snd (logger (LogMoving x y z) (snd (on_ser (MarlinSerial.cmd cmd) s))) in
  let w := wait_cmd_completed fuel default_max_tries s1 in
  let r := move fuel x y z feed_rate s in
  written s1 = written s ++ [line]
  /\ MarlinSerial.reads (ser s1) = MarlinSerial.reads (ser s)
  /\ match fst w with
     | Ok _ =>
         written (snd r) = written s ++ [line; barrier]
         /\ exists i,
              (MarlinSerial.reads (ser s) <= i < MarlinSerial.reads (ser (snd w)))%nat
              /\ MarlinSerial.rx (ser s) i = OK_MSG
     | Raise ex => r = (Raise ex, snd w) /\ written (snd r) = written s ++ [line]
     | OutOfFuel => r = (OutOfFuel, snd w) /\ written (snd r) = written s ++ [line]
     end
  /\ (fst r = Ok tt -> written (snd r) = written s ++ [line; barrier])
  /\ ((forall i, (MarlinSerial.reads (ser s) <= i)%nat ->
                 MarlinSerial.rx (ser s) i <> OK_MSG) ->
      written (snd r) = written s ++ [line] /\ fst r <> Ok tt).
Proof.
  intros E Safe cmd line barrier s1 w r.
  assert (G : match z with
              | Some zv => negb (is_safe_height s zv)
              | None => false
              end = false).
  { destruct z as [zv |]; [rewrite Safe |]; reflexivity. }
  assert (E1 : s1 = mk (MarlinSerial.mk false (MarlinSerial.rx (ser s))
                          (MarlinSerial.reads (ser s))
                          (MarlinSerial.sent (ser s) ++ [line])
                          (MarlinSerial.clears (ser s)) (MarlinSerial.slept (ser s))
                          (MarlinSerial.closed (ser s)))
                       (safe_height s) (log s ++ [LogMoving x y z]) (slept s)).
  { subst s1. rewrite written_cmd by exact E. reflexivity. }
  assert (Em : r = bind (wait_cmd_completed fuel default_max_tries)
                        (fun _ => wait_move_completed fuel) s1).
  { subst r. rewrite E1. unfold move, bind at 1, get. rewrite G.
    unfold bind at 1. fold cmd. rewrite written_cmd by exact E.
    unfold bind at 1, logger, modify. cbn [fst snd ser safe_height log slept].
    reflexivity. }
  assert (W1 : written (snd w) = written s ++ [line]).
  { subst w. rewrite written_wait_cmd_completed, E1. reflexivity. }
  assert (S1 : MarlinSerial.sim (ser s1) = false) by (rewrite E1; reflexivity).
  assert (Rx : MarlinSerial.rx (ser s1) = MarlinSerial.rx (ser s)
               /\ MarlinSerial.reads (ser s1) = MarlinSerial.reads (ser s))
    by (rewrite E1; split; reflexivity).
  destruct Rx as [Rx Rd].
  assert (C : match fst w with
     | Ok _ =>
         written (snd r) = written s ++ [line; barrier]
         /\ exists i,
              (MarlinSerial.reads (ser s) <= i < MarlinSerial.reads (ser (snd w)))%nat
              /\ MarlinSerial.rx (ser s) i = OK_MSG
     | Raise ex => r = (Raise ex, snd w) /\ written (snd r) = written s ++ [line]
     | OutOfFuel => r = (OutOfFuel, snd w) /\ written (snd r) = written s ++ [line]
     end).
  { rewrite Em. unfold bind. fold w.
    pose proof (sim_wait_cmd_completed fuel default_max_tries s1) as S2.
    fold w in S2. cbn beta in S2. rewrite S1 in S2.
    pose proof (wait_cmd_completed_acknowledged fuel default_max_tries s1 (snd w)) as Ak.
    fold w in Ak.
    destruct w as [[m1 | ex |] s2]; cbn [fst snd] in *;
      [| split; [reflexivity | exact W1] | split; [reflexivity | exact W1]].
    split.
    - unfold wait_move_completed, bind.
      assert (Ec : on_ser MarlinSerial.clear s2
                   = (Ok tt, snd (on_ser MarlinSerial.clear s2))) by reflexivity.
      rewrite Ec.
      pose proof (written_on_ser_clear s2) as W2.
      assert (S3 : MarlinSerial.sim (ser (snd (on_ser MarlinSerial.clear s2))) = false).
      { unfold on_ser, MarlinSerial.clear, modify. rewrite S2. reflexivity. }
      remember (snd (on_ser MarlinSerial.clear s2)) as s3 eqn:E3. clear E3 Ec.
      rewrite written_cmd by exact S3.
      match goal with
      | |- context [wait_cmd_completed fuel ?mt ?s4] =>
          pose proof (written_wait_cmd_completed fuel mt s4) as W3;
          destruct (wait_cmd_completed fuel mt s4) as [[m2 | ex |] s5]
      end; unfold ret; cbn [fst snd] in *; rewrite W3; unfold written in *;
        cbn [ser MarlinSerial.sent] in *; rewrite W2, W1;
        rewrite <- app_assoc; reflexivity.
    - destruct (Ak m1 S1 eq_refl) as (i & B & R).
      exists i. rewrite <- Rx, <- Rd. split; assumption. }
  split; [rewrite E1; reflexivity |].
  split; [exact Rd |].
  split; [exact C |].
  split.
  - intros Ok_. destruct (fst w) as [m1 | ex |].
    + exact (proj1 C).
    + destruct C as [C _]. rewrite C in Ok_. discriminate.
    + destruct C as [C _]. rewrite C in Ok_. discriminate.
  - intros Never. destruct (fst w) as [m1 | ex |].
    + destruct C as [_ (i & [B _] & R)]. exfalso. exact (Never i B R).
    + destruct C as [C Wr]. split; [exact Wr |]. rewrite C. discriminate.
    + destruct C as [C Wr]. split; [exact Wr |]. rewrite C. discriminate.
Qed.

Lemma move_writes_line_then_barrier_witness :
  let s := init false Demo.prompt in
  let r := move 3 (Some (Float.of_Z 1)) None (Some (Float.of_Z 2)) (Float.of_Z 5) s in
  let line := ("G0 F300.000000X1.000000Z2.000000" ++ PyStr.LF)%string in
  MarlinSerial.sim (ser s) = false
  /\ is_safe_height s (Float.of_Z 2) = true
  /\ fst r = Ok tt
  /\ written (snd r) = written s ++ [line; ("M400" ++ PyStr.LF)%string].
Proof.
  intros s r line.
  assert (E : MarlinSerial.sim (ser s) = false) by reflexivity.
  assert (Safe : is_safe_height s (Float.of_Z 2) = true) by reflexivity.
  assert (R : fst r = Ok tt) by (vm_compute; reflexivity).
  split; [exact E |]. split; [exact Safe |]. split; [exact R |].
  exact (proj1 (proj2 (proj2 (proj2
           (move_writes_line_then_barrier 3 (Some (Float.of_Z 1)) None
              (Some (Float.of_Z 2)) (Float.of_Z 5) s E Safe)))) R).
Defined.

(** On a board that never answers, [move] gives up after the line: the
    barrier is not written. *)
Lemma move_on_silent_board_writes_no_barrier :
  let s := init false Demo.silent in
  let r := move 20 (Some (Float.of_Z 1)) None (Some (Float.of_Z 2)) (Float.of_Z 5) s in
  fst r = Raise IOError
  /\ written (snd r) = [("G0 F300.000000X1.000000Z2.000000" ++ PyStr.LF)%string].
Proof. vm_compute. repeat split. Qed.

End ControllerWrites.

Section ControllerOperations.

Import Marlin.

Lemma written_get_position (fuel : nat) (s : t) :
  MarlinSerial.sim (ser s) = false ->
  written (snd (get_position fuel s)) = written s ++ [("M114" ++ PyStr.LF)%string].
Proof.
  intros E. unfold get_position. unfold bind at 1. rewrite written_cmd by exact E.
  match goal with
  | |- written (snd (?m ?s1)) = _ =>
      assert (P : preserves written m);
      [| rewrite (P s1); reflexivity]
  end.
  apply preserves_bind; [apply written_on_ser_read | intros reply].
  apply preserves_bind; [apply written_wait_cmd_completed | intros _].
  apply preserves_try_except; [apply preserves_lift_pure |].
  apply preserves_bind; [intros s0; reflexivity | intros _; apply preserves_ret].
Qed.

(** X11: [relative_move] needs a Z offset.  With [z = None] it never
    returns normally: once the position has been read, adding [None] to the
    current height raises [TypeError]; on a real link the position query
    [M114] is the only line written, no motion command follows. *)
Theorem relative_move_without_z_raises
  (fuel : nat) (x y : option float) (feed_rate : float) (s : t) :
  let r := relative_move fuel x y None feed_rate s in
  fst r <> Ok tt
  /\ (forall pos, fst (get_position fuel s) = Ok pos -> fst r = Raise TypeError)
  /\ snd r = snd (get_position fuel s)
  /\ (MarlinSerial.sim (ser s) = false ->
      written (snd r) = written s ++ [("M114" ++ PyStr.LF)%string]).
Proof.
  intros r.
  assert (E : r = match get_position fuel s with
                  | (Ok _, s') => (Raise TypeError, s')
                  | (Raise ex, s') => (Raise ex, s')
                  | (OutOfFuel, s') => (OutOfFuel, s')
                  end).
  { subst r. unfold relative_move, bind at 1.
    destruct (get_position fuel s) as [[pos | ex |] s']; reflexivity. }
  assert (S' : snd r = snd (get_position fuel s)).
  { rewrite E. destruct (get_position fuel s) as [[pos | ex |] s']; reflexivity. }
  split; [| split; [| split]].
  - rewrite E. destruct (get_position fuel s) as [[pos | ex |] s']; discriminate.
  - intros pos P. rewrite E.
    destruct (get_position fuel s) as [[pos' | ex |] s']; cbn in P;
      try discriminate. reflexivity.
  - exact S'.
  - intros Hs. rewrite S'. apply written_get_position. exact Hs.
Qed.

Lemma relative_move_without_z_raises_witness :
  fst (relative_move 3 (Some (Float.of_Z 1)) None None (Float.of_Z 5)
         (init false Demo.at_95))
  = Raise TypeError
  /\ written (snd (relative_move 3 (Some (Float.of_Z 1)) None None (Float.of_Z 5)
                     (init false Demo.at_95)))
     = [("M114" ++ PyStr.LF)%string].
Proof.
  destruct (relative_move_without_z_raises 3 (Some (Float.of_Z 1)) None
              (Float.of_Z 5) (init false Demo.at_95)) as (_ & P & _ & W).
  split;
    [ apply (P (Float.of_Z 0, Float.of_Z 0, Float.of_Z 95)); vm_compute; reflexivity
    | apply W; reflexivity ].
Defined.

(** X12: [return_to_pos] tests its axis flags with [is not None].  A flag
    that is [False] selects its axis just as [True] does: for boolean flags
    the line written is always [G61 XYZ S<slot>]. *)
Theorem return_to_pos_ignores_flags
  (fuel : nat) (x y z : bool) (slot : Z) (s : t) :
  return_to_pos fuel (Some x) (Some y) (Some z) slot s
  = return_to_pos fuel (Some true) (Some true) (Some true) slot s
  /\ (MarlinSerial.sim (ser s) = false ->
      written (snd (return_to_pos fuel (Some x) (Some y) (Some z) slot s))
      = written s ++ [("G61 XYZ S" ++ PyStr.str_int slot ++ PyStr.LF)%string]).
Proof.
  split; [reflexivity |].
  intros E. unfold return_to_pos. cbn [given]. unfold bind at 1.
  rewrite written_cmd by exact E.
  match goal with
  | |- written (snd (?m ?s1)) = _ =>
      assert (P : preserves written m);
      [| rewrite (P s1); reflexivity]
  end.
  apply preserves_bind; [apply written_wait_cmd_completed | intros _].
  apply preserves_ret.
Qed.

Lemma return_to_pos_ignores_flags_witness :
  written (snd (return_to_pos 3 (Some false) (Some false) (Some true) 0
                  (init false Demo.prompt)))
  = [("G61 XYZ S0" ++ PyStr.LF)%string].
Proof.
  apply (proj2 (return_to_pos_ignores_flags 3 false false true 0
                  (init false Demo.prompt))).
  reflexivity.
Defined.

(** The line [home] writes for the requested axes. *)
Lemma home_writes_some (fuel : nat) (x y z : bool) (s : t) :
  MarlinSerial.sim (ser s) = false ->
  (x || y || z)%bool = true ->
  written (snd (home fuel x y z s))
  = written s
    ++ [((("G28" ++ (if x then " X" else EmptyString))
            ++ (if y then " Y" else EmptyString))
           ++ (if z then " Z" else EmptyString) ++ PyStr.LF)%string].
Proof.
  intros E Any. unfold home.
  assert (G : (Bool.eqb x y && Bool.eqb y z && negb x)%bool = false)
    by (destruct x, y, z; try reflexivity; discriminate).
  rewrite G. unfold bind at 1.
  assert (Ec : on_ser MarlinSerial.clear s
               = (Ok tt, snd (on_ser MarlinSerial.clear s))) by reflexivity.
  rewrite Ec.
  pose proof (written_on_ser_clear s) as W0.
  assert (S0 : MarlinSerial.sim (ser (snd (on_ser MarlinSerial.clear s))) = false).
  { unfold on_ser, MarlinSerial.clear, modify. rewrite E. cbn. reflexivity. }
  remember (snd (on_ser MarlinSerial.clear s)) as s0 eqn:E0. clear E0 Ec.
  unfold bind at 1. rewrite written_cmd by exact S0.
  match goal with
  | |- written (snd (?m ?s1)) = _ =>
      assert (P : preserves written m)
  end.
  { apply preserves_bind; [intros s1; reflexivity | intros _].
    apply preserves_bind; [apply written_wait_cmd_completed | intros _].
    apply preserves_ret. }
  rewrite P. unfold written in *. cbn [ser MarlinSerial.sent]. rewrite W0.
  destruct x, y, z; try discriminate; reflexivity.
Qed.

(** X13: [home] with no axis requested does nothing at all; with an axis
    requested it writes, on a real link, exactly one [G28] line that names
    the requested axes in the order X, Y, Z, whatever the board answers
    afterwards. *)
Theorem home_writes_requested_axes (fuel : nat) (x y z : bool) (s : t) :
  home fuel false false false s = (Ok tt, s)
  /\ (MarlinSerial.sim (ser s) = false ->
      (x || y || z)%bool = true ->
      written (snd (home fuel x y z s))
      = written s
        ++ [((("G28" ++ (if x then " X" else EmptyString))
                ++ (if y then " Y" else EmptyString))
               ++ (if z then " Z" else EmptyString) ++ PyStr.LF)%string]).
Proof.
  split; [reflexivity | apply home_writes_some].
Qed.

Lemma home_writes_requested_axes_witness :
  written (snd (home 3 true false true (init false Demo.silent)))
  = [("G28 X Z" ++ PyStr.LF)%string].
Proof.
  apply (proj2 (home_writes_requested_axes 3 true false true
                  (init false Demo.silent))); reflexivity.
Defined.

End ControllerOperations.

(** ** The jog slot *)

Section JogSlot.

Import Jog.

Lemma update_moving (ends : bool) (x y z : option float) ax ay az f r th :
  ContinuousMove.all_zero
    (ContinuousMove.set_axis ax x, ContinuousMove.set_axis ay y,
     ContinuousMove.set_axis az z) = false ->
  ContinuousMove.update ends x y z (ContinuousMove.mk (ax, ay, az) f r th)
  = (Ok true,
     ContinuousMove.mk
       (ContinuousMove.set_axis ax x, ContinuousMove.set_axis ay y,
        ContinuousMove.set_axis az z) f r th).
Proof.
  intros Z. unfold ContinuousMove.update, bind, modify, get.
  cbn [ContinuousMove.active ContinuousMove.feed_rate ContinuousMove.running
       ContinuousMove.thread fst snd].
  rewrite Z. reflexivity.
Qed.

Lemma update_halting (ends : bool) (x y z : option float) ax ay az f r th :
  ContinuousMove.all_zero
    (ContinuousMove.set_axis ax x, ContinuousMove.set_axis ay y,
     ContinuousMove.set_axis az z) = true ->
  ContinuousMove.update ends x y z (ContinuousMove.mk (ax, ay, az) f r th)
  = let stopped th' :=
      ContinuousMove.mk
        (ContinuousMove.set_axis ax x, ContinuousMove.set_axis ay y,
         ContinuousMove.set_axis az z) f false th' in
    match th with
    | ContinuousMove.Unstarted =>
        (Raise RuntimeError, stopped ContinuousMove.Unstarted)
    | ContinuousMove.Alive =>
        if ends then (Ok false, stopped ContinuousMove.Finished)
        else (OutOfFuel, stopped ContinuousMove.Alive)
    | ContinuousMove.Finished => (Ok false, stopped ContinuousMove.Finished)
    end.
Proof.
  intros Z. unfold ContinuousMove.update, bind, modify, get.
  cbn [ContinuousMove.active ContinuousMove.feed_rate ContinuousMove.running
       ContinuousMove.thread fst snd].
  rewrite Z. destruct th, ends; reflexivity.
Qed.

Ltac jog_cbn :=
  cbn [fst snd continuous_movement marlin thread_ends ContinuousMove.running
       ContinuousMove.thread ContinuousMove.active ContinuousMove.feed_rate].

(** X14: [continuous_update] keeps the jog slot in working order whenever it
    returns: the slot is empty or holds a started movement with an axis in
    motion.  On an occupied slot it returns when the update leaves an axis in
    motion, and then keeps the slot; when the update leaves every axis at
    zero it joins the jog thread, with no timeout: it returns, with the slot
    emptied, only when that thread comes to an end, and otherwise it does not
    return and the stopped movement stays in the slot. *)
Theorem continuous_update_keeps_order (x y z : option float) (s : Jog.t) :
  in_order s ->
  let r := continuous_update x y z s in
  (fst r = Ok tt -> in_order (snd r))
  /\ (forall c, continuous_movement s = Some c ->
      let '(ax, ay, az) := ContinuousMove.active c in
      let halt :=
        ContinuousMove.all_zero
          (ContinuousMove.set_axis ax x, ContinuousMove.set_axis ay y,
           ContinuousMove.set_axis az z) in
      (fst r = Ok tt <-> halt = false \/ thread_ends s = true)
      /\ (fst r = Ok tt -> (continuous_movement (snd r) = None <-> halt = true))
      /\ (fst r <> Ok tt ->
          fst r = OutOfFuel
          /\ exists c', continuous_movement (snd r) = Some c'
                        /\ ContinuousMove.running c' = false
                        /\ ContinuousMove.thread c' = ContinuousMove.Alive))
  /\ marlin (snd r) = marlin s
  /\ thread_ends (snd r) = thread_ends s.
Proof.
  intros O r. subst r. unfold in_order in O. unfold continuous_update, bind, get.
  destruct s as [m e [c |]]; cbn [continuous_movement marlin thread_ends] in *.
  - destruct O as (R & T & Z).
    destruct c as [[[ax ay] az] f run th]. cbn in R, T, Z. subst run th.
    unfold on_movement. cbn [continuous_movement marlin thread_ends].
    destruct (ContinuousMove.all_zero
                (ContinuousMove.set_axis ax x, ContinuousMove.set_axis ay y,
                 ContinuousMove.set_axis az z)) eqn:A.
    + rewrite (update_halting e x y z ax ay az f true ContinuousMove.Alive A).
      cbv zeta. destruct e; jog_cbn.
      * split; [intros _; exact I |].
        split; [| split; reflexivity].
        intros c' E. injection E as <-. cbn [ContinuousMove.active]. cbv zeta.
        rewrite A. split; [| split].
        -- split; [intros _; right; reflexivity | reflexivity].
        -- intros _. split; reflexivity.
        -- intros N. contradiction N. reflexivity.
      * split; [discriminate |].
        split; [| split; reflexivity].
        intros c' E. injection E as <-. cbn [ContinuousMove.active]. cbv zeta.
        rewrite A. split; [| split].
        -- split; [discriminate | intros [N | N]; discriminate].
        -- discriminate.
        -- intros _. split; [reflexivity |].
           eexists. split; [reflexivity | split; reflexivity].
    + rewrite (update_moving e x y z ax ay az f true ContinuousMove.Alive A). jog_cbn.
      split; [intros _; unfold in_order; cbn; auto |].
      split; [| split; reflexivity].
      intros c' E. injection E as <-. cbn [ContinuousMove.active]. cbv zeta.
      rewrite A. split; [| split].
      * split; [intros _; left; reflexivity | reflexivity].
      * intros _. split; discriminate.
      * intros N. contradiction N. reflexivity.
  - unfold modify, on_movement. cbn [continuous_movement marlin thread_ends fst snd].
    destruct (ContinuousMove.all_zero
                (ContinuousMove.set_axis Float.zero x,
                 ContinuousMove.set_axis Float.zero y,
                 ContinuousMove.set_axis Float.zero z)) eqn:A.
    + unfold ContinuousMove.new.
      rewrite (update_halting e x y z _ _ _ 1 false ContinuousMove.Unstarted A).
      jog_cbn.
      split; [discriminate | split; [discriminate | split; reflexivity]].
    + unfold ContinuousMove.new.
      rewrite (update_moving e x y z _ _ _ 1 false ContinuousMove.Unstarted A).
      jog_cbn.
      split; [intros _; unfold in_order; cbn; auto |].
      split; [discriminate | split; reflexivity].
Qed.

Lemma continuous_update_keeps_order_witness :
  let s := snd (continuous_update (Some (Float.of_Z 1)) None None
                  (Jog.mk (Marlin.init false Demo.prompt) true None)) in
  in_order s
  /\ fst (continuous_update (Some (Float.of_Z 0)) None None s) = Ok tt
  /\ continuous_movement (snd (continuous_update (Some (Float.of_Z 0)) None None s))
     = None.
Proof.
  assert (O : in_order (snd (continuous_update (Some (Float.of_Z 1)) None None
                               (Jog.mk (Marlin.init false Demo.prompt) true None)))).
  { apply (proj1 (continuous_update_keeps_order (Some (Float.of_Z 1)) None None
                    (Jog.mk (Marlin.init false Demo.prompt) true None) I)).
    reflexivity. }
  split; [exact O |].
  destruct (continuous_update_keeps_order (Some (Float.of_Z 0)) None None _ O)
    as (_ & P & _).
  specialize (P _ eq_refl). cbn in P. destruct P as (P1 & P2 & _).
  assert (R : fst (continuous_update (Some (Float.of_Z 0)) None None
                     (snd (continuous_update (Some (Float.of_Z 1)) None None
                             (Jog.mk (Marlin.init false Demo.prompt) true None))))
              = Ok tt)
    by (apply P1; right; reflexivity).
  split; [exact R | apply (P2 R); reflexivity].
Defined.

(** A halt whose jog thread never ends: [continuous_update] does not return,
    and the stopped movement stays in the slot. *)
Lemma halt_waits_for_endless_jog_thread :
  let s := snd (continuous_update (Some (Float.of_Z 1)) None None
                  (Jog.mk (Marlin.init false Demo.prompt) false None)) in
  let r := continuous_update (Some (Float.of_Z 0)) None None s in
  in_order s
  /\ fst r = OutOfFuel
  /\ option_map ContinuousMove.running (continuous_movement (snd r)) = Some false.
Proof. vm_compute. repeat split; discriminate. Qed.

(** X15: a halt on an empty jog slot fails and leaves a dead movement behind.
    When no movement exists and every given axis value is zero,
    [continuous_update] creates a movement, finds all axes at rest and joins
    its thread before it was started: [RuntimeError].  The movement stays in
    the slot, so the next request to move is accepted although its thread
    never starts. *)
Theorem halt_on_empty_slot_raises (x y z : option float) (s : Jog.t) :
  continuous_movement s = None ->
  ContinuousMove.all_zero
    (ContinuousMove.set_axis Float.zero x, ContinuousMove.set_axis Float.zero y,
     ContinuousMove.set_axis Float.zero z) = true ->
  let r := continuous_update x y z s in
  fst r = Raise RuntimeError
  /\ (exists c, continuous_movement (snd r) = Some c
                /\ ContinuousMove.thread c = ContinuousMove.Unstarted
                /\ ContinuousMove.running c = false)
  /\ forall d,
       Float.eqb d Float.zero = false ->
       let r' := continuous_update (Some d) None None (snd r) in
       fst r' = Ok tt
       /\ exists c, continuous_movement (snd r') = Some c
                    /\ ContinuousMove.thread c = ContinuousMove.Unstarted
                    /\ ContinuousMove.running c = false.
Proof.
  intros N A r. destruct s as [m e slot]. cbn in N. subst slot.
  assert (E : continuous_update x y z (Jog.mk m e None)
              = (Raise RuntimeError,
                 Jog.mk m e (Some (ContinuousMove.mk
                                     (ContinuousMove.set_axis Float.zero x,
                                      ContinuousMove.set_axis Float.zero y,
                                      ContinuousMove.set_axis Float.zero z)
                                     1 false ContinuousMove.Unstarted)))).
  { unfold continuous_update, bind, get, modify, on_movement.
    cbn [continuous_movement marlin thread_ends fst snd]. unfold ContinuousMove.new.
    rewrite (update_halting e x y z _ _ _ 1 false ContinuousMove.Unstarted A).
    reflexivity. }
  subst r. rewrite E. cbn [fst snd continuous_movement].
  split; [reflexivity |].
  split; [eexists; split; [reflexivity | split; reflexivity] |].
  intros d D. unfold continuous_update, bind, get, modify, on_movement.
  cbn [continuous_movement marlin thread_ends fst snd].
  rewrite update_moving.
  - cbn [fst snd continuous_movement]. split; [reflexivity |].
    eexists. split; [reflexivity | split; reflexivity].
  - unfold ContinuousMove.all_zero. cbn [ContinuousMove.set_axis]. rewrite D. reflexivity.
Qed.

Lemma halt_on_empty_slot_raises_witness :
  fst (continuous_update (Some (Float.of_Z 0)) None None
         (Jog.mk (Marlin.init false Demo.prompt) true None)) = Raise RuntimeError.
Proof.
  apply (halt_on_empty_slot_raises (Some (Float.of_Z 0)) None None
           (Jog.mk (Marlin.init false Demo.prompt) true None) eq_refl eq_refl).
Defined.

End JogSlot.

(** ** The attack registry *)

Section Registry.

Import AttackImporter.

Context {A : Type}.

Lemma existsb_eqb_In (n : string) (names : list string) :
  existsb (String.eqb n) names = true <-> In n names.
Proof.
  rewrite existsb_exists. split.
  - intros (m & Hm & E). apply String.eqb_eq in E. subst m. exact Hm.
  - intros H. exists n. split; [exact H | apply String.eqb_refl].
Qed.

Lemma check_names_from_spec (l : list (attack_class A)) :
  forall names,
    (check_names_from names l = Ok tt
     <-> NoDup (map name l) /\ forall a, In a l -> ~ In (name a) names)
    /\ (check_names_from names l = Ok tt
        \/ check_names_from names l = Raise Exception).
Proof.
  induction l as [| a l IH]; intros names; cbn [check_names_from map].
  - split; [| left; reflexivity].
    split; [intros _; split; [constructor | intros ? []] | reflexivity].
  - destruct (existsb (String.eqb (name a)) names) eqn:E.
    + split; [| right; reflexivity].
      split; [discriminate |].
      intros [_ H]. exfalso. apply (H a (or_introl eq_refl)).
      apply existsb_eqb_In. exact E.
    + assert (Hn : ~ In (name a) names).
      { intros H. apply existsb_eqb_In in H. congruence. }
      destruct (IH (names ++ [name a])) as [IH1 IH2]. split; [| exact IH2].
      rewrite IH1. split.
      * intros [ND H]. split.
        -- constructor; [| exact ND].
           intros I. apply in_map_iff in I. destruct I as (b & Eb & Ib).
           apply (H b Ib). apply in_or_app. right. left. symmetry. exact Eb.
        -- intros b [<- | Ib]; [exact Hn |].
           intros I. apply (H b Ib). apply in_or_app. left. exact I.
      * intros [ND H]. inversion ND as [| ? ? Ha ND']. subst. split; [exact ND' |].
        intros b Ib I. apply in_app_or in I. destruct I as [I | [I | []]].
        -- exact (H b (or_intror Ib) I).
        -- apply Ha. rewrite I. apply in_map. exact Ib.
Qed.

Lemma check_names_distinct (imp : t A) :
  (check_names imp = Ok tt <-> NoDup (get_attack_names imp))
  /\ (check_names imp = Raise Exception <-> ~ NoDup (get_attack_names imp)).
Proof.
  unfold check_names, get_attack_names.
  destruct (check_names_from_spec (attack_cls imp) []) as [S T].
  assert (S' : check_names_from [] (attack_cls imp) = Ok tt
               <-> NoDup (map name (attack_cls imp))).
  { rewrite S. split; [intros [H _]; exact H | intros H; split; [exact H | auto]]. }
  split; [exact S' |].
  split.
  - intros R N. apply S' in N. congruence.
  - intros N. destruct T as [T | T]; [| exact T].
    exfalso. apply N. apply S'. exact T.
Qed.


(** X16: [__check_names] passes exactly when the loaded classes have pairwise
    different names; otherwise it raises [Exception], and nothing else. *)
Theorem check_names_iff_distinct (imp : t A) :
  (check_names imp = Ok tt <-> NoDup (get_attack_names imp))
  /\ (check_names imp = Raise Exception <-> ~ NoDup (get_attack_names imp)).
Proof.
  exact (check_names_distinct imp).
Qed.

Lemma find_first_of_distinct (l : list (attack_class A)) (c : attack_class A) :
  NoDup (map name l) -> In c l ->
  find (name_is (JStr (name c))) l = Some c.
Proof.
  induction l as [| a l IH]; intros ND I; [destruct I |].
  cbn [find name_is]. inversion ND as [| ? ? Ha ND']. subst.
  destruct I as [-> | I].
  - rewrite String.eqb_refl. reflexivity.
  - destruct (String.eqb (name a) (name c)) eqn:E.
    + apply String.eqb_eq in E. exfalso. apply Ha. rewrite E.
      apply in_map. exact I.
    + apply IH; assumption.
Qed.

(** X17: once [__check_names] has passed, [get_attack_by_name] finds every
    loaded class under its own name, and whatever it returns for a name is a
    loaded class of that name; a name that is not a string finds nothing. *)
Theorem lookup_after_check (imp : t A) :
  check_names imp = Ok tt ->
  (forall c, In c (attack_cls imp) ->
             get_attack_by_name imp (JStr (name c)) = Some c)
  /\ (forall wanted c, get_attack_by_name imp wanted = Some c ->
                       In c (attack_cls imp) /\ wanted = JStr (name c))
  /\ (forall wanted, (forall s, wanted <> JStr s) ->
                     get_attack_by_name imp wanted = None).
Proof.
  intros C. apply check_names_distinct in C. unfold get_attack_names in C.
  unfold get_attack_by_name. split; [| split].
  - intros c I. apply find_first_of_distinct; assumption.
  - intros wanted c F. apply find_some in F. destruct F as [I N].
    split; [exact I |]. destruct wanted; try discriminate.
    cbn in N. apply String.eqb_eq in N. congruence.
  - intros wanted W. destruct (find (name_is wanted) (attack_cls imp)) eqn:F;
      [| reflexivity].
    apply find_some in F. destruct F as [_ N].
    destruct wanted; try discriminate. exfalso. exact (W _ eq_refl).
Qed.

End Registry.

Lemma lookup_after_check_witness :
  AttackImporter.check_names Demo.registry = Ok tt
  /\ AttackImporter.get_attack_by_name Demo.registry (JStr "Demo")
     = Some (AttackImporter.mk_class "Demo" (Ok (Demo.mk 0 1))).
Proof.
  split; [reflexivity |].
  apply (proj1 (lookup_after_check Demo.registry eq_refl)
           (AttackImporter.mk_class "Demo" (Ok (Demo.mk 0 1)))).
  left. reflexivity.
Defined.

(** ** The frame buffers and the connected clients *)

Section FrameBuffer.

Import Camera.

Lemma store_keeps_newest (image : string) (frames : list string) :
  (List.length frames <= 5)%nat ->
  store image frames
  = skipn (List.length (frames ++ [image]) - 5) (frames ++ [image]).
Proof.
  intros L. unfold store. rewrite length_app. cbn [List.length].
  destruct (Nat.eqb (List.length frames) 5) eqn:E.
  - apply Nat.eqb_eq in E. rewrite E. cbn [Nat.add Nat.sub].
    rewrite skipn_app. rewrite E. cbn [Nat.sub skipn]. reflexivity.
  - apply Nat.eqb_neq in E.
    replace (List.length frames + 1 - 5)%nat with 0%nat by lia. reflexivity.
Qed.

Lemma capture_keeps_newest (images : list string) :
  forall frames,
    (List.length frames <= 5)%nat ->
    capture images frames
    = skipn (List.length (frames ++ images) - 5) (frames ++ images).
Proof.
  induction images as [| i images IH]; intros frames L; cbn [capture fold_left].
  - rewrite app_nil_r.
    replace (List.length frames - 5)%nat with 0%nat by lia. reflexivity.
  - fold (capture images (store i frames)).
    rewrite (store_keeps_newest i frames L).
    set (X := frames ++ [i]). set (k := (List.length X - 5)%nat).
    assert (LX : (List.length X <= 6)%nat).
    { unfold X. rewrite length_app. cbn. lia. }
    rewrite IH by (rewrite length_skipn; lia).
    replace (frames ++ i :: images) with (X ++ images)
      by (unfold X; rewrite <- app_assoc; reflexivity).
    replace (skipn k X ++ images) with (skipn k (X ++ images)).
    + rewrite skipn_skipn. f_equal. rewrite length_skipn.
      rewrite length_app. lia.
    + rewrite skipn_app. replace (k - List.length X)%nat with 0%nat by lia.
      reflexivity.
Qed.

(** X18: the capture loops keep the five newest frames.  From a buffer of at
    most five frames, storing [images] leaves exactly the last five of all
    frames seen, in order, so the buffer never holds more than five; and the
    frame handed out is the one stored last. *)
Theorem capture_keeps_last_five (images frames : list string) (unavailable : string) :
  (List.length frames <= 5)%nat ->
  capture images frames
  = skipn (List.length (frames ++ images) - 5) (frames ++ images)
  /\ (List.length (capture images frames) <= 5)%nat
  /\ (forall image,
        get_last_frame unavailable (capture (images ++ [image]) frames) = image).
Proof.
  intros L. split; [apply capture_keeps_newest; exact L |].
  split.
  - rewrite (capture_keeps_newest images frames L). rewrite length_skipn. lia.
  - intros image. unfold capture. rewrite fold_left_app. cbn [fold_left].
    unfold get_last_frame, store.
    match goal with |- context [?l ++ [image]] => set (fs := l) end.
    rewrite length_app. cbn [List.length].
    replace (Nat.ltb 0 (List.length fs + 1)) with true
      by (symmetry; apply Nat.ltb_lt; lia).
    apply last_last.
Qed.

Lemma capture_keeps_last_five_witness :
  capture ["f"; "g"]%string ["a"; "b"; "c"; "d"; "e"]%string
  = ["c"; "d"; "e"; "f"; "g"]%string.
Proof.
  rewrite (proj1 (capture_keeps_last_five ["f"; "g"]%string
                    ["a"; "b"; "c"; "d"; "e"]%string EmptyString
                    (Nat.le_refl 5))).
  reflexivity.
Defined.

End FrameBuffer.

Section Clients.

Import Connections.

Lemma existsb_nat_In (ws : nat) (l : list nat) :
  existsb (Nat.eqb ws) l = true <-> In ws l.
Proof.
  rewrite existsb_exists. split.
  - intros (w & Hw & E). apply Nat.eqb_eq in E. subst w. exact Hw.
  - intros H. exists ws. split; [exact H | apply Nat.eqb_refl].
Qed.

Lemma length_zero_nil {B} (l : list B) :
  Nat.eqb (List.length l) 0 = true <-> l = [].
Proof.
  destruct l; cbn; split; congruence.
Qed.

Lemma In_others (ws w : nat) (l : list nat) :
  In w (filter (fun w => negb (Nat.eqb ws w)) l) <-> In w l /\ w <> ws.
Proof.
  rewrite filter_In. split; intros [H N]; (split; [exact H |]).
  - intros ->. rewrite Nat.eqb_refl in N. discriminate.
  - apply Bool.negb_true_iff. apply Nat.eqb_neq. congruence.
Qed.

Lemma add_spec (ws : nat) (l : list nat) :
  NoDup l ->
  NoDup (add ws l) /\ (forall w, In w (add ws l) <-> w = ws \/ In w l)
  /\ Nat.eqb (List.length (add ws l)) 0 = false.
Proof.
  intros ND. unfold add. destruct (existsb (Nat.eqb ws) l) eqn:E.
  - apply existsb_nat_In in E. split; [exact ND |]. split.
    + intros w. split; [auto | intros [-> | H]; assumption].
    + destruct l; [destruct E | reflexivity].
  - split; [| split; [| reflexivity]].
    + constructor; [| exact ND]. intros H. apply existsb_nat_In in H. congruence.
    + intros w. cbn. split; intros [H | H]; auto.
Qed.

Lemma enter_leave_in_step (ws : nat) (s : Connections.t) :
  in_step s ->
  (fst (enter ws s) = Ok tt
   /\ in_step (snd (enter ws s))
   /\ forall w, In w (connected (snd (enter ws s))) <-> w = ws \/ In w (connected s))
  /\ (In ws (connected s) ->
      fst (leave ws s) = Ok tt
      /\ in_step (snd (leave ws s))
      /\ forall w, In w (connected (snd (leave ws s)))
                   <-> In w (connected s) /\ w <> ws)
  /\ (~ In ws (connected s) -> leave ws s = (Raise KeyError, s)).
Proof.
  intros (Hm & Hc & ND). destruct s as [l m c]. cbn [connected microscope calibration] in *.
  split; [| split].
  - destruct (add_spec ws l ND) as (ND' & I' & L').
    unfold enter, on_first_connected, bind, get, modify, ret, in_step.
    unfold modify. cbn [fst snd connected microscope calibration].
    destruct (Nat.eqb (List.length l) 0) eqn:E;
      cbn [fst snd connected microscope calibration Camera.start Camera.running];
      rewrite L'; cbn [negb].
    + repeat split; try assumption; apply I'.
    + rewrite Hm, Hc. cbn [negb]. repeat split; try assumption; apply I'.
  - intros I. unfold leave, remove, bind, get, modify, lift_pure, on_last_disconnected, ret.
    cbn [fst snd connected microscope calibration].
    rewrite (proj2 (existsb_nat_In ws l) I).
    cbn [fst snd connected microscope calibration].
    assert (Ll : Nat.eqb (List.length l) 0 = false) by (destruct l; [destruct I | reflexivity]).
    rewrite Ll in Hm, Hc. cbn [negb] in Hm, Hc.
    unfold modify. cbn [fst snd connected microscope calibration].
    destruct (Nat.eqb
                (List.length (filter (fun w => negb (Nat.eqb ws w)) l)) 0) eqn:E;
      cbn [fst snd connected microscope calibration];
      (split; [reflexivity |]); (split; [| intros w; apply In_others]);
      unfold in_step; cbn [fst snd connected microscope calibration Camera.stop Camera.running];
      rewrite ?E; cbn [negb]; repeat split; try assumption;
      apply NoDup_filter; exact ND.
  - intros N. unfold leave, remove, bind, get, lift_pure.
    cbn [fst snd connected].
    destruct (existsb (Nat.eqb ws) l) eqn:E; [| reflexivity].
    apply existsb_nat_In in E. contradiction.
Qed.


(** X19: the cameras run exactly while a client is registered, and the set of
    clients has no duplicate.  The handler's entry keeps this and registers
    its client; the [finally] block keeps it and removes a registered client,
    and for a client that is not registered it raises [KeyError] and changes
    nothing. *)
Theorem cameras_follow_clients (ws : nat) (s : Connections.t) :
  in_step s ->
  (fst (enter ws s) = Ok tt
   /\ in_step (snd (enter ws s))
   /\ forall w, In w (connected (snd (enter ws s))) <-> w = ws \/ In w (connected s))
  /\ (In ws (connected s) ->
      fst (leave ws s) = Ok tt
      /\ in_step (snd (leave ws s))
      /\ forall w, In w (connected (snd (leave ws s)))
                   <-> In w (connected s) /\ w <> ws)
  /\ (~ In ws (connected s) -> leave ws s = (Raise KeyError, s)).
Proof.
  exact (enter_leave_in_step ws s).
Qed.

Lemma cameras_follow_clients_witness :
  let s := Connections.mk [] (Camera.mk false 0) (Camera.mk false 0) in
  in_step (snd (enter 7 s))
  /\ Camera.running (microscope (snd (enter 7 s))) = true.
Proof.
  assert (O : in_step (Connections.mk [] (Camera.mk false 0) (Camera.mk false 0))).
  { unfold in_step. cbn. repeat split. constructor. }
  destruct (cameras_follow_clients 7 _ O) as ((_ & P & _) & _).
  split; [exact P | reflexivity].
Defined.

Lemma filter_absent (ws : nat) (l : list nat) :
  ~ In ws l -> filter (fun w => negb (Nat.eqb ws w)) l = l.
Proof.
  induction l as [| a l IH]; intros N; [reflexivity |].
  cbn [filter]. destruct (Nat.eqb ws a) eqn:E.
  - apply Nat.eqb_eq in E. subst a. exfalso. apply N. left. reflexivity.
  - cbn [negb]. rewrite IH; [reflexivity |]. intros I. apply N. right. exact I.
Qed.

Lemma enter_new_client (ws : nat) (s : Connections.t) :
  ~ In ws (connected s) ->
  connected (snd (enter ws s)) = ws :: connected s.
Proof.
  intros N. destruct s as [l m c]. cbn [connected] in N.
  unfold enter, on_first_connected, bind, get, modify, ret.
  unfold modify. cbn [fst snd connected microscope calibration].
  assert (E : existsb (Nat.eqb ws) l = false).
  { destruct (existsb (Nat.eqb ws) l) eqn:E; [| reflexivity].
    apply existsb_nat_In in E. contradiction. }
  destruct (Nat.eqb (List.length l) 0);
    cbn [fst snd connected microscope calibration]; unfold add; rewrite E;
    reflexivity.
Qed.

Lemma served_restores (ws : nat) (served : ending)
  (s : Connections.t) :
  in_step s ->
  ~ In ws (connected s) ->
  let r := connection_handler ws None served s in
  fst r = match served with Closed => Ok tt | Failed e => Raise e end
  /\ connected (snd r) = connected s
  /\ in_step (snd r).
Proof.
  intros O N r. subst r.
  destruct (enter_leave_in_step ws s O) as ((Ee & Oe & Ie) & _).
  pose proof (enter_new_client ws s N) as Ce.
  destruct (enter_leave_in_step ws (snd (enter ws s)) Oe) as (_ & L & _).
  destruct L as (El & Ol & _); [apply Ie; left; reflexivity |].
  assert (Cl : connected (snd (leave ws (snd (enter ws s)))) = connected s).
  { clear - Ce N. revert Ce. destruct (snd (enter ws s)) as [l' m' c']. cbn [connected].
    intros ->. unfold leave, remove, on_last_disconnected, bind, get, modify, lift_pure, ret.
    unfold modify. cbn [fst snd connected microscope calibration existsb].
    rewrite Nat.eqb_refl. cbn [orb fst snd connected microscope calibration filter negb].
    rewrite Nat.eqb_refl. cbn [negb]. rewrite (filter_absent ws _ N).
    destruct (Nat.eqb (List.length (connected s)) 0); reflexivity. }
  unfold connection_handler, bind.
  destruct (enter ws s) as [oe se]. cbn [fst snd] in *. subst oe.
  destruct (leave ws se) as [ol sl]. cbn [fst snd] in *. subst ol.
  destruct served; cbn; auto.
Qed.


(** X20: a connection that is served to its end while no other connection
    starts or ends leaves the set of clients as it found it and the cameras
    in step with it, whatever the other clients are.  It returns when the
    gathered coroutines end with a closed connection and passes on any other
    exception, after the [finally] block has run. *)
Theorem served_connection_restores_clients (ws : nat) (served : ending)
  (s : Connections.t) :
  in_step s ->
  ~ In ws (connected s) ->
  let r := connection_handler ws None served s in
  fst r = match served with Closed => Ok tt | Failed e => Raise e end
  /\ connected (snd r) = connected s
  /\ in_step (snd r).
Proof.
  exact (served_restores ws served s).
Qed.

Lemma served_connection_restores_clients_witness :
  let s := Connections.mk [] (Camera.mk false 0) (Camera.mk false 0) in
  fst (connection_handler 7 None Closed s) = Ok tt
  /\ connected (snd (connection_handler 7 None Closed s)) = [].
Proof.
  assert (O : in_step (Connections.mk [] (Camera.mk false 0) (Camera.mk false 0))).
  { unfold in_step. cbn. repeat split. constructor. }
  destruct (served_connection_restores_clients 7 Closed _ O (fun H => H))
    as (P & Q & _).
  split; [exact P | exact Q].
Defined.

(** X21: a client whose first state update fails is never removed.  That
    send is outside the [try], so the handler ends with the exception and
    the [finally] block does not run: the client stays registered and the
    cameras keep running, also after every other connection has ended. *)
Theorem failed_welcome_keeps_client (ws : nat) (e served : ending)
  (s : Connections.t) :
  in_step s ->
  ~ In ws (connected s) ->
  let r := connection_handler ws (Some e) served s in
  (exists x, fst r = Raise x)
  /\ In ws (connected (snd r))
  /\ Camera.running (microscope (snd r)) = true
  /\ Camera.running (calibration (snd r)) = true
  /\ forall ws' served',
       ~ In ws' (connected (snd r)) ->
       let r' := connection_handler ws' None served' (snd r) in
       In ws (connected (snd r'))
       /\ Camera.running (microscope (snd r')) = true
       /\ Camera.running (calibration (snd r')) = true.
Proof.
  intros O N r.
  destruct (enter_leave_in_step ws s O) as ((Ee & Oe & Ie) & _).
  assert (R : snd r = snd (enter ws s) /\ exists x, fst r = Raise x).
  { subst r. unfold connection_handler, bind.
    destruct (enter ws s) as [oe se]. cbn [fst snd] in *. subst oe.
    destruct e; cbn; eauto. }
  destruct R as [R X]. rewrite R.
  assert (I : In ws (connected (snd (enter ws s)))) by (apply Ie; left; reflexivity).
  assert (Run : forall t, in_step t -> In ws (connected t) ->
                Camera.running (microscope t) = true
                /\ Camera.running (calibration t) = true).
  { intros t (Hm & Hc & _) It. rewrite Hm, Hc.
    destruct (connected t); [destruct It | split; reflexivity]. }
  split; [exact X |]. split; [exact I |].
  destruct (Run _ Oe I) as [Rm Rc]. split; [exact Rm |]. split; [exact Rc |].
  intros ws' served' N' r'.
  destruct (served_restores ws' served' _ Oe N') as (_ & C' & O').
  fold r' in C', O'.
  assert (I' : In ws (connected (snd r'))) by (rewrite C'; exact I).
  split; [exact I' |]. apply Run; assumption.
Qed.

Lemma failed_welcome_keeps_client_witness :
  let s := Connections.mk [] (Camera.mk false 0) (Camera.mk false 0) in
  In 7%nat (connected (snd (connection_handler 7 (Some Closed) Closed s)))
  /\ Camera.running (microscope (snd (connection_handler 7 (Some Closed) Closed s)))
     = true.
Proof.
  assert (O : in_step (Connections.mk [] (Camera.mk false 0) (Camera.mk false 0))).
  { unfold in_step. cbn. repeat split. constructor. }
  destruct (failed_welcome_keeps_client 7 Closed Closed _ O (fun H => H))
    as (_ & P & Q & _).
  split; [exact P | exact Q].
Defined.

End Clients.

(** ** The orchestration layer: modes and tasks *)

Section Related.

Context {S : Type} (R : S -> S -> Prop).
Hypothesis R_refl : forall s, R s s.
Hypothesis R_trans : forall a b c, R a b -> R b c -> R a c.

Lemma related_ret {B} (b : B) : related R (ret b).
Proof. intros s. apply R_refl. Qed.

Lemma related_raise {B} (e : exn) : related R (@raise S B e).
Proof. intros s. apply R_refl. Qed.

Lemma related_get : related R get.
Proof. intros s. apply R_refl. Qed.

Lemma related_lift_pure {B} (o : outcome B) : related R (lift_pure o).
Proof. intros s. apply R_refl. Qed.

Lemma related_modify (g : S -> S) : (forall s, R s (g s)) -> related R (modify g).
Proof. intros G s. apply G. Qed.

Lemma related_bind {B C} (m : M S B) (k : B -> M S C) :
  related R m -> (forall b, related R (k b)) -> related R (bind m k).
Proof.
  intros Hm Hk s. unfold bind. specialize (Hm s).
  destruct (m s) as [[b | e |] s1]; cbn in *; [| exact Hm | exact Hm].
  exact (R_trans _ _ _ Hm (Hk b s1)).
Qed.

Lemma related_try_except {B} (m h : M S B) (e : exn) :
  related R m -> related R h -> related R (try_except m e h).
Proof.
  intros Hm Hh s. unfold try_except. specialize (Hm s).
  destruct (m s) as [[b | e' |] s1]; cbn in *; try exact Hm.
  match goal with |- context [if ?c then _ else _] => destruct c end;
    [exact (R_trans _ _ _ Hm (Hh s1)) | exact Hm].
Qed.

End Related.

Section Modes.

Context {A : Type} `{Attack.Impl A}.

Import Helper.

Lemma enable_joystick_outcome (speed step : float) (h : Helper.t A) :
  let r := enable_joystick speed step h in
  fst r <> Ok true
  /\ state (snd r) = state h
  /\ task (snd r) = task h
  /\ started (snd r) = started h
  /\ marlin (snd r) = marlin h
  /\ (fst r = Raise AttributeError
      <-> State.mode (state h) = State.MANUAL_MODE
          /\ (joystick h <> None \/ joystick_plugged h = true))
  /\ (fst r = Ok false \/ fst r = Raise AttributeError).
Proof.
  destruct h as [imp m temp w j plugged ends th st stt lg].
  destruct stt as [md pos tmp prog atk sz].
  unfold enable_joystick, bind, get, modify, ret, lift_pure, State.attack_enabled,
    State.joystick_enabled.
  cbn [state State.mode joystick joystick_plugged task started marlin fst snd].
  destruct md; cbn [orb];
    try (cbn; repeat split; try discriminate; try (intros [? ?]; discriminate);
         auto; fail).
  destruct j as [j |]; [| destruct plugged]; cbn;
    repeat split; try discriminate; auto;
    try (intros [_ [N | N]]; [contradiction | discriminate]);
    left; discriminate.
Qed.


(** X22: [enable_joystick] never succeeds.  In attack or joystick mode it is
    refused, without a joystick device it logs and returns [False]; in every
    other case looking up [loop] on the joystick object raises
    [AttributeError] before a task is made.  The mode, the task and the
    controller are never changed by it. *)
Theorem enable_joystick_never_succeeds (speed step : float) (h : Helper.t A) :
  let r := enable_joystick speed step h in
  fst r <> Ok true
  /\ state (snd r) = state h
  /\ task (snd r) = task h
  /\ started (snd r) = started h
  /\ marlin (snd r) = marlin h
  /\ (fst r = Raise AttributeError
      <-> State.mode (state h) = State.MANUAL_MODE
          /\ (joystick h <> None \/ joystick_plugged h = true))
  /\ (fst r = Ok false \/ fst r = Raise AttributeError).
Proof.
  exact (enable_joystick_outcome speed step h).
Qed.

End Modes.

(** ** The command handler: what no message can do *)

Ltac rel rf tr leaf :=
  repeat first
    [ leaf
    | apply (related_ret _ rf)
    | apply (related_raise _ rf)
    | apply (related_get _ rf)
    | apply (related_lift_pure _ rf)
    | apply (related_bind _ tr); [| intros ?]
    | apply (related_try_except _ tr)
    | match goal with |- related _ (if ?c then _ else _) => destruct c end
    | match goal with |- related _ (match ?c with _ => _ end) => destruct c end ].

Section Handler.

Context {A : Type} `{Attack.Impl A} `{Builtin.Float}.

Import Helper Server Station.

(** *** Lifting a relation on the helper to the server *)

Lemma on_server_refl (R : Helper.t A -> Helper.t A -> Prop) :
  (forall h, R h h) -> forall s, on_server R s s.
Proof. intros Rr s. apply Rr. Qed.

Lemma on_server_trans (R : Helper.t A -> Helper.t A -> Prop) :
  (forall a b c, R a b -> R b c -> R a c) ->
  forall a b c, on_server R a b -> on_server R b c -> on_server R a c.
Proof. intros Rt a b c. apply Rt. Qed.

Lemma related_on_helper (R : Helper.t A -> Helper.t A -> Prop) {B}
  (m : M (Helper.t A) B) :
  related R m -> related (on_server R) (on_helper m).
Proof.
  intros Hm s. unfold on_server, on_helper. specialize (Hm (helper s)).
  destruct (m (helper s)) as [r h']. exact Hm.
Qed.

Lemma related_send (R : Helper.t A -> Helper.t A -> Prop) (p : packet) :
  (forall h, R h h) -> related (on_server R) (send p).
Proof. intros Rr s. apply Rr. Qed.

(** *** Joystick mode is closed *)

Lemma no_joystick_refl (h : Helper.t A) : no_joystick h h.
Proof. intros N. exact N. Qed.

Lemma no_joystick_trans (a b c : Helper.t A) :
  no_joystick a b -> no_joystick b c -> no_joystick a c.
Proof. unfold no_joystick. auto. Qed.

Ltac nj leaf := rel no_joystick_refl no_joystick_trans leaf.

Ltac nj_modify :=
  apply related_modify; intros ? N; cbn; first [exact N | discriminate].

Lemma nj_on_marlin {B} (m : M Marlin.t B) : related (@no_joystick A) (on_marlin m).
Proof.
  intros h. unfold on_marlin. destruct (m (marlin h)). intros N. exact N.
Qed.

Lemma nj_on_runner {B} (m : M (Worker.t A) B) : related (@no_joystick A) (on_runner m).
Proof.
  intros h. unfold on_runner. destruct (m (attack_runner h)). intros N. exact N.
Qed.

Lemma nj_start_task (tg : Thread.target) : related (@no_joystick A) (start_task tg).
Proof. unfold start_task. nj_modify. Qed.

Lemma nj_join_task : related (@no_joystick A) (@join_task A).
Proof. unfold join_task. nj ltac:(nj_modify). Qed.

Lemma nj_set_mode (md : State.mode_t) :
  md <> State.JOYSTICK_MODE -> related (@no_joystick A) (@set_mode A md).
Proof. intros D. unfold set_mode. apply related_modify. intros h _. exact D. Qed.

Lemma nj_enable_joystick (speed step : float) :
  related (@no_joystick A) (enable_joystick speed step).
Proof.
  intros h N.
  destruct (enable_joystick_outcome speed step h) as (_ & E & _).
  rewrite E. exact N.
Qed.

Ltac nj_leaf :=
  first [ apply nj_on_marlin | apply nj_on_runner | apply nj_start_task
        | apply nj_join_task | apply nj_set_mode; discriminate | nj_modify ].

Lemma nj_disable_joystick : related (@no_joystick A) (@disable_joystick A).
Proof. unfold disable_joystick. nj ltac:(nj_leaf). Qed.

Lemma nj_step (speed x y z : float) : related (@no_joystick A) (step speed x y z).
Proof. unfold step. nj ltac:(nj_leaf). Qed.

Lemma nj_home (x y z : bool) : related (@no_joystick A) (home x y z).
Proof. unfold home. nj ltac:(nj_leaf). Qed.

Lemma nj_move (speed x y z : float) : related (@no_joystick A) (move speed x y z).
Proof. unfold move. nj ltac:(nj_leaf). Qed.

Lemma nj_start_attack (name : json) : related (@no_joystick A) (start_attack name).
Proof. unfold start_attack. nj ltac:(nj_leaf). Qed.

Lemma nj_stop_attack : related (@no_joystick A) (@stop_attack A).
Proof. unfold stop_attack. nj ltac:(nj_leaf). Qed.

Lemma nj_set_safe_z (z : json) : related (@no_joystick A) (set_safe_z z).
Proof. unfold set_safe_z. nj ltac:(nj_leaf). Qed.

Lemma nj_update (fuel : nat) : related (@no_joystick A) (update fuel).
Proof. unfold update. nj ltac:(nj_leaf). Qed.

Lemma nj_get_state_json (fuel : nat) : related (@no_joystick A) (get_state_json fuel).
Proof. unfold get_state_json. nj ltac:(apply nj_update). Qed.

Ltac snj leaf :=
  rel (on_server_refl (@no_joystick A) no_joystick_refl)
      (on_server_trans (@no_joystick A) no_joystick_trans) leaf.

Lemma nj_run_command (cmd : json) (msg : list (string * json)) :
  related (on_server (@no_joystick A)) (run_command cmd msg).
Proof.
  unfold run_command, float_item, bool_item.
  snj ltac:(apply related_on_helper;
            first [ apply nj_enable_joystick | apply nj_disable_joystick
                  | apply nj_step | apply nj_home | apply nj_move
                  | apply nj_start_attack | apply nj_stop_attack
                  | apply nj_set_safe_z ]).
Qed.

Lemma nj_message_handler (fuel : nat) (msg : list (string * json)) :
  related (on_server (@no_joystick A)) (message_handler fuel msg).
Proof.
  unfold message_handler, send_error, send_state_update.
  snj ltac:(first [ apply related_send; apply no_joystick_refl
                  | apply nj_run_command
                  | apply related_on_helper; apply nj_get_state_json ]).
Qed.

(** X23: no message puts the station into joystick mode.  Whatever a client
    sends and however the handler ends, a station that is outside joystick
    mode is outside it afterwards; a new station starts in manual mode. *)
Theorem no_message_enters_joystick_mode (fuel : nat) (msg : list (string * json))
  (s : Server.t A) :
  State.mode (state (helper s)) <> State.JOYSTICK_MODE ->
  State.mode (state (helper (snd (message_handler fuel msg s))))
  <> State.JOYSTICK_MODE.
Proof. exact (nj_message_handler fuel msg s). Qed.

End Handler.

Section HandlerExamples.

#[local] Existing Instance Demo.builtin.

Lemma no_message_enters_joystick_mode_witness :
  let s := Server.mk Demo.station [] in
  let msg := Demo.command "enableJoystick" [("speed", JNum 5); ("step", JNum 1)] in
  State.mode (Helper.state (Server.helper (snd (Server.message_handler 5 msg s))))
  <> State.JOYSTICK_MODE.
Proof.
  apply (no_message_enters_joystick_mode 5
           (Demo.command "enableJoystick" [("speed", JNum 5); ("step", JNum 1)])
           (Server.mk Demo.station [])).
  vm_compute. discriminate.
Defined.

End HandlerExamples.

(** ** The command handler: one task at a time *)

Section Busy.

Context {A : Type} `{Attack.Impl A} `{Builtin.Float}.

Import Helper Server Station.

Lemma one_task_refl (h : Helper.t A) : one_task h h.
Proof. split; [reflexivity | intros _; split; reflexivity]. Qed.

Lemma one_task_trans (a b c : Helper.t A) :
  one_task a b -> one_task b c -> one_task a c.
Proof.
  intros [S1 K1] [S2 K2]. split; [congruence |].
  intros L. destruct (K2 L) as [M2 T2]. rewrite T2 in L.
  destruct (K1 L) as [M1 T1]. split; congruence.
Qed.

Ltac ot_modify :=
  apply related_modify; intros ?; split; [reflexivity | intros _; split; reflexivity].

Lemma ot_on_runner {B} (m : M (Worker.t A) B) : related (@one_task A) (on_runner m).
Proof.
  intros h. unfold on_runner. destruct (m (attack_runner h)).
  split; [reflexivity | intros _; split; reflexivity].
Qed.

Lemma ot_join_task : related (@one_task A) (@join_task A).
Proof.
  intros h. unfold join_task, bind, get, lift_pure, modify.
  destruct h as [imp m temp w j plugged ends th st stt lg].
  cbn [task task_ends]. destruct th as [| tg | tg]; cbn;
    try destruct (ends tg); cbn; split; try reflexivity;
    try discriminate; intros _; split; reflexivity.
Qed.

Lemma ot_set_mode (md : State.mode_t) : related (@one_task A) (@set_mode A md).
Proof. unfold set_mode. ot_modify. Qed.

Ltac ot_leaf :=
  first [ apply ot_on_runner | apply ot_join_task | apply ot_set_mode | ot_modify ].

Ltac ot leaf := rel one_task_refl one_task_trans leaf.

Lemma ot_disable_joystick : related (@one_task A) (@disable_joystick A).
Proof. unfold disable_joystick. ot ltac:(ot_leaf). Qed.

Lemma ot_stop_attack : related (@one_task A) (@stop_attack A).
Proof. unfold stop_attack. ot ltac:(ot_leaf). Qed.

(** [update] asks the controller for its position only when no task is
    alive. *)
Lemma ot_update (fuel : nat) : related (@one_task A) (update fuel).
Proof.
  intros h. destruct h as [imp m temp w j plugged ends th st stt lg].
  destruct stt as [md pos tmp prog atk sz].
  unfold update, bind, get, modify, set_mode, ret, is_running, on_marlin.
  destruct md, th; cbn -[Marlin.get_position];
    try (split; [reflexivity | intros _; split; reflexivity]);
    destruct (Marlin.get_position fuel m) as [[p | e |] m'];
    cbn; (split; [reflexivity | discriminate]).
Qed.

Lemma ot_get_state_json (fuel : nat) : related (@one_task A) (get_state_json fuel).
Proof. unfold get_state_json. ot ltac:(apply ot_update). Qed.

Ltac sot leaf :=
  rel (on_server_refl (@one_task A) one_task_refl)
      (on_server_trans (@one_task A) one_task_trans) leaf.

(** What the handler does with the outcome of a command. *)
Local Abbreviation answer fuel command :=
  (bind
     (try_except
        (bind command
           (fun success : bool =>
              if negb success
              then send_error "An error occurred. Please check the logs."
              else ret tt))
        ValueError
        (send_error "Please provide valid values."))
     (fun _ => send_state_update fuel)).

Lemma ot_answer (fuel : nat) (m : M (Helper.t A) bool) :
  related (@one_task A) m ->
  related (on_server (@one_task A)) (answer fuel (on_helper m)).
Proof.
  intros Hm. unfold send_error, send_state_update.
  sot ltac:(first [ apply related_send; apply one_task_refl
                  | apply related_on_helper; exact Hm
                  | apply related_on_helper; apply ot_get_state_json ]).
Qed.

Lemma is_str_eq (v : json) (s : string) : is_str v s = true -> v = JStr s.
Proof.
  destruct v; try discriminate. cbn. intros E. apply String.eqb_eq in E.
  congruence.
Qed.

(** The handler while a task is alive: only [disableJoystick] and
    [stopAttack] pass the guard. *)
Lemma message_handler_busy (fuel : nat) (msg : list (string * json))
  (s : Server.t A) :
  is_running (helper s) = true ->
  message_handler fuel msg s
  = match item "type" msg with
    | Ok ty =>
        if is_str ty "command" then
          match item "cmd" msg with
          | Ok cmd =>
              if is_str cmd "disableJoystick"
              then answer fuel (on_helper disable_joystick) s
              else if is_str cmd "stopAttack"
              then answer fuel (on_helper stop_attack) s
              else send_error "Please wait until the previous action terminates." s
          | Raise e => (Raise e, s)
          | OutOfFuel => (OutOfFuel, s)
          end
        else (Ok tt, s)
    | Raise e => (Raise e, s)
    | OutOfFuel => (OutOfFuel, s)
    end.
Proof.
  intros Run. unfold message_handler.
  unfold bind at 1. unfold lift_pure at 1.
  destruct (item "type" msg) as [ty | e |]; [| reflexivity | reflexivity].
  destruct (is_str ty "command"); [| reflexivity].
  unfold bind at 1. unfold lift_pure at 1.
  destruct (item "cmd" msg) as [cmd | e |]; [| reflexivity | reflexivity].
  unfold bind at 1. unfold get at 1. rewrite Run. cbn [andb].
  destruct (is_str cmd "disableJoystick") eqn:D; cbn [negb andb].
  - apply is_str_eq in D. subst cmd. reflexivity.
  - destruct (is_str cmd "stopAttack") eqn:St; cbn [negb]; [| reflexivity].
    apply is_str_eq in St. subst cmd. reflexivity.
Qed.

(** X24: while a task is alive no message starts another one, and as long as
    that task stays alive the handler leaves the controller to it: the other
    commands are refused, and [disableJoystick] and [stopAttack] reach the
    controller only after they have joined the task. *)
Theorem live_task_excludes_others (fuel : nat) (msg : list (string * json))
  (s : Server.t A) :
  is_running (helper s) = true ->
  let s' := snd (message_handler fuel msg s) in
  started (helper s') = started (helper s)
  /\ (is_running (helper s') = true ->
      marlin (helper s') = marlin (helper s) /\ task (helper s') = task (helper s)).
Proof.
  intros Run s'. subst s'. rewrite (message_handler_busy fuel msg s Run).
  change (on_server (@one_task A) s
            (snd match item "type" msg with
                 | Ok ty =>
                     if is_str ty "command" then
                       match item "cmd" msg with
                       | Ok cmd =>
                           if is_str cmd "disableJoystick"
                           then answer fuel (on_helper disable_joystick) s
                           else if is_str cmd "stopAttack"
                           then answer fuel (on_helper stop_attack) s
                           else send_error
                                  "Please wait until the previous action terminates." s
                       | Raise e => (Raise e, s)
                       | OutOfFuel => (OutOfFuel, s)
                       end
                     else (Ok tt, s)
                 | Raise e => (Raise e, s)
                 | OutOfFuel => (OutOfFuel, s)
                 end)).
  destruct (item "type" msg) as [ty | e |]; try apply one_task_refl.
  destruct (is_str ty "command"); try apply one_task_refl.
  destruct (item "cmd" msg) as [cmd | e |]; try apply one_task_refl.
  destruct (is_str cmd "disableJoystick");
    [apply (ot_answer fuel _ ot_disable_joystick) |].
  destruct (is_str cmd "stopAttack");
    [apply (ot_answer fuel _ ot_stop_attack) |].
  apply one_task_refl.
Qed.

End Busy.

Section BusyExamples.

#[local] Existing Instance Demo.builtin.

Lemma live_task_excludes_others_witness :
  let s := Server.mk Demo.attacking [] in
  let msg := Demo.command "step"
               [("speed", JNum 5); ("x", JNum 1); ("y", JNum 0); ("z", JNum 0)] in
  Helper.started (Server.helper (snd (Server.message_handler 5 msg s)))
  = [Thread.AttackRun].
Proof.
  apply (proj1 (live_task_excludes_others 5
                  (Demo.command "step"
                     [("speed", JNum 5); ("x", JNum 1); ("y", JNum 0); ("z", JNum 0)])
                  (Server.mk Demo.attacking []) eq_refl)).
Defined.

End BusyExamples.

(** ** The joystick's axes and the jog slot *)

Section StickAxes.

Import Stick.

Ltac settle :=
  vm_compute;
  repeat match goal with
         | |- _ /\ _ => split
         | |- _ = _ => reflexivity
         | |- _ = _ -> _ => let E := fresh in intros E; try discriminate E
         | |- _ \/ _ => first [left; reflexivity | right]
         end.

Lemma eval_axis_in_sync (value : Z) (a : axis) (s : Stick.t) :
  in_sync s ->
  let r := eval_axis value a s in
  (fst r = Ok tt \/ fst r = OutOfFuel)
  /\ (fst r = Ok tt ->
      in_sync (snd r)
      /\ Jog.thread_ends (jog (snd r)) = Jog.thread_ends (jog s))
  /\ (Jog.thread_ends (jog s) = true -> fst r = Ok tt).
Proof.
  destruct s as [[[x y] z] stp [m e slot]]. unfold in_sync.
  cbn [last_event jog Jog.continuous_movement Jog.thread_ends].
  intros (Hx & Hy & Hz & Hs).
  unfold eval_axis, bind, get. cbn [last_event].
  destruct slot as [[act f run th] |].
  - cbn [ContinuousMove.active ContinuousMove.running ContinuousMove.thread] in Hs.
    destruct Hs as (-> & -> & -> & N).
    destruct Hx as [-> | [-> | ->]], Hy as [-> | [-> | ->]], Hz as [-> | [-> | ->]];
      try (exfalso; apply N; reflexivity); clear N;
      destruct a, e;
      destruct (215 <? value), (value <? 175), (value <? 40), (80 <? value);
      settle.
  - injection Hs as -> -> ->. clear Hx Hy Hz.
    destruct a, e;
      destruct (215 <? value), (value <? 175), (value <? 40), (80 <? value);
      settle.
Qed.

(** X25: the debounce state of the stick and the jog slot stay in step.
    From a state where they agree, one evaluation of the axes raises no
    exception for any values read from the device: a halt is only sent for an
    axis that was set in motion, so it never finds the jog slot empty.  The
    evaluation returns when a stopped jog thread comes to an end, and
    otherwise may wait for ever in the join of that thread; whenever it
    returns, the debounce state and the jog slot agree afterwards. *)
Theorem eval_axles_keeps_sync (value : Z * Z * Z) (s : Stick.t) :
  in_sync s ->
  let r := eval_axles value s in
  (fst r = Ok tt \/ fst r = OutOfFuel)
  /\ (fst r = Ok tt -> in_sync (snd r))
  /\ (Jog.thread_ends (jog s) = true -> fst r = Ok tt).
Proof.
  intros I0. unfold eval_axles, bind.
  destruct (eval_axis_in_sync (item value AxisX) AxisX s I0) as (D1 & K1 & T1).
  destruct (eval_axis (item value AxisX) AxisX s) as [r1 s1].
  cbn [fst snd] in D1, K1, T1.
  destruct D1 as [-> | ->];
    [| split; [right; reflexivity |];
       split; [discriminate | intros E; discriminate (T1 E)]].
  destruct (K1 eq_refl) as [I1 E1]. clear K1 T1.
  destruct (eval_axis_in_sync (item value AxisY) AxisY s1 I1) as (D2 & K2 & T2).
  destruct (eval_axis (item value AxisY) AxisY s1) as [r2 s2].
  cbn [fst snd] in D2, K2, T2. rewrite E1 in T2.
  destruct D2 as [-> | ->];
    [| split; [right; reflexivity |];
       split; [discriminate | intros E; discriminate (T2 E)]].
  destruct (K2 eq_refl) as [I2 E2]. clear K2 T2.
  destruct (eval_axis_in_sync (item value AxisZ) AxisZ s2 I2) as (D3 & K3 & T3).
  rewrite E2, E1 in T3.
  split; [exact D3 |].
  split; [intros R; exact (proj1 (K3 R)) | exact T3].
Qed.

Lemma eval_axles_keeps_sync_witness :
  let s := Stick.mk (0, 0, 0) true
             (Jog.mk (Marlin.init false Demo.prompt) true None) in
  in_sync s
  /\ fst (eval_axles (255, 128, 128) s) = Ok tt
  /\ in_sync (snd (eval_axles (255, 128, 128) s)).
Proof.
  intros s.
  assert (I0 : in_sync s).
  { unfold in_sync, at_rest_or_moving. cbn. repeat split; auto. }
  destruct (eval_axles_keeps_sync (255, 128, 128) s I0) as (_ & K & T).
  split; [exact I0 |].
  split; [exact (T eq_refl) | exact (K (T eq_refl))].
Defined.

(** The stick is let go while the jog thread never ends: the evaluation of
    the axes does not return. *)
Lemma eval_axles_waits_for_endless_jog_thread :
  let s0 := Stick.mk (0, 0, 0) true
              (Jog.mk (Marlin.init false Demo.prompt) false None) in
  let s := snd (eval_axles (255, 128, 128) s0) in
  last_event s = (1, 0, 0)
  /\ fst (eval_axles (128, 128, 128) s) = OutOfFuel.
Proof. vm_compute. repeat split. Qed.

(** X26: stepping is enabled again while the stage still moves.  When two
    axes are in motion, the halt of one of them returns, sets [stepping] and
    leaves the jog thread running for the other axis. *)
Theorem halt_enables_stepping_while_moving (a b : axis) (s : Stick.t) :
  in_sync s ->
  a <> b ->
  item (last_event s) a <> 0 ->
  item (last_event s) b <> 0 ->
  let r := halt a s in
  fst r = Ok tt
  /\ stepping (snd r) = true
  /\ exists c,
       Jog.continuous_movement (jog (snd r)) = Some c
       /\ ContinuousMove.running c = true
       /\ ContinuousMove.thread c = ContinuousMove.Alive.
Proof.
  destruct s as [[[x y] z] stp [m e slot]]. unfold in_sync.
  cbn [last_event jog Jog.continuous_movement].
  intros (Hx & Hy & Hz & Hs) D Na Nb.
  destruct slot as [[act f run th] |].
  - cbn [ContinuousMove.active ContinuousMove.running ContinuousMove.thread] in Hs.
    destruct Hs as (-> & -> & -> & _).
    destruct Hx as [-> | [-> | ->]], Hy as [-> | [-> | ->]], Hz as [-> | [-> | ->]];
      destruct a, b; cbn in Na, Nb; try congruence;
      vm_compute; (split; [reflexivity |]); (split; [reflexivity |]);
      eexists; (split; [reflexivity |]); split; reflexivity.
  - injection Hs as -> -> ->. destruct a; cbn in Na; congruence.
Qed.

Lemma halt_enables_stepping_while_moving_witness :
  let s := Stick.mk (1, 1, 0) false
             (Jog.mk (Marlin.init false Demo.prompt) true
                (Some (ContinuousMove.mk
                         (Float.of_Z 1, Float.of_Z 1, Float.of_Z 0) 1 true
                         ContinuousMove.Alive))) in
  fst (halt AxisX s) = Ok tt /\ stepping (snd (halt AxisX s)) = true.
Proof.
  assert (I : in_sync
                (Stick.mk (1, 1, 0) false
                   (Jog.mk (Marlin.init false Demo.prompt) true
                      (Some (ContinuousMove.mk
                               (Float.of_Z 1, Float.of_Z 1, Float.of_Z 0) 1 true
                               ContinuousMove.Alive))))).
  { unfold in_sync, at_rest_or_moving. cbn. repeat split; auto. discriminate. }
  destruct (halt_enables_stepping_while_moving AxisX AxisY _ I) as (P & Q & _);
    try (cbn; discriminate).
  split; [exact P | exact Q].
Defined.

End StickAxes.

(** ** The attack task: start and shutdown *)

Section Tasks.

Context {A : Type} `{Attack.Impl A}.

Import Helper.

(** X27: [start_attack] starts a task exactly when the station is in manual
    mode and the named class was found and constructed.  Then the task runs
    the attack, the station is in attack mode and the worker holds the new
    attack object; in every other case no task is started and the mode, the
    task and the loaded attack stay as they were. *)
Theorem start_attack_starts_loaded_attack (name : json) (h : Helper.t A) :
  let r := start_attack name h in
  let found :=
    AttackImporter.get_attack_by_name (Worker.importer (attack_runner h)) name in
  (fst r = Ok true
   <-> State.mode (state h) = State.MANUAL_MODE
       /\ exists c a, found = Some c /\ AttackImporter.new c = Ok a)
  /\ (forall c a,
        State.mode (state h) = State.MANUAL_MODE ->
        found = Some c -> AttackImporter.new c = Ok a ->
        task (snd r) = Thread.Alive Thread.AttackRun
        /\ started (snd r) = started h ++ [Thread.AttackRun]
        /\ State.mode (state (snd r)) = State.ATTACK_MODE
        /\ Worker.attack (attack_runner (snd r)) = Some a)
  /\ (fst r <> Ok true ->
      task (snd r) = task h
      /\ started (snd r) = started h
      /\ state (snd r) = state h
      /\ Worker.attack (attack_runner (snd r)) = Worker.attack (attack_runner h)).
Proof.
  destruct h as [imp m temp w j plugged ends th st stt lg].
  destruct stt as [md pos tmp prog atk sz].
  destruct w as [wi wa wr wp wpos wl wb wt].
  cbn [state attack_runner Worker.importer State.mode task started].
  unfold start_attack, on_runner, Worker.load_attack, Worker.call_class, start_task,
    set_mode, try_except.
  unfold bind, get, ret, modify, lift_pure.
  cbn [state attack_runner Worker.importer State.mode task started
       State.attack_enabled State.joystick_enabled orb fst snd].
  destruct md; cbn [orb];
    try (cbn; split; [split; [discriminate | intros [E _]; discriminate] |];
         split; [intros c a E; discriminate | intros _; repeat split]).
  destruct (AttackImporter.get_attack_by_name wi name) as [c |] eqn:F.
  - destruct (AttackImporter.new c) as [a | e |] eqn:N.
    + cbn. rewrite ?F. cbn. rewrite ?N. cbn.
      split; [split; [intros _; split; [reflexivity | eauto] | reflexivity] |].
      split; [| intros C; contradiction C; reflexivity].
      intros c' a' _ Ec En. injection Ec as <-. rewrite N in En. injection En as <-.
      repeat split.
    + cbn. rewrite ?F. cbn. rewrite ?N. destruct e; cbn;
        (split; [split; [discriminate
                        | intros [_ (c' & a' & Ec & En)]; injection Ec as <-;
                          congruence] |]);
        (split; [intros c' a' _ Ec En; injection Ec as <-; congruence
                | intros _; repeat split]).
    + cbn. rewrite ?F. cbn. rewrite ?N. cbn.
      split; [split; [discriminate
                     | intros [_ (c' & a' & Ec & En)]; injection Ec as <-;
                       congruence] |].
      split; [intros c' a' _ Ec En; injection Ec as <-; congruence
             | intros _; repeat split].
  - cbn. rewrite ?F. cbn.
    split; [split; [discriminate | intros [_ (c' & a' & Ec & _)]; discriminate] |].
    split; [intros c' a' _ Ec; discriminate | intros _; repeat split].
Qed.

(** X28: [shutdown] ends the task when the task comes to an end.  With no
    task alive it does nothing.  With a task alive, outside joystick mode or
    with a joystick object, it joins the task, with no timeout: when the task
    comes to an end it returns and no task is alive afterwards; when the task
    does not end, [shutdown] does not return, the task stays alive and the
    mode is as it was.  In joystick mode without a joystick object it returns
    and leaves the task alive.  In attack mode the worker is told to stop
    before the join, and the station is back in manual mode once the join has
    returned. *)
Theorem shutdown_ends_the_task (h : Helper.t A) :
  let r := shutdown h in
  (is_running h = false -> r = (Ok tt, h))
  /\ (forall tg, task h = Thread.Alive tg ->
      (State.mode (state h) <> State.JOYSTICK_MODE \/ joystick h <> None ->
       if task_ends h tg
       then fst r = Ok tt /\ is_running (snd r) = false
       else fst r = OutOfFuel
            /\ task (snd r) = Thread.Alive tg
            /\ State.mode (state (snd r)) = State.mode (state h))
      /\ (State.mode (state h) = State.JOYSTICK_MODE -> joystick h = None ->
          fst r = Ok tt /\ task (snd r) = Thread.Alive tg)
      /\ (State.mode (state h) = State.ATTACK_MODE ->
          Worker.running (attack_runner (snd r)) = false
          /\ (task_ends h tg = true ->
              State.mode (state (snd r)) = State.MANUAL_MODE))).
Proof.
  destruct h as [imp m temp w j plugged ends th st stt lg].
  destruct stt as [md pos tmp prog atk sz].
  unfold shutdown, is_running, bind, get.
  cbn [task state State.mode joystick task_ends].
  split.
  - destruct th as [| tg | tg]; cbn [Thread.is_alive];
      [reflexivity | discriminate | reflexivity].
  - intros tg ->. cbn [Thread.is_alive].
    unfold disable_joystick, stop_attack, join_task, set_mode, on_runner.
    unfold bind, get, modify, lift_pure, ret.
    destruct md, j as [j |], (ends tg) eqn:E; cbn; rewrite ?E; cbn;
      repeat split; try reflexivity; try discriminate;
      match goal with
      | N : _ \/ _ |- _ => destruct N as [N | N]; exfalso; apply N; reflexivity
      end.
Qed.

End Tasks.

Section TasksExamples.

#[local] Existing Instance Demo.builtin.

Lemma start_attack_starts_loaded_attack_witness :
  fst (Helper.start_attack (JStr "Demo") Demo.station) = Ok true
  /\ Helper.task (snd (Helper.start_attack (JStr "Demo") Demo.station))
     = Thread.Alive Thread.AttackRun.
Proof.
  destruct (start_attack_starts_loaded_attack (JStr "Demo") Demo.station)
    as (P & Q & _).
  split.
  - apply P. split; [reflexivity |].
    exists (AttackImporter.mk_class "Demo" (Ok (Demo.mk 0 1))), (Demo.mk 0 1).
    split; reflexivity.
  - apply (Q (AttackImporter.mk_class "Demo" (Ok (Demo.mk 0 1))) (Demo.mk 0 1));
      reflexivity.
Defined.

Lemma shutdown_ends_the_task_witness :
  Helper.task Demo.attacking = Thread.Alive Thread.AttackRun
  /\ fst (Helper.shutdown Demo.attacking) = Ok tt
  /\ Helper.is_running (snd (Helper.shutdown Demo.attacking)) = false
  /\ State.mode (Helper.state (snd (Helper.shutdown Demo.attacking)))
     = State.MANUAL_MODE.
Proof.
  destruct (proj2 (shutdown_ends_the_task Demo.attacking) Thread.AttackRun eq_refl)
    as (P & _ & Q).
  assert (J : State.mode (Helper.state Demo.attacking) <> State.JOYSTICK_MODE
              \/ Helper.joystick Demo.attacking <> None)
    by (left; vm_compute; discriminate).
  specialize (P J).
  change (Helper.task_ends Demo.attacking Thread.AttackRun) with true in P.
  cbv iota in P. destruct P as [P1 P2].
  split; [reflexivity |].
  split; [exact P1 |].
  split; [exact P2 |].
  exact (proj2 (Q eq_refl) eq_refl).
Defined.

(** The attack task never ends: [shutdown] does not return, the worker was
    told to stop and the mode is still Attack. *)
Lemma shutdown_waits_for_endless_task :
  let r := Helper.shutdown Demo.stuck in
  fst r = OutOfFuel
  /\ Helper.task (snd r) = Thread.Alive Thread.AttackRun
  /\ Worker.running (Helper.attack_runner (snd r)) = false
  /\ State.mode (Helper.state (snd r)) = State.ATTACK_MODE.
Proof. vm_compute. repeat split. Qed.

End TasksExamples.

(** ** A run that is stopped *)

Section StoppedRun.

Context {A : Type} `{Attack.Impl A}.

Import Worker Stopping.

Lemma unfired_unshot (l : list event) : Forall unfired l -> Forall unshot l.
Proof. apply Forall_impl. intros ev [U _]. exact U. Qed.

(** *** Steps that leave the flag alone *)

Lemma steady_ret (P : event -> Prop) {B} (b : B) :
  steady P (ret b : M (world A) B).
Proof.
  intros s. split; [reflexivity |]. exists []. cbn. rewrite app_nil_r. auto.
Qed.

Lemma steady_silent (P : event -> Prop) {B} (m : M (world A) B) :
  (forall s, begun (worker (snd (m s))) = begun (worker s)
             /\ trace (worker (snd (m s))) = trace (worker s)) ->
  steady P m.
Proof.
  intros K s. destruct (K s) as [Eb Et]. split; [exact Eb |].
  exists []. rewrite app_nil_r. auto.
Qed.

Lemma steady_bind (P : event -> Prop) {B C} (m : M (world A) B)
  (k : B -> M (world A) C) :
  steady P m -> (forall b, steady P (k b)) -> steady P (bind m k).
Proof.
  intros Hm Hk s. destruct (Hm s) as (Eb & l1 & Et & F1). unfold bind.
  destruct (m s) as [[b | ex |] s1]; cbn [fst snd] in *.
  - destruct (Hk b s1) as (Eb2 & l2 & Et2 & F2). split; [congruence |].
    exists (l1 ++ l2). rewrite Et2, Et, app_assoc. split; [reflexivity |].
    apply Forall_app. auto.
  - split; [exact Eb |]. exists l1. auto.
  - split; [exact Eb |]. exists l1. auto.
Qed.

Lemma steady_weaken (P Q : event -> Prop) {B} (m : M (world A) B) :
  (forall ev, P ev -> Q ev) -> steady P m -> steady Q m.
Proof.
  intros W Hm s. destruct (Hm s) as (Eb & l & Et & F). split; [exact Eb |].
  exists l. split; [exact Et |]. exact (Forall_impl _ W F).
Qed.

Lemma steady_the_attack (P : event -> Prop) : steady (A:=A) P the_attack.
Proof.
  apply steady_silent. intros s. unfold the_attack, bind, get.
  destruct (attack (worker s)); split; reflexivity.
Qed.

Lemma steady_lift_pure (P : event -> Prop) {B} (o : outcome B) :
  steady P (lift_pure o : M (world A) B).
Proof. apply steady_silent. intros s. split; reflexivity. Qed.

Lemma steady_on_stage (P : event -> Prop) {B} (m : M Marlin.t B) :
  steady (A:=A) P (on_stage m).
Proof.
  apply steady_silent. intros s. unfold on_stage.
  destruct (m (stage s)). split; reflexivity.
Qed.

Lemma steady_worker_modify (P : event -> Prop) (f : Worker.t A -> Worker.t A) :
  (forall w, begun (f w) = begun w /\ trace (f w) = trace w) ->
  steady (A:=A) P (on_worker (modify f)).
Proof. intros K. apply steady_silent. intros s. cbn. apply K. Qed.

Lemma steady_put_attack (P : event -> Prop) (a : A) : steady P (put_attack a).
Proof. apply steady_worker_modify. intros w. split; reflexivity. Qed.

Lemma steady_emit (P : event -> Prop) (ev : event) :
  P ev -> steady (A:=A) P (emit ev).
Proof.
  intros Pev s. split; [reflexivity |]. exists [ev]. split; [reflexivity |].
  constructor; [exact Pev | constructor].
Qed.

Ltac plain_event := unfold unfired, unshot; repeat split; discriminate.

Ltac steady_step :=
  first
    [ apply steady_the_attack
    | apply steady_lift_pure
    | apply steady_put_attack
    | apply steady_on_stage
    | apply steady_worker_modify; intros ?; split; reflexivity
    | apply steady_emit; plain_event
    | apply steady_ret ].

Ltac steady_seq :=
  repeat (apply steady_bind; [steady_step | intros ?]); try steady_step.

Lemma steady_file_log (P : event -> Prop) (message : string) :
  P (EFileLog message) -> steady (A:=A) P (file_log message).
Proof.
  intros Pev. unfold file_log.
  apply steady_bind; [apply steady_emit; exact Pev | intros _].
  apply steady_silent. intros s. unfold on_worker.
  destruct (AttackLogger.log message (a_log (worker s))). split; reflexivity.
Qed.

Lemma steady_stage_move (fuel : nat) (x y z : option float) (feed_rate : float) :
  steady (A:=A) unfired (stage_move fuel x y z feed_rate).
Proof. unfold stage_move. steady_seq. Qed.

Lemma steady_stage_home (fuel : nat) (x y z : bool) :
  steady (A:=A) unfired (stage_home fuel x y z).
Proof. unfold stage_home. steady_seq. Qed.

Lemma steady_move_to_start (fuel : nat) :
  steady (A:=A) unfired (move_to_start fuel).
Proof.
  unfold move_to_start.
  repeat (apply steady_bind;
          [first [apply steady_stage_home | apply steady_stage_move | steady_step]
          | intros ?]).
  first [apply steady_stage_move | steady_step].
Qed.

(** *** The flag is read *)

Lemma is_running_stopped (e : env) (s : world A) :
  stop_requested e (begun (worker s)) = true ->
  fst (is_running e s) = Ok false
  /\ begun (worker (snd (is_running e s))) = S (begun (worker s))
  /\ trace (worker (snd (is_running e s))) = trace (worker s).
Proof.
  intros St. unfold is_running, on_worker, bind, get, modify, ret.
  cbn. rewrite !St. cbn. rewrite ?Bool.andb_false_r. auto.
Qed.

Lemma halts_seq (e : env) {B} (m : M (world A) B) (k : B -> M (world A) flow) :
  steady unfired m -> (forall b, halts e (k b)) -> halts e (bind m k).
Proof.
  intros Hm Hk s St. destruct (Hm s) as (Eb & l1 & Et & F1). unfold bind.
  destruct (m s) as [[b | ex |] s1]; cbn [fst snd] in *.
  - rewrite <- Eb in St. destruct (Hk b s1 St) as (l2 & Et2 & F2 & D).
    exists (l1 ++ l2). rewrite Et2, Et, app_assoc. split; [reflexivity |].
    split; [apply Forall_app; auto |]. rewrite <- Eb. exact D.
  - exists l1. split; [exact Et |]. split; [exact F1 |].
    right. split; [discriminate | exact Eb].
  - exists l1. split; [exact Et |]. split; [exact F1 |].
    right. split; [discriminate | exact Eb].
Qed.

Lemma halts_ret_next (e : env) : halts (A:=A) e (ret Next).
Proof.
  intros s _. exists []. cbn. rewrite app_nil_r. split; [reflexivity |].
  split; [constructor |]. right. split; [discriminate | reflexivity].
Qed.

Lemma halts_repetitions_loop (fuel : nat) (e : env) (n : nat) (i j len : Z)
  (pos : Utils.position) :
  halts e (repetitions_loop fuel e n i j len pos).
Proof.
  destruct n as [| n]; cbn [repetitions_loop]; [apply halts_ret_next |].
  apply halts_seq; [steady_step | intros a0].
  apply halts_seq; [steady_step | intros p].
  apply halts_seq; [steady_step | intros _].
  intros s St. destruct (is_running_stopped e s St) as (R & Eb & Et).
  unfold bind. destruct (is_running e s) as [r s1]. cbn [fst snd] in *. subst r.
  cbn. exists []. rewrite app_nil_r. split; [exact Et |].
  split; [constructor |]. left. split; [reflexivity |]. rewrite Eb. auto.
Qed.

Lemma halts_loop_bind (e : env) (m k : M (world A) flow) :
  halts e m -> halts e k ->
  halts e (bind m (fun r => match r with Return => ret Return | Next => k end)).
Proof.
  intros Hm Hk s St. destruct (Hm s St) as (l1 & Et & F1 & D). unfold bind.
  destruct (m s) as [[[|] | ex |] s1]; cbn [fst snd] in *.
  - destruct D as [[D _] | [_ Eb]]; [discriminate |].
    rewrite <- Eb in St. destruct (Hk s1 St) as (l2 & Et2 & F2 & D2).
    exists (l1 ++ l2). rewrite Et2, Et, app_assoc. split; [reflexivity |].
    split; [apply Forall_app; auto |]. rewrite <- Eb. exact D2.
  - cbn. exists l1. split; [exact Et |]. split; [exact F1 |].
    destruct D as [[_ Nb] | [D _]]; [| contradiction D; reflexivity].
    left. split; [reflexivity | exact Nb].
  - exists l1. split; [exact Et |]. split; [exact F1 |].
    destruct D as [[D _] | [_ Eb]]; [discriminate |].
    right. split; [discriminate | exact Eb].
  - exists l1. split; [exact Et |]. split; [exact F1 |].
    destruct D as [[D _] | [_ Eb]]; [discriminate |].
    right. split; [discriminate | exact Eb].
Qed.

Lemma halts_positions_loop (fuel : nat) (e : env) (rest : list Utils.position) :
  forall i len, halts e (positions_loop fuel e rest i len).
Proof.
  induction rest as [| pos rest IH]; intros i len; cbn [positions_loop].
  - apply halts_ret_next.
  - destruct (to_float pos) as [[x y] z].
    apply halts_seq; [apply steady_stage_move | intros _].
    apply halts_seq; [steady_step | intros _].
    apply halts_seq; [steady_step | intros a].
    apply (halts_loop_bind e _ (positions_loop fuel e rest (i + 1) len)).
    + apply halts_repetitions_loop.
    + apply IH.
Qed.

(** *** The run *)

Lemma finishes_seq (e : env) {B} (m : M (world A) B) (k : B -> M (world A) unit) :
  steady unfired m -> (forall b, finishes e (k b)) -> finishes e (bind m k).
Proof.
  intros Hm Hk s St. destruct (Hm s) as (Eb & l1 & Et & F1). unfold bind.
  destruct (m s) as [[b | ex |] s1]; cbn [fst snd] in *.
  - rewrite <- Eb in St. destruct (Hk b s1 St) as (l2 & Et2 & F2 & D).
    exists (l1 ++ l2). rewrite Et2, Et, app_assoc. split; [reflexivity |].
    split; [apply Forall_app; auto using unfired_unshot |].
    rewrite <- Eb. intros Nb. destruct (D Nb) as [R F]. split; [exact R |].
    apply Forall_app. auto.
  - exists l1. split; [exact Et |]. split; [apply unfired_unshot; exact F1 |].
    intros Nb. contradiction.
  - exists l1. split; [exact Et |]. split; [apply unfired_unshot; exact F1 |].
    intros Nb. contradiction.
Qed.

Lemma steady_run_end :
  steady (A:=A) unshot
    (a <- the_attack ;;
     put_attack (Attack.shutdown a) ;; emit EShutdown ;;
     file_log "Stopping attack..." ;;
     emit ECloseFile ;;
     on_worker (modify (fun s => set_a_log (AttackLogger.close (a_log s)) s)))%monad.
Proof.
  apply steady_bind; [steady_step | intros a].
  apply steady_bind; [steady_step | intros _].
  apply steady_bind; [apply steady_emit; plain_event | intros _].
  apply steady_bind; [apply steady_file_log; plain_event | intros _].
  apply steady_bind; [apply steady_emit; plain_event | intros _].
  steady_step.
Qed.

Lemma finishes_end (e : env) (m : M (world A) flow) (k : M (world A) unit) :
  halts e m -> steady unshot k ->
  finishes e (bind m (fun r => match r with Return => ret tt | Next => k end)).
Proof.
  intros Hm Hk s St. destruct (Hm s St) as (l1 & Et & F1 & D). unfold bind.
  destruct (m s) as [[[|] | ex |] s1]; cbn [fst snd] in *.
  - destruct D as [[D _] | [_ Eb]]; [discriminate |].
    destruct (Hk s1) as (Eb2 & l2 & Et2 & F2).
    exists (l1 ++ l2). rewrite Et2, Et, app_assoc. split; [reflexivity |].
    split; [apply Forall_app; auto using unfired_unshot |].
    intros Nb. exfalso. apply Nb. congruence.
  - cbn. exists l1. split; [exact Et |].
    split; [apply unfired_unshot; exact F1 |]. intros _. auto.
  - exists l1. split; [exact Et |]. split; [apply unfired_unshot; exact F1 |].
    destruct D as [[D _] | [_ Eb]]; [discriminate |]. intros Nb. contradiction.
  - exists l1. split; [exact Et |]. split; [apply unfired_unshot; exact F1 |].
    destruct D as [[D _] | [_ Eb]]; [discriminate |]. intros Nb. contradiction.
Qed.

Lemma finishes_run (fuel : nat) (e : env) : finishes e (run fuel e).
Proof.
  unfold run.
  apply finishes_seq; [steady_step | intros _].
  apply finishes_seq; [steady_step | intros _].
  apply finishes_seq; [steady_step | intros _].
  apply finishes_seq; [steady_step | intros _].
  apply finishes_seq; [apply steady_file_log; plain_event | intros _].
  apply finishes_seq; [steady_step | intros a0].
  apply finishes_seq; [steady_step | intros speed].
  apply finishes_seq; [steady_step | intros _].
  apply finishes_seq; [steady_step | intros _].
  apply finishes_seq; [steady_step | intros a1].
  apply finishes_seq; [steady_step | intros positions].
  apply finishes_seq; [steady_step | intros a2].
  apply finishes_seq; [steady_step | intros _].
  apply finishes_seq; [steady_step | intros _].
  apply finishes_seq; [apply steady_move_to_start | intros _].
  apply finishes_end; [apply halts_positions_loop | apply steady_run_end].
Qed.

(** X29: a stop request that is pending when the running flag is first read
    ends the run there.  No repetition is begun: the target is neither reset
    nor pulsed.  If the flag was read at all, [run] returns normally and has
    called neither the attack's shutdown hook nor the closing of the log. *)
Theorem pending_stop_ends_run (fuel : nat) (e : env) (s : world A) :
  stop_requested e (begun (worker s)) = true ->
  let r := run fuel e s in
  exists l,
    trace (worker (snd r)) = trace (worker s) ++ l
    /\ ~ In EResetTarget l
    /\ ~ In EShout l
    /\ (begun (worker (snd r)) <> begun (worker s) ->
        fst r = Ok tt /\ ~ In EShutdown l /\ ~ In ECloseFile l).
Proof.
  intros St r. subst r.
  destruct (finishes_run fuel e s St) as (l & Et & F & D).
  exists l. split; [exact Et |].
  rewrite Forall_forall in F.
  split; [intros I; destruct (F _ I) as [N _]; apply N; reflexivity |].
  split; [intros I; destruct (F _ I) as [_ N]; apply N; reflexivity |].
  intros Nb. destruct (D Nb) as [R F']. rewrite Forall_forall in F'.
  split; [exact R |].
  split; intros I; destruct (F' _ I) as (_ & N1 & N2); [apply N1 | apply N2];
    reflexivity.
Qed.

End StoppedRun.

Lemma pending_stop_ends_run_witness :
  let e := Worker.mk_env (fun _ => Float.of_Z 30) (fun _ => true) in
  exists l,
    Worker.trace (Worker.worker (snd (Worker.run 5 e Demo.world)))
    = Worker.trace (Worker.worker Demo.world) ++ l
    /\ ~ In Worker.EShout l.
Proof.
  destruct (pending_stop_ends_run 5
              (Worker.mk_env (fun _ => Float.of_Z 30) (fun _ => true))
              Demo.world eq_refl) as (l & Et & _ & N & _).
  exists l. split; [exact Et | exact N].
Defined.

(** ** The jog thread on a responsive board *)

Section JogThread.

Import Marlin.












End JogThread.

